(** * The ClusterDeployment reconciler of hive

    A shallow embedding of
    [pkg/controller/clusterdeployment/clusterdeployment_controller.go]:
    the reconciliation pass of one ClusterDeployment, the deletion workflow,
    the managed DNS gate, installer-image resolution, the job hash guard and
    status convergence.

    The Go code talks to an object store through [client.Client].  The store
    is modelled as a record of finite maps, one per kind, keyed by object
    name (all namespaced objects live in the namespace of the request).  A
    pass is a state transformer over that record.  Every call that the code
    issues against the store is appended to a trace, and every call may be
    made to fail by a fault oracle, so that the error branches of the source
    are modelled and not erased.

    Logging and Prometheus observations neither influence the control flow
    nor touch the store; they are left out. *)

From Stdlib Require Import ZArith Ascii String List Lia.
From stdpp Require Import base decidable option gmap strings list.

Local Open Scope Z_scope.
Local Open Scope string_scope.
Local Open Scope list_scope.

(** ** Time

    [Time] is an instant in nanoseconds counted from Go's zero [time.Time],
    so that [IsZero] is a comparison with [0].  [Duration] is an [int64]
    count of nanoseconds. *)

Definition Time := Z.
Definition Duration := Z.

Definition minDuration : Z := - 2 ^ 63.
Definition maxDuration : Z := 2 ^ 63 - 1.
Definition Second : Z := 1000000000.

(** [int64] addition as Go performs it on [time.Duration]: two's complement
    wrap-around. *)
Definition wrap64 (z : Z) : Z := (z + 2 ^ 63) mod 2 ^ 64 - 2 ^ 63.
Definition Duration_add (a b : Z) : Z := wrap64 (a + b).

(** [Time.Add]: the range of [time.Time] is far wider than any instant that
    occurs here; no wrap-around is modelled for instants. *)
Definition Time_Add (t : Z) (d : Z) : Z := t + d.
Definition Time_After (t u : Z) : bool := bool_decide (u < t).
(** [Time.Sub] saturates at the ends of [Duration]. *)
Definition Time_Sub (t u : Z) : Z :=
  if bool_decide (maxDuration < t - u) then maxDuration
  else if bool_decide (t - u < minDuration) then minDuration
  else t - u.
Definition Time_IsZero (t : Z) : bool := bool_decide (t = 0).
(** [IsZero] on a pointer to a [metav1.Time]: a nil pointer is zero too. *)
Definition PtrTime_IsZero (t : option Z) : bool :=
  match t with None => true | Some t => Time_IsZero t end.

(** ** Constants of the controller *)

Definition serviceAccountName := "cluster-installer".
Definition deleteAfterAnnotation := "hive.openshift.io/delete-after".
Definition adminSSHKeySecretKey := "ssh-publickey".
Definition adminKubeconfigKey := "kubeconfig".
Definition rawAdminKubeconfigKey := "raw-kubeconfig".
Definition clusterDeploymentGenerationAnnotation :=
  "hive.openshift.io/cluster-deployment-generation".
Definition clusterImageSetNotFoundReason := "ClusterImageSetNotFound".
Definition clusterImageSetFoundReason := "ClusterImageSetFound".
Definition defaultRequeueTime : Z := 10 * Second.
Definition jobHashAnnotation := "hive.openshift.io/jobhash".

(** Constants of the API packages that the controller names. *)
Definition FinalizerDeprovision := "hive.openshift.io/deprovision".
Definition ClusterImageSetNotFoundCondition := "ClusterImageSetNotFound".
Definition ZoneAvailableDNSZoneCondition := "ZoneAvailable".
Definition DockerConfigJsonKey := ".dockerconfigjson".

(** ** Errors and results *)

Inductive Verb := VGet | VList | VCreate | VUpdate | VStatusUpdate | VDelete.
Inductive Kind :=
  | KClusterDeployment | KJob | KConfigMap | KSecret | KDNSZone
  | KDeprovisionRequest | KClusterImageSet | KNamespace | KPod
  | KServiceAccount.

Inductive error :=
  | ErrNotFound                       (* errors.IsNotFound holds *)
  | ErrAlreadyExists
  | ErrStore (v : Verb) (k : Kind) (name : string)  (* any other store failure *)
  | ErrMsg (msg : string)             (* fmt.Errorf and collaborator errors *)
  | ErrPanic (msg : string).          (* a run-time panic *)

Definition IsNotFound (e : error) : bool :=
  match e with ErrNotFound => true | _ => false end.

Inductive res (A : Type) := Ok (a : A) | Err (e : error).
Arguments Ok {A} a.
Arguments Err {A} e.

(** [reconcile.Result]: only [RequeueAfter] is ever set by this controller. *)
Record Result := { RequeueAfter : Z }.
Definition Result_done : Result := {| RequeueAfter := 0 |}.

(** ** Objects *)

Inductive ConditionStatus := ConditionTrue | ConditionFalse | ConditionUnknown.

Record ClusterIngress := { IngressName : string; Domain : string }.

Record Images := {
  InstallerImage : string; ReleaseImage : string; HiveImage : string }.

Record AWSPlatform := { Region : string; UserTags : gmap string string }.
Record AWSPlatformSecrets := { Credentials : string }.

Record ClusterDeploymentSpec := {
  ClusterName : string;
  BaseDomain : string;
  Ingress : list ClusterIngress;
  SpecImages : Images;
  ImageSet : option string;            (* name of the referenced image set *)
  SSHKey : option string;              (* name of the referenced secret *)
  PullSecret : string;
  PlatformAWS : option AWSPlatform;
  PlatformSecretsAWS : option AWSPlatformSecrets;
  ManageDNS : bool;
  PreserveOnDelete : bool }.

(** The time stamps that the condition helper writes are not part of the
    modelled condition. *)
Record ClusterDeploymentCondition := {
  CondType : string; CondStatus : ConditionStatus;
  CondReason : string; CondMessage : string }.

Record ClusterDeploymentStatus := {
  Installed : bool;
  StatusInstallerImage : option string;
  InfraID : string;
  ClusterID : string;
  InstallRestarts : Z;
  AdminKubeconfigSecret : string;      (* LocalObjectReference.Name *)
  APIURL : string;
  WebConsoleURL : string;
  Conditions : list ClusterDeploymentCondition }.

(** Modelled from the spec: the finalizer helpers of [controllerutils]
    ([HasFinalizer], [AddFinalizer], [DeleteFinalizer]) are not among the
    sources; the spec's data model gives a ClusterDeployment a "set of
    finalizer tokens", so the finalizers are a finite set. *)
Record ClusterDeployment := {
  Name : string;
  Namespace : string;
  Generation : Z;
  CreationTimestamp : Z;
  DeletionTimestamp : option Z;
  Finalizers : gset string;
  Annotations : gmap string string;
  Spec : ClusterDeploymentSpec;
  Status : ClusterDeploymentStatus }.

Record JobCondition := { JobCondType : string; JobCondStatus : ConditionStatus }.

(** [OwnerUID]: the controller owner reference, if any.  [JobAnnotations] is
    [None] for a nil map. *)
Record Job := {
  JobName : string;
  JobNamespace : string;
  JobAnnotations : option (gmap string string);
  JobDeletionTimestamp : option Z;
  JobOwner : option string;
  JobSpec : string;
  JobConditions : list JobCondition }.

Record ConfigMap := {
  CMName : string;
  CMNamespace : string;
  CMAnnotations : option (gmap string string);
  CMOwner : option string;
  CMData : gmap string string }.

(** [SecretData] is [None] for a nil map; values are byte strings. *)
Record Secret := {
  SecretName : string;
  SecretData : option (gmap string string) }.

Record DNSZoneCondition := { ZoneCondType : string; ZoneCondStatus : ConditionStatus }.

Record DNSZone := {
  ZoneName : string;
  ZoneNamespace : string;
  ZoneDeletionTimestamp : option Z;
  ZoneOwner : option string;
  Zone : string;
  LinkToParentDomain : bool;
  ZoneAccountSecret : string;
  ZoneRegion : string;
  AdditionalTags : list (string * string);
  ZoneConditions : list DNSZoneCondition }.

Record ClusterDeprovisionRequest := {
  ReqName : string;
  ReqNamespace : string;
  ReqOwner : option string;
  ReqInfraID : string;
  ReqClusterID : string;
  ReqRegion : string;
  ReqCredentials : option string;
  Completed : bool }.

Record ClusterImageSet := {
  ImageSetName : string;
  ImageSetInstallerImage : option string;
  ImageSetReleaseImage : option string;
  ImageSetHiveImage : option string }.

Record Pod := {
  PodLabels : gmap string string;
  RestartCounts : list Z }.           (* one per container status *)

Global Instance ConditionStatus_eq_dec : EqDecision ConditionStatus.
Proof. solve_decision. Defined.
Global Instance ClusterDeploymentCondition_eq_dec : EqDecision ClusterDeploymentCondition.
Proof. solve_decision. Defined.
Global Instance ClusterDeploymentStatus_eq_dec : EqDecision ClusterDeploymentStatus.
Proof. solve_decision. Defined.

(** ** Collaborators

    Functions of other packages that the controller calls and whose code is
    not part of this development.  They are parameters of the model. *)

Inductive UpdateConditionCheck :=
  | UpdateConditionAlways | UpdateConditionNever
  | UpdateConditionIfReasonOrMessageChange.

Record Collaborators := {
  (* time.ParseDuration *)
  ParseDuration : string -> res Z;
  (* strconv.ParseInt(s, 10, 64), the value returned; the caller drops the error *)
  ParseInt : string -> Z;
  (* images.GetHiveImage and images.GetCLIImage: the configured defaults *)
  images_GetHiveImage : string;
  images_GetCLIImage : string;
  (* install.GetInstallJobName and apihelpers.GetResourceName *)
  GetInstallJobName : ClusterDeployment -> string;
  GetResourceName : string -> string -> string;
  (* install.GenerateInstallerJob cd hiveImage releaseImage serviceAccount sshKey pullSecret *)
  GenerateInstallerJob :
    ClusterDeployment -> string -> string -> string -> string -> string ->
    res (Job * ConfigMap);
  (* imageset.GenerateImageSetJob cd releaseImage serviceAccount cliImage hiveImage *)
  GenerateImageSetJob :
    ClusterDeployment -> string -> string -> string -> string -> Job;
  (* job.Spec.Marshal, and the hexadecimal MD5 digest of a byte string *)
  JobSpec_Marshal : string -> res string;
  md5_hex : string -> string;
  (* controllerutils.IsSuccessful and controllerutils.IsFinished *)
  IsSuccessful : Job -> bool;
  IsFinished : Job -> bool;
  (* controllerutils.SetClusterDeploymentCondition *)
  SetClusterDeploymentCondition :
    list ClusterDeploymentCondition -> string -> ConditionStatus -> string ->
    string -> UpdateConditionCheck -> list ClusterDeploymentCondition;
  (* controllerutil.SetControllerReference owner, on the controller owner
     reference of the object: the new reference or an error *)
  SetControllerReference : ClusterDeployment -> option string -> res (option string);
  (* controllerutils.FixupKubeconfig *)
  FixupKubeconfig : string -> res string;
  (* r.remoteClusterAPIClientBuilder: a client for the remote cluster, given
     as the outcome of fetching the console route's host from it *)
  remoteClusterAPIClientBuilder : string -> res (res string);
  (* clientcmd.Load: the clusters of a kubeconfig, name to server URL *)
  clientcmd_Load : string -> res (gmap string string) }.

(** ** The object store *)

Inductive PropagationPolicy := DeletePropagationDefault | DeletePropagationForeground.

(** The calls that write to the store, as issued. *)
Inductive Call :=
  | UpdateCD (cd : ClusterDeployment)
  | StatusUpdateCD (cd : ClusterDeployment)
  | DeleteCD (name : string)
  | CreateJob (j : Job)
  | DeleteJob (name : string) (p : PropagationPolicy)
  | CreateConfigMap (c : ConfigMap)
  | UpdateConfigMap (c : ConfigMap)
  | UpdateSecret (s : Secret)
  | CreateDNSZone (z : DNSZone)
  | DeleteDNSZone (name : string) (p : PropagationPolicy)
  | CreateDeprovisionRequest (r : ClusterDeprovisionRequest)
  | SetupServiceAccount (namespace : string).

Record World := {
  clusterDeployments : gmap string ClusterDeployment;
  jobs : gmap string Job;
  configMaps : gmap string ConfigMap;
  secrets : gmap string Secret;
  dnsZones : gmap string DNSZone;
  deprovisionRequests : gmap string ClusterDeprovisionRequest;
  clusterImageSets : gmap string ClusterImageSet;
  namespaces : gmap string (option Z);  (* namespace to its deletion time stamp *)
  pods : list Pod;
  clock : nat -> Z;                     (* successive readings of time.Now *)
  ticks : nat;                          (* readings taken so far *)
  faults : Verb -> Kind -> string -> bool;  (* calls that fail *)
  trace : list Call }.

Definition set_clusterDeployments (f : gmap string ClusterDeployment -> gmap string ClusterDeployment) (w : World) : World :=
  {| clusterDeployments := f (clusterDeployments w); jobs := jobs w;
     configMaps := configMaps w; secrets := secrets w; dnsZones := dnsZones w;
     deprovisionRequests := deprovisionRequests w;
     clusterImageSets := clusterImageSets w; namespaces := namespaces w;
     pods := pods w; clock := clock w; ticks := ticks w; faults := faults w;
     trace := trace w |}.
Definition set_jobs (f : gmap string Job -> gmap string Job) (w : World) : World :=
  {| clusterDeployments := clusterDeployments w; jobs := f (jobs w);
     configMaps := configMaps w; secrets := secrets w; dnsZones := dnsZones w;
     deprovisionRequests := deprovisionRequests w;
     clusterImageSets := clusterImageSets w; namespaces := namespaces w;
     pods := pods w; clock := clock w; ticks := ticks w; faults := faults w;
     trace := trace w |}.
Definition set_configMaps (f : gmap string ConfigMap -> gmap string ConfigMap) (w : World) : World :=
  {| clusterDeployments := clusterDeployments w; jobs := jobs w;
     configMaps := f (configMaps w); secrets := secrets w; dnsZones := dnsZones w;
     deprovisionRequests := deprovisionRequests w;
     clusterImageSets := clusterImageSets w; namespaces := namespaces w;
     pods := pods w; clock := clock w; ticks := ticks w; faults := faults w;
     trace := trace w |}.
Definition set_secrets (f : gmap string Secret -> gmap string Secret) (w : World) : World :=
  {| clusterDeployments := clusterDeployments w; jobs := jobs w;
     configMaps := configMaps w; secrets := f (secrets w); dnsZones := dnsZones w;
     deprovisionRequests := deprovisionRequests w;
     clusterImageSets := clusterImageSets w; namespaces := namespaces w;
     pods := pods w; clock := clock w; ticks := ticks w; faults := faults w;
     trace := trace w |}.
Definition set_dnsZones (f : gmap string DNSZone -> gmap string DNSZone) (w : World) : World :=
  {| clusterDeployments := clusterDeployments w; jobs := jobs w;
     configMaps := configMaps w; secrets := secrets w; dnsZones := f (dnsZones w);
     deprovisionRequests := deprovisionRequests w;
     clusterImageSets := clusterImageSets w; namespaces := namespaces w;
     pods := pods w; clock := clock w; ticks := ticks w; faults := faults w;
     trace := trace w |}.
Definition set_deprovisionRequests (f : gmap string ClusterDeprovisionRequest -> gmap string ClusterDeprovisionRequest) (w : World) : World :=
  {| clusterDeployments := clusterDeployments w; jobs := jobs w;
     configMaps := configMaps w; secrets := secrets w; dnsZones := dnsZones w;
     deprovisionRequests := f (deprovisionRequests w);
     clusterImageSets := clusterImageSets w; namespaces := namespaces w;
     pods := pods w; clock := clock w; ticks := ticks w; faults := faults w;
     trace := trace w |}.
Definition set_ticks (n : nat) (w : World) : World :=
  {| clusterDeployments := clusterDeployments w; jobs := jobs w;
     configMaps := configMaps w; secrets := secrets w; dnsZones := dnsZones w;
     deprovisionRequests := deprovisionRequests w;
     clusterImageSets := clusterImageSets w; namespaces := namespaces w;
     pods := pods w; clock := clock w; ticks := n; faults := faults w;
     trace := trace w |}.
Definition set_trace (t : list Call) (w : World) : World :=
  {| clusterDeployments := clusterDeployments w; jobs := jobs w;
     configMaps := configMaps w; secrets := secrets w; dnsZones := dnsZones w;
     deprovisionRequests := deprovisionRequests w;
     clusterImageSets := clusterImageSets w; namespaces := namespaces w;
     pods := pods w; clock := clock w; ticks := ticks w; faults := faults w;
     trace := t |}.

(** ** The state monad of a pass *)

Definition M (A : Type) : Type := World -> A * World.

Global Instance M_ret : MRet M := fun A a w => (a, w).
Global Instance M_bind : MBind M :=
  fun A B f m w => let '(a, w') := m w in f a w'.

Definition time_Now : M Z :=
  fun w => (clock w (ticks w), set_ticks (S (ticks w)) w).

Definition record (c : Call) : M unit :=
  fun w => (tt, set_trace (trace w ++ [c]) w).

Definition failing (v : Verb) (k : Kind) (n : string) : M bool :=
  fun w => (faults w v k n, w).

(** [r.Get]: a call that fails by the fault oracle returns a store error,
    a missing object the not-found error. *)
Definition client_Get {A} (k : Kind) (store : World -> gmap string A)
    (n : string) : M (res A) :=
  bad ← failing VGet k n;
  if bad : bool then mret (Err (ErrStore VGet k n))
  else fun w => (match store w !! n with
                 | Some a => Ok a
                 | None => Err ErrNotFound
                 end, w).

(** [r.Create]: refused when an object of that name exists. *)
Definition client_Create {A} (k : Kind) (store : World -> gmap string A)
    (set : (gmap string A -> gmap string A) -> World -> World)
    (c : Call) (n : string) (a : A) : M (option error) :=
  _ ← record c;
  bad ← failing VCreate k n;
  if bad : bool then mret (Some (ErrStore VCreate k n))
  else fun w => match store w !! n with
                | Some _ => (Some ErrAlreadyExists, w)
                | None => (None, set (insert n a) w)
                end.

(** [r.Update]: refused when no object of that name exists. *)
Definition client_Update {A} (k : Kind) (store : World -> gmap string A)
    (set : (gmap string A -> gmap string A) -> World -> World)
    (c : Call) (n : string) (a : A) : M (option error) :=
  _ ← record c;
  bad ← failing VUpdate k n;
  if bad : bool then mret (Some (ErrStore VUpdate k n))
  else fun w => match store w !! n with
                | Some _ => (None, set (insert n a) w)
                | None => (Some ErrNotFound, w)
                end.

(** Updating a ClusterDeployment that is marked for deletion and keeps no
    finalizer lets the store remove it. *)
Definition client_Update_cd (cd : ClusterDeployment) : M (option error) :=
  _ ← record (UpdateCD cd);
  bad ← failing VUpdate KClusterDeployment (Name cd);
  if bad : bool then mret (Some (ErrStore VUpdate KClusterDeployment (Name cd)))
  else fun w =>
    match clusterDeployments w !! Name cd with
    | Some _ =>
        if bool_decide (DeletionTimestamp cd <> None /\ Finalizers cd = ∅)
        then (None, set_clusterDeployments (delete (Name cd)) w)
        else (None, set_clusterDeployments (insert (Name cd) cd) w)
    | None => (Some ErrNotFound, w)
    end.

Definition set_Status (s : ClusterDeploymentStatus) (cd : ClusterDeployment) : ClusterDeployment :=
  {| Name := Name cd; Namespace := Namespace cd; Generation := Generation cd;
     CreationTimestamp := CreationTimestamp cd;
     DeletionTimestamp := DeletionTimestamp cd; Finalizers := Finalizers cd;
     Annotations := Annotations cd; Spec := Spec cd; Status := s |}.
Definition set_Finalizers (f : gset string) (cd : ClusterDeployment) : ClusterDeployment :=
  {| Name := Name cd; Namespace := Namespace cd; Generation := Generation cd;
     CreationTimestamp := CreationTimestamp cd;
     DeletionTimestamp := DeletionTimestamp cd; Finalizers := f;
     Annotations := Annotations cd; Spec := Spec cd; Status := Status cd |}.
Definition set_DeletionTimestamp (t : option Z) (cd : ClusterDeployment) : ClusterDeployment :=
  {| Name := Name cd; Namespace := Namespace cd; Generation := Generation cd;
     CreationTimestamp := CreationTimestamp cd;
     DeletionTimestamp := t; Finalizers := Finalizers cd;
     Annotations := Annotations cd; Spec := Spec cd; Status := Status cd |}.
Definition set_Spec (s : ClusterDeploymentSpec) (cd : ClusterDeployment) : ClusterDeployment :=
  {| Name := Name cd; Namespace := Namespace cd; Generation := Generation cd;
     CreationTimestamp := CreationTimestamp cd;
     DeletionTimestamp := DeletionTimestamp cd; Finalizers := Finalizers cd;
     Annotations := Annotations cd; Spec := s; Status := Status cd |}.

(** [r.Status().Update]: only the status of the stored object is replaced. *)
Definition client_StatusUpdate_cd (cd : ClusterDeployment) : M (option error) :=
  _ ← record (StatusUpdateCD cd);
  bad ← failing VStatusUpdate KClusterDeployment (Name cd);
  if bad : bool then mret (Some (ErrStore VStatusUpdate KClusterDeployment (Name cd)))
  else fun w =>
    match clusterDeployments w !! Name cd with
    | Some stored =>
        (None, set_clusterDeployments (insert (Name cd) (set_Status (Status cd) stored)) w)
    | None => (Some ErrNotFound, w)
    end.

(** [r.Delete] of a ClusterDeployment: an object that holds finalizers is
    marked for deletion (it keeps the time stamp it may already have), one
    without is removed. *)
Definition markDeleted (t : Z) (cd : ClusterDeployment) : ClusterDeployment :=
  match DeletionTimestamp cd with
  | Some _ => cd
  | None => set_DeletionTimestamp (Some t) cd
  end.

Definition client_Delete_cd (cd : ClusterDeployment) : M (option error) :=
  _ ← record (DeleteCD (Name cd));
  bad ← failing VDelete KClusterDeployment (Name cd);
  if bad : bool then mret (Some (ErrStore VDelete KClusterDeployment (Name cd)))
  else fun w =>
    match clusterDeployments w !! Name cd with
    | Some stored =>
        if bool_decide (Finalizers stored = ∅)
        then (None, set_clusterDeployments (delete (Name cd)) w)
        else (None, set_clusterDeployments
                      (insert (Name cd) (markDeleted (clock w (ticks w)) stored)) w)
    | None => (Some ErrNotFound, w)
    end.

Definition set_JobDeletionTimestamp (t : option Z) (j : Job) : Job :=
  {| JobName := JobName j; JobNamespace := JobNamespace j;
     JobAnnotations := JobAnnotations j; JobDeletionTimestamp := t;
     JobOwner := JobOwner j; JobSpec := JobSpec j;
     JobConditions := JobConditions j |}.
Definition set_JobAnnotations (a : option (gmap string string)) (j : Job) : Job :=
  {| JobName := JobName j; JobNamespace := JobNamespace j;
     JobAnnotations := a; JobDeletionTimestamp := JobDeletionTimestamp j;
     JobOwner := JobOwner j; JobSpec := JobSpec j;
     JobConditions := JobConditions j |}.
Definition set_JobOwner (o : option string) (j : Job) : Job :=
  {| JobName := JobName j; JobNamespace := JobNamespace j;
     JobAnnotations := JobAnnotations j;
     JobDeletionTimestamp := JobDeletionTimestamp j;
     JobOwner := o; JobSpec := JobSpec j;
     JobConditions := JobConditions j |}.
Definition set_CMOwner (o : option string) (c : ConfigMap) : ConfigMap :=
  {| CMName := CMName c; CMNamespace := CMNamespace c;
     CMAnnotations := CMAnnotations c; CMOwner := o; CMData := CMData c |}.
Definition set_ZoneDeletionTimestamp (t : option Z) (z : DNSZone) : DNSZone :=
  {| ZoneName := ZoneName z; ZoneNamespace := ZoneNamespace z;
     ZoneDeletionTimestamp := t; ZoneOwner := ZoneOwner z; Zone := Zone z;
     LinkToParentDomain := LinkToParentDomain z;
     ZoneAccountSecret := ZoneAccountSecret z; ZoneRegion := ZoneRegion z;
     AdditionalTags := AdditionalTags z; ZoneConditions := ZoneConditions z |}.
Definition set_ZoneOwner (o : option string) (z : DNSZone) : DNSZone :=
  {| ZoneName := ZoneName z; ZoneNamespace := ZoneNamespace z;
     ZoneDeletionTimestamp := ZoneDeletionTimestamp z; ZoneOwner := o;
     Zone := Zone z; LinkToParentDomain := LinkToParentDomain z;
     ZoneAccountSecret := ZoneAccountSecret z; ZoneRegion := ZoneRegion z;
     AdditionalTags := AdditionalTags z; ZoneConditions := ZoneConditions z |}.
Definition set_ReqOwner (o : option string) (r : ClusterDeprovisionRequest) : ClusterDeprovisionRequest :=
  {| ReqName := ReqName r; ReqNamespace := ReqNamespace r; ReqOwner := o;
     ReqInfraID := ReqInfraID r; ReqClusterID := ReqClusterID r;
     ReqRegion := ReqRegion r; ReqCredentials := ReqCredentials r;
     Completed := Completed r |}.

(** [r.Delete] with foreground propagation: the store marks the object for
    deletion (it keeps the time stamp it may already have); garbage
    collection removes it later (see [gc]). *)
Definition markJobDeleted (t : Z) (j : Job) : Job :=
  match JobDeletionTimestamp j with
  | Some _ => j
  | None => set_JobDeletionTimestamp (Some t) j
  end.

Definition markZoneDeleted (t : Z) (z : DNSZone) : DNSZone :=
  match ZoneDeletionTimestamp z with
  | Some _ => z
  | None => set_ZoneDeletionTimestamp (Some t) z
  end.

Definition client_Delete_job (name : string) : M (option error) :=
  _ ← record (DeleteJob name DeletePropagationForeground);
  bad ← failing VDelete KJob name;
  if bad : bool then mret (Some (ErrStore VDelete KJob name))
  else fun w =>
    match jobs w !! name with
    | Some stored =>
        (None, set_jobs (insert name (markJobDeleted (clock w (ticks w)) stored)) w)
    | None => (Some ErrNotFound, w)
    end.

Definition client_Delete_dnsZone (name : string) : M (option error) :=
  _ ← record (DeleteDNSZone name DeletePropagationForeground);
  bad ← failing VDelete KDNSZone name;
  if bad : bool then mret (Some (ErrStore VDelete KDNSZone name))
  else fun w =>
    match dnsZones w !! name with
    | Some stored =>
        (None, set_dnsZones (insert name (markZoneDeleted (clock w (ticks w)) stored)) w)
    | None => (Some ErrNotFound, w)
    end.

(** Garbage collection completes: the jobs and zones that are marked for
    deletion disappear from the store. *)
Definition gc (w : World) : World :=
  set_dnsZones (filter (fun kv => ZoneDeletionTimestamp kv.2 = None))
    (set_jobs (filter (fun kv => JobDeletionTimestamp kv.2 = None)) w).

(** ** Helpers on objects *)

Definition HasFinalizer (cd : ClusterDeployment) (f : string) : bool :=
  bool_decide (f ∈ Finalizers cd).
Definition AddFinalizer (cd : ClusterDeployment) (f : string) : ClusterDeployment :=
  set_Finalizers ({[f]} ∪ Finalizers cd) cd.
Definition DeleteFinalizer (cd : ClusterDeployment) (f : string) : ClusterDeployment :=
  set_Finalizers (Finalizers cd ∖ {[f]}) cd.

Definition set_Conditions (c : list ClusterDeploymentCondition) (s : ClusterDeploymentStatus) : ClusterDeploymentStatus :=
  {| Installed := Installed s; StatusInstallerImage := StatusInstallerImage s;
     InfraID := InfraID s; ClusterID := ClusterID s;
     InstallRestarts := InstallRestarts s;
     AdminKubeconfigSecret := AdminKubeconfigSecret s; APIURL := APIURL s;
     WebConsoleURL := WebConsoleURL s; Conditions := c |}.
Definition set_Installed (b : bool) (s : ClusterDeploymentStatus) : ClusterDeploymentStatus :=
  {| Installed := b; StatusInstallerImage := StatusInstallerImage s;
     InfraID := InfraID s; ClusterID := ClusterID s;
     InstallRestarts := InstallRestarts s;
     AdminKubeconfigSecret := AdminKubeconfigSecret s; APIURL := APIURL s;
     WebConsoleURL := WebConsoleURL s; Conditions := Conditions s |}.
Definition set_StatusInstallerImage (i : option string) (s : ClusterDeploymentStatus) : ClusterDeploymentStatus :=
  {| Installed := Installed s; StatusInstallerImage := i;
     InfraID := InfraID s; ClusterID := ClusterID s;
     InstallRestarts := InstallRestarts s;
     AdminKubeconfigSecret := AdminKubeconfigSecret s; APIURL := APIURL s;
     WebConsoleURL := WebConsoleURL s; Conditions := Conditions s |}.
Definition set_InstallRestarts (n : Z) (s : ClusterDeploymentStatus) : ClusterDeploymentStatus :=
  {| Installed := Installed s; StatusInstallerImage := StatusInstallerImage s;
     InfraID := InfraID s; ClusterID := ClusterID s;
     InstallRestarts := n;
     AdminKubeconfigSecret := AdminKubeconfigSecret s; APIURL := APIURL s;
     WebConsoleURL := WebConsoleURL s; Conditions := Conditions s |}.
Definition set_AdminKubeconfigSecret (n : string) (s : ClusterDeploymentStatus) : ClusterDeploymentStatus :=
  {| Installed := Installed s; StatusInstallerImage := StatusInstallerImage s;
     InfraID := InfraID s; ClusterID := ClusterID s;
     InstallRestarts := InstallRestarts s;
     AdminKubeconfigSecret := n; APIURL := APIURL s;
     WebConsoleURL := WebConsoleURL s; Conditions := Conditions s |}.
Definition set_APIURL (u : string) (s : ClusterDeploymentStatus) : ClusterDeploymentStatus :=
  {| Installed := Installed s; StatusInstallerImage := StatusInstallerImage s;
     InfraID := InfraID s; ClusterID := ClusterID s;
     InstallRestarts := InstallRestarts s;
     AdminKubeconfigSecret := AdminKubeconfigSecret s; APIURL := u;
     WebConsoleURL := WebConsoleURL s; Conditions := Conditions s |}.
Definition set_WebConsoleURL (u : string) (s : ClusterDeploymentStatus) : ClusterDeploymentStatus :=
  {| Installed := Installed s; StatusInstallerImage := StatusInstallerImage s;
     InfraID := InfraID s; ClusterID := ClusterID s;
     InstallRestarts := InstallRestarts s;
     AdminKubeconfigSecret := AdminKubeconfigSecret s; APIURL := APIURL s;
     WebConsoleURL := u; Conditions := Conditions s |}.
Definition set_Ingress (l : list ClusterIngress) (s : ClusterDeploymentSpec) : ClusterDeploymentSpec :=
  {| ClusterName := ClusterName s; BaseDomain := BaseDomain s; Ingress := l;
     SpecImages := SpecImages s; ImageSet := ImageSet s; SSHKey := SSHKey s;
     PullSecret := PullSecret s; PlatformAWS := PlatformAWS s;
     PlatformSecretsAWS := PlatformSecretsAWS s; ManageDNS := ManageDNS s;
     PreserveOnDelete := PreserveOnDelete s |}.

Definition isErr (e : option error) : bool :=
  match e with Some _ => true | None => false end.

(** The test [m != nil] on a Go map or pointer. *)
Definition notNil {A} (o : option A) : bool :=
  match o with Some _ => true | None => false end.

(** Modelled from the spec: [controllerutils.FindDNSZoneCondition] is not
    among the sources; it yields the zone's condition of the given type, the
    "[Available] condition" of the managed zone in the spec. *)
Definition FindDNSZoneCondition (conds : list DNSZoneCondition) (t : string) : option DNSZoneCondition :=
  List.find (fun c => bool_decide (ZoneCondType c = t)) conds.

(** Modelled from the spec: [controllerutils.LoadSecretData] is not among the
    sources; it reads the secret of the given name from the store ("all
    calls may fail with not-found or transient errors") and returns the value
    under the key, an error when the key is missing. *)
Definition LoadSecretData (secretName dataKey : string) : M (res string) :=
  s ← client_Get KSecret secrets secretName;
  match s with
  | Err e => mret (Err e)
  | Ok s =>
      match from_option (lookup dataKey) None (SecretData s) with
      | Some v => mret (Ok v)
      | None => mret (Err (ErrMsg ("secret " +:+ secretName +:+ " did not contain key " +:+ dataKey)))
      end
  end.

(** Modelled from the spec: [controllerutils.SetupClusterInstallServiceAccount]
    is not among the sources; it "ensures the prerequisite service account
    exists".  The accounts and roles themselves are not modelled: the call is
    recorded and fails by the fault oracle. *)
Definition SetupClusterInstallServiceAccount (namespace : string) : M (option error) :=
  _ ← record (SetupServiceAccount namespace);
  bad ← failing VCreate KServiceAccount namespace;
  if bad : bool then mret (Some (ErrStore VCreate KServiceAccount namespace))
  else mret None.

(** ** [migrateWildcardIngress]

    [wildcardDomain] is the regular expression [(?i)^\*\.]: it matches at the
    start of the text only, so [ReplaceAllString] with the empty string
    removes one leading "*." and nothing else. *)
Definition wildcardDomain_ReplaceAllString (d : string) : string :=
  match d with
  | String "*"%char (String "."%char rest) => rest
  | _ => d
  end.

Fixpoint migrateIngressEntries (l : list ClusterIngress) (migrated : bool)
    : list ClusterIngress * bool :=
  match l with
  | [] => ([], migrated)
  | ingress :: rest =>
      let newIngress := wildcardDomain_ReplaceAllString (Domain ingress) in
      if bool_decide (newIngress <> Domain ingress)
      then let '(rest', m) := migrateIngressEntries rest true in
           ({| IngressName := IngressName ingress; Domain := newIngress |} :: rest', m)
      else let '(rest', m) := migrateIngressEntries rest migrated in
           (ingress :: rest', m)
  end.

(** The Go function mutates [cd] in place and returns the flag; here the
    mutated object is returned with it. *)
Definition migrateWildcardIngress (cd : ClusterDeployment) : ClusterDeployment * bool :=
  let '(l, migrated) := migrateIngressEntries (Ingress (Spec cd)) false in
  (set_Spec (set_Ingress l (Spec cd)) cd, migrated).

(** ** [generateDeprovisionRequest] *)
Definition generateDeprovisionRequest (cd : ClusterDeployment) : ClusterDeprovisionRequest :=
  {| ReqName := Name cd;
     ReqNamespace := Namespace cd;
     ReqOwner := None;
     ReqInfraID := InfraID (Status cd);
     ReqClusterID := ClusterID (Status cd);
     ReqRegion := match PlatformAWS (Spec cd) with
                  | Some aws => Region aws
                  | None => ""
                  end;
     ReqCredentials := match PlatformSecretsAWS (Spec cd) with
                       | Some s => Some (Credentials s)
                       | None => None
                       end;
     Completed := false |}.

Definition ClusterDeploymentNameLabel := "hive.openshift.io/cluster-deployment-name".
Definition InstallJobLabel := "hive.openshift.io/install".

(** The exits of a pass.  The Go functions return [(reconcile.Result, error)];
    [exit] is a ghost field naming the return statement that was taken. *)
Inductive Exit :=
  | ExNotFound | ExGetError | ExMigrated | ExImageSet | ExDeletedNoFinalizer
  | ExDeleted | ExParseError | ExExpired | ExFinalizerAdded | ExNoSSHKey
  | ExSSHKeyLoad | ExResolveInstallerImage | ExDNSError | ExDNSNotReady
  | ExJobGetError | ExJobTerminating | ExPullSecret | ExGenerate | ExHash
  | ExOwnerRef | ExConfigMap | ExServiceAccount | ExCreateJob
  | ExGenerationChange | ExHashChange | ExStatus | ExEnd.

Record Outcome := { result : Result; err : option error; exit : Exit }.

Definition out (r : Result) (e : option error) (x : Exit) : M Outcome :=
  mret {| result := r; err := e; exit := x |}.

(** ** The controller *)

Section Controller.

Context (ext : Collaborators).

Definition dnsZoneName (cdName : string) : string :=
  GetResourceName ext cdName "zone".

(** [getHiveImage] and [getReleaseImage] *)
Definition getHiveImage (cd : ClusterDeployment) (imageSet : option ClusterImageSet) : string :=
  if bool_decide (HiveImage (SpecImages (Spec cd)) <> "")
  then HiveImage (SpecImages (Spec cd))
  else match imageSet with
       | Some {| ImageSetHiveImage := Some i |} => i
       | _ => images_GetHiveImage ext
       end.

Definition getReleaseImage (cd : ClusterDeployment) (imageSet : option ClusterImageSet) : string :=
  if bool_decide (ReleaseImage (SpecImages (Spec cd)) <> "")
  then ReleaseImage (SpecImages (Spec cd))
  else match imageSet with
       | Some {| ImageSetReleaseImage := Some i |} => i
       | _ => ""
       end.

(** [setImageSetNotFoundCondition]; the condition is written into [cd], which
    is returned with the flag and the error. *)
Definition setImageSetNotFoundCondition (cd : ClusterDeployment) (isNotFound : bool)
    : M (ClusterDeployment * bool * option error) :=
  let original := cd in
  let name := default "" (ImageSet (Spec cd)) in
  let status := if isNotFound then ConditionTrue else ConditionFalse in
  let reason := if isNotFound then clusterImageSetNotFoundReason
                else clusterImageSetFoundReason in
  let message := if isNotFound
                 then "ClusterImageSet " +:+ name +:+ " is not available"
                 else "ClusterImageSet " +:+ name +:+ " is available" in
  let cd := set_Status
              (set_Conditions
                 (SetClusterDeploymentCondition ext (Conditions (Status cd))
                    ClusterImageSetNotFoundCondition status reason message
                    UpdateConditionNever)
                 (Status cd)) cd in
  if bool_decide (Conditions (Status original) <> Conditions (Status cd))
  then e ← client_StatusUpdate_cd cd; mret (cd, true, e)
  else mret (cd, false, None).

(** [getClusterImageSet] *)
Definition getClusterImageSet (cd : ClusterDeployment)
    : M (ClusterDeployment * option ClusterImageSet * bool * option error) :=
  match ImageSet (Spec cd) with
  | None => mret (cd, None, false, None)
  | Some name =>
      if bool_decide (name = "") then mret (cd, None, false, None)
      else
        r ← client_Get KClusterImageSet clusterImageSets name;
        match r with
        | Err e =>
            if IsNotFound e
            then '(cd, modified, e) ← setImageSetNotFoundCondition cd false;
                 mret (cd, None, modified, e)
            else mret (cd, None, false, Some e)
        | Ok imageSet => mret (cd, Some imageSet, false, None)
        end
  end.

(** [statusUpdate] *)
Definition statusUpdate (cd : ClusterDeployment) : M (option error) :=
  client_StatusUpdate_cd cd.

(** [resolveInstallerImage].  The first case of the switch tests the
    deletion time stamp of [job], the job that was just generated, as the
    source does. *)
Definition resolveInstallerImage (cd : ClusterDeployment)
    (imageSet : option ClusterImageSet) (releaseImage hiveImage : string)
    : M (Result * option error) :=
  if bool_decide (InstallerImage (SpecImages (Spec cd)) <> "")
  then
    let cd := set_Status (set_StatusInstallerImage
                            (Some (InstallerImage (SpecImages (Spec cd)))) (Status cd)) cd in
    e ← statusUpdate cd; mret (Result_done, e)
  else
  match imageSet with
  | Some {| ImageSetInstallerImage := Some i |} =>
      let cd := set_Status (set_StatusInstallerImage (Some i) (Status cd)) cd in
      e ← statusUpdate cd; mret (Result_done, e)
  | _ =>
      let cliImage := images_GetCLIImage ext in
      let job := GenerateImageSetJob ext cd releaseImage serviceAccountName cliImage hiveImage in
      match SetControllerReference ext cd (JobOwner job) with
      | Err e => mret (Result_done, Some e)
      | Ok o =>
          let job := set_JobOwner o job in
          let jobName := JobName job in
          r ← client_Get KJob jobs jobName;
          match r with
          | Ok existingJob =>
              if negb (PtrTime_IsZero (JobDeletionTimestamp job))
              then mret ({| RequeueAfter := defaultRequeueTime |}, None)
              else if IsFinished ext existingJob
              then e ← client_Delete_job (JobName existingJob);
                   mret (Result_done, e)
              else mret (Result_done, None)
          | Err e =>
              if IsNotFound e
              then
                e ← SetupClusterInstallServiceAccount (Namespace cd);
                match e with
                | Some e => mret (Result_done, Some e)
                | None => e ← client_Create KJob jobs set_jobs (CreateJob job) (JobName job) job;
                          mret (Result_done, e)
                end
              else mret (Result_done, Some e)
          end
      end
  end.

(** [updateOutdatedConfigurations] *)
Definition updateOutdatedConfigurations (cdGeneration : Z) (existingJob : Job)
    (cfgMap : ConfigMap) : M (bool * option error) :=
  '(didGenerationChange, e) ←
    match from_option (lookup clusterDeploymentGenerationAnnotation) None (JobAnnotations existingJob) with
    | Some jobGeneration =>
        if bool_decide (ParseInt ext jobGeneration < cdGeneration)
        then e ← client_Delete_job (JobName existingJob); mret (true, e)
        else mret (false, None)
    | None => mret (false, None)
    end;
  if isErr e then mret (didGenerationChange, e)
  else
    match from_option (lookup clusterDeploymentGenerationAnnotation) None (CMAnnotations cfgMap) with
    | Some cfgMapGeneration =>
        if bool_decide (ParseInt ext cfgMapGeneration < cdGeneration)
        then e ← client_Update KConfigMap configMaps set_configMaps
                   (UpdateConfigMap cfgMap) (CMName cfgMap) cfgMap;
             mret (true, e)
        else mret (didGenerationChange, e)
    | None => mret (didGenerationChange, e)
    end.

(** [fixupAdminKubeconfigSecret]; the secret is mutated in place by the Go
    code and returned here.  Writing into a nil [Data] map panics. *)
Definition fixupAdminKubeconfigSecret (secret : Secret) : M (Secret * option error) :=
  let originalSecret := secret in
  match SecretData secret with
  | None => mret (secret, Some (ErrPanic "assignment to entry in nil map"))
  | Some data =>
      let '(data, rawData) :=
        match data !! rawAdminKubeconfigKey with
        | Some rawData => (data, rawData)
        | None =>
            let k := default "" (data !! adminKubeconfigKey) in
            (<[rawAdminKubeconfigKey := k]> data, k)
        end in
      match FixupKubeconfig ext rawData with
      | Err e => mret (secret, Some e)
      | Ok fixed =>
          let secret := {| SecretName := SecretName secret;
                           SecretData := Some (<[adminKubeconfigKey := fixed]> data) |} in
          if bool_decide (SecretData originalSecret = SecretData secret)
          then mret (secret, None)
          else e ← client_Update KSecret secrets set_secrets (UpdateSecret secret)
                     (SecretName secret) secret;
               mret (secret, e)
      end
  end.

(** [setAdminKubeconfigStatus] *)
Definition setAdminKubeconfigStatus (cd : ClusterDeployment)
    (adminKubeconfigSecret : Secret) : ClusterDeployment * option error :=
  if bool_decide (WebConsoleURL (Status cd) = "") || bool_decide (APIURL (Status cd) = "")
  then
    let kubeconfig :=
      default "" (from_option (lookup adminKubeconfigKey) None (SecretData adminKubeconfigSecret)) in
    match remoteClusterAPIClientBuilder ext kubeconfig with
    | Err e => (cd, Some e)
    | Ok remoteClusterAPIClient =>
        match clientcmd_Load ext kubeconfig with
        | Err e => (cd, Some e)
        | Ok clusters =>
            match clusters !! ClusterName (Spec cd) with
            | None => (cd, Some (ErrMsg "error parsing admin kubeconfig secret data"))
            | Some server =>
                let cd := set_Status (set_APIURL server (Status cd)) cd in
                match remoteClusterAPIClient with
                | Err e => (cd, Some e)
                | Ok host =>
                    (set_Status (set_WebConsoleURL ("https://" +:+ host) (Status cd)) cd, None)
                end
            end
        end
    end
  else (cd, None).

(** [updateClusterDeploymentStatus] *)
Definition updateClusterDeploymentStatus (cd origCD : ClusterDeployment)
    (job : option Job) : M (option error) :=
  let cd :=
    match job with
    | Some job =>
        if bool_decide (JobName job <> "") && bool_decide (JobNamespace job <> "")
        then set_Status (set_Installed (IsSuccessful ext job) (Status cd)) cd
        else cd
    | None => cd
    end in
  let cd :=
    if Installed (Status cd) && bool_decide (AdminKubeconfigSecret (Status cd) = "")
    then set_Status (set_AdminKubeconfigSecret
                       (GetResourceName ext (Name cd) "admin-kubeconfig") (Status cd)) cd
    else cd in
  '(cd, e) ←
    (if bool_decide (AdminKubeconfigSecret (Status cd) <> "")
     then
       r ← client_Get KSecret secrets (AdminKubeconfigSecret (Status cd));
       match r with
       | Err e => if IsNotFound e then mret (cd, None) else mret (cd, Some e)
       | Ok adminKubeconfigSecret =>
           '(adminKubeconfigSecret, e) ← fixupAdminKubeconfigSecret adminKubeconfigSecret;
           match e with
           | Some e => mret (cd, Some e)
           | None => mret (setAdminKubeconfigStatus cd adminKubeconfigSecret)
           end
       end
     else mret (cd, None));
  match e with
  | Some e => mret (Some e)
  | None =>
      if bool_decide (Status cd <> Status origCD)
      then client_StatusUpdate_cd cd
      else mret None
  end.

(** [ensureManagedDNSZoneDeleted] *)
Definition ensureManagedDNSZoneDeleted (cd : ClusterDeployment)
    : M (option Result * option error) :=
  if negb (ManageDNS (Spec cd)) then mret (None, None)
  else
    r ← client_Get KDNSZone dnsZones (dnsZoneName (Name cd));
    match r with
    | Err e =>
        if negb (IsNotFound e) then mret (Some Result_done, Some e)
        else mret (None, None)
    | Ok dnsZone =>
        if negb (PtrTime_IsZero (ZoneDeletionTimestamp dnsZone))
        then mret (Some {| RequeueAfter := defaultRequeueTime |}, None)
        else e ← client_Delete_dnsZone (ZoneName dnsZone);
             mret (Some Result_done, e)
    end.

(** [removeClusterDeploymentFinalizer] and [addClusterDeploymentFinalizer] *)
Definition removeClusterDeploymentFinalizer (cd : ClusterDeployment) : M (option error) :=
  client_Update_cd (DeleteFinalizer cd FinalizerDeprovision).

Definition addClusterDeploymentFinalizer (cd : ClusterDeployment) : M (option error) :=
  client_Update_cd (AddFinalizer cd FinalizerDeprovision).

(** [syncDeletedClusterDeployment] *)
Definition syncDeletedClusterDeployment (cd : ClusterDeployment) (hiveImage : string)
    : M (Result * option error) :=
  '(result, e) ← ensureManagedDNSZoneDeleted cd;
  match result with
  | Some result => mret (result, e)
  | None =>
  if isErr e then mret (Result_done, e)
  else
  r ← client_Get KJob jobs (GetInstallJobName ext cd);
  match r with
  | Err e =>
      if IsNotFound e
      then
        (* the install job no longer exists *)
        if PreserveOnDelete (Spec cd) && Installed (Status cd)
        then
          if HasFinalizer cd FinalizerDeprovision
          then e ← removeClusterDeploymentFinalizer cd; mret (Result_done, e)
          else mret (Result_done, None)
        else
        if bool_decide (InfraID (Status cd) = "")
        then e ← removeClusterDeploymentFinalizer cd; mret (Result_done, e)
        else
        let request := generateDeprovisionRequest cd in
        match SetControllerReference ext cd (ReqOwner request) with
        | Err e => mret (Result_done, Some e)
        | Ok o =>
            let request := set_ReqOwner o request in
            r ← client_Get KDeprovisionRequest deprovisionRequests (Name cd);
            match r with
            | Err e =>
                if IsNotFound e
                then
                  e ← client_Create KDeprovisionRequest deprovisionRequests
                        set_deprovisionRequests (CreateDeprovisionRequest request)
                        (ReqName request) request;
                  match e with
                  | Some _ =>
                      ns ← client_Get KNamespace namespaces (Namespace cd);
                      match ns with
                      | Err e => mret (Result_done, Some e)
                      | Ok nsDeletionTimestamp =>
                          match nsDeletionTimestamp with
                          | Some _ =>
                              e ← removeClusterDeploymentFinalizer cd;
                              mret (Result_done, e)
                          | None => mret (Result_done, None)
                          end
                      end
                  | None => mret (Result_done, None)
                  end
                else mret (Result_done, Some e)
            | Ok existingRequest =>
                if Completed existingRequest
                then e ← removeClusterDeploymentFinalizer cd; mret (Result_done, e)
                else mret (Result_done, None)
            end
        end
      else mret (Result_done, Some e)
  | Ok installJob =>
      if negb (PtrTime_IsZero (JobDeletionTimestamp installJob))
      then mret ({| RequeueAfter := defaultRequeueTime |}, None)
      else
        e ← client_Delete_job (JobName installJob);
        match e with
        | Some e => mret (Result_done, Some e)
        | None => mret (Result_done, None)
        end
  end
  end.

(** [createManagedDNSZone].  Go ranges over the [UserTags] map in an
    unspecified order; the tags are taken in the order of [map_to_list],
    which stands for whichever order the range takes: what is stated of the
    tags below is stated up to permutation. *)
Definition createManagedDNSZone (cd : ClusterDeployment) (aws : AWSPlatform)
    (awsSecrets : AWSPlatformSecrets) : M (option error) :=
  let dnsZone :=
    {| ZoneName := dnsZoneName (Name cd);
       ZoneNamespace := Namespace cd;
       ZoneDeletionTimestamp := None;
       ZoneOwner := None;
       Zone := BaseDomain (Spec cd);
       LinkToParentDomain := true;
       ZoneAccountSecret := Credentials awsSecrets;
       ZoneRegion := Region aws;
       AdditionalTags := map_to_list (UserTags aws);
       ZoneConditions := [] |} in
  match SetControllerReference ext cd (ZoneOwner dnsZone) with
  | Err e => mret (Some e)
  | Ok o =>
      let dnsZone := set_ZoneOwner o dnsZone in
      client_Create KDNSZone dnsZones set_dnsZones (CreateDNSZone dnsZone)
        (ZoneName dnsZone) dnsZone
  end.

(** [ensureManagedDNSZone] *)
Definition ensureManagedDNSZone (cd : ClusterDeployment) : M (bool * option error) :=
  match PlatformAWS (Spec cd), PlatformSecretsAWS (Spec cd) with
  | Some aws, Some awsSecrets =>
      r ← client_Get KDNSZone dnsZones (dnsZoneName (Name cd));
      match r with
      | Ok dnsZone =>
          match FindDNSZoneCondition (ZoneConditions dnsZone) ZoneAvailableDNSZoneCondition with
          | Some availableCondition =>
              mret (bool_decide (ZoneCondStatus availableCondition = ConditionTrue), None)
          | None => mret (false, None)
          end
      | Err e =>
          if IsNotFound e
          then e ← createManagedDNSZone cd aws awsSecrets; mret (false, e)
          else mret (false, Some e)
      end
  | _, _ => mret (false, Some (ErrMsg "only AWS managed DNS is supported"))
  end.

(** [calcInstallPodRestarts] *)
Definition calcInstallPodRestarts (cd : ClusterDeployment) : M (res Z) :=
  bad ← failing VList KPod (Namespace cd);
  if bad : bool then mret (Err (ErrStore VList KPod (Namespace cd)))
  else fun w =>
    let items :=
      List.filter (fun p =>
        bool_decide (PodLabels p !! ClusterDeploymentNameLabel = Some (Name cd)) &&
        bool_decide (PodLabels p !! InstallJobLabel = Some "true")) (pods w) in
    (Ok (foldl (fun n p => foldl Z.add n (RestartCounts p)) 0 items), w).

(** [deleteJobOnHashChange].  Reading a missing key of a Go map yields the
    empty string. *)
Definition deleteJobOnHashChange (existingJob generatedJob : Job) : M (bool * option error) :=
  let existingHash := from_option (lookup jobHashAnnotation) None (JobAnnotations existingJob) in
  let generatedHash := from_option (lookup jobHashAnnotation) None (JobAnnotations generatedJob) in
  let newJobNeeded := false in
  let newJobNeeded := if bool_decide (existingHash = None) then true else newJobNeeded in
  let newJobNeeded :=
    if bool_decide (default "" existingHash <> default "" generatedHash)
    then true else newJobNeeded in
  if newJobNeeded
  then
    e ← client_Delete_job (JobName existingJob);
    match e with
    | Some e => mret (newJobNeeded, Some e)
    | None => mret (newJobNeeded, None)
    end
  else mret (newJobNeeded, None).

(** [calculateJobSpecHash]; writing to an MD5 hasher never fails. *)
Definition calculateJobSpecHash (job : Job) : res string :=
  match JobSpec_Marshal ext (JobSpec job) with
  | Err e => Err e
  | Ok jobSpecBytes => Ok (md5_hex ext jobSpecBytes)
  end.

(** ** [reconcile]

    The Go function is one long sequence of steps, each of which may return.
    It is cut here into [reconcile_status] (from the call of
    [updateClusterDeploymentStatus] to the end), [reconcile_installJob] (the
    handling of the install job of a cluster that is not installed yet, which
    either returns or hands on the ClusterDeployment), [reconcile_job] (from
    the lookup of the install job on), [reconcile_provision] (from the
    finalizer check to the DNS gate) and [reconcile] itself. *)

(** From [updateClusterDeploymentStatus] to the final return. *)
Definition reconcile_status (cd origCD : ClusterDeployment)
    (existingJob : option Job) (requeueAfter : Z) : M Outcome :=
  e ← updateClusterDeploymentStatus cd origCD existingJob;
  match e with
  | Some e => out Result_done (Some e) ExStatus
  | None =>
      if bool_decide (requeueAfter <> 0)
      then out {| RequeueAfter := requeueAfter |} None ExEnd
      else out Result_done None ExEnd
  end.

(** The [else] branch of [if cd.Status.Installed]: [inl cd] hands on the
    ClusterDeployment to status convergence, [inr o] returns. *)
Definition reconcile_installJob (cd : ClusterDeployment)
    (existingJob : option Job) (hiveImage releaseImage sshKey : string)
    : M (ClusterDeployment + Outcome) :=
  pullSecret ← LoadSecretData (PullSecret (Spec cd)) DockerConfigJsonKey;
  match pullSecret with
  | Err e => o ← out Result_done (Some e) ExPullSecret; mret (inr o)
  | Ok pullSecret =>
  match GenerateInstallerJob ext cd hiveImage releaseImage serviceAccountName sshKey pullSecret with
  | Err e => o ← out Result_done (Some e) ExGenerate; mret (inr o)
  | Ok (job, cfgMap) =>
  match calculateJobSpecHash job with
  | Err e => o ← out Result_done (Some e) ExHash; mret (inr o)
  | Ok jobHash =>
  let job := set_JobAnnotations
               (Some (<[jobHashAnnotation := jobHash]> (default ∅ (JobAnnotations job)))) job in
  match SetControllerReference ext cd (JobOwner job) with
  | Err e => o ← out Result_done (Some e) ExOwnerRef; mret (inr o)
  | Ok o =>
  let job := set_JobOwner o job in
  match SetControllerReference ext cd (CMOwner cfgMap) with
  | Err e => o ← out Result_done (Some e) ExOwnerRef; mret (inr o)
  | Ok o =>
  let cfgMap := set_CMOwner o cfgMap in
  r ← client_Get KConfigMap configMaps (CMName cfgMap);
  e ← match r with
      | Err e =>
          if IsNotFound e
          then client_Create KConfigMap configMaps set_configMaps
                 (CreateConfigMap cfgMap) (CMName cfgMap) cfgMap
          else mret (Some e)
      | Ok _ => mret None
      end;
  match e with
  | Some e => o ← out Result_done (Some e) ExConfigMap; mret (inr o)
  | None =>
  match existingJob with
  | None =>
      e ← SetupClusterInstallServiceAccount (Namespace cd);
      match e with
      | Some e => o ← out Result_done (Some e) ExServiceAccount; mret (inr o)
      | None =>
          e ← client_Create KJob jobs set_jobs (CreateJob job) (JobName job) job;
          match e with
          | Some e => o ← out Result_done (Some e) ExCreateJob; mret (inr o)
          | None => mret (inl cd)
          end
      end
  | Some existingJob =>
      restarts ← calcInstallPodRestarts cd;
      let cd := match restarts with
                | Err _ => cd
                | Ok containerRestarts =>
                    set_Status (set_InstallRestarts containerRestarts (Status cd)) cd
                end in
      '(didGenerationChange, e) ←
        (if notNil (JobAnnotations existingJob) && notNil (CMAnnotations cfgMap)
         then updateOutdatedConfigurations (Generation cd) existingJob cfgMap
         else mret (false, None));
      if didGenerationChange || isErr e
      then o ← out Result_done e ExGenerationChange; mret (inr o)
      else
        '(jobDeleted, e) ← deleteJobOnHashChange existingJob job;
        if jobDeleted || isErr e
        then o ← out Result_done e ExHashChange; mret (inr o)
        else mret (inl cd)
  end
  end
  end
  end
  end
  end
  end.

(** From the lookup of the install job on. *)
Definition reconcile_job (cd origCD : ClusterDeployment)
    (hiveImage releaseImage sshKey : string) (requeueAfter : Z) : M Outcome :=
  r ← client_Get KJob jobs (GetInstallJobName ext cd);
  match r with
  | Err e =>
      if IsNotFound e
      then
        if Installed (Status cd) then reconcile_status cd origCD None requeueAfter
        else
          c ← reconcile_installJob cd None hiveImage releaseImage sshKey;
          match c with
          | inr o => mret o
          | inl cd => reconcile_status cd origCD None requeueAfter
          end
      else out Result_done (Some e) ExJobGetError
  | Ok existingJob =>
      if negb (PtrTime_IsZero (JobDeletionTimestamp existingJob))
      then out {| RequeueAfter := defaultRequeueTime |} None ExJobTerminating
      else
        if Installed (Status cd)
        then reconcile_status cd origCD (Some existingJob) requeueAfter
        else
          c ← reconcile_installJob cd (Some existingJob) hiveImage releaseImage sshKey;
          match c with
          | inr o => mret o
          | inl cd => reconcile_status cd origCD (Some existingJob) requeueAfter
          end
  end.

(** From the finalizer check to the DNS gate. *)
Definition reconcile_provision (cd origCD : ClusterDeployment)
    (imageSet : option ClusterImageSet) (hiveImage releaseImage : string)
    (requeueAfter : Z) : M Outcome :=
  if negb (HasFinalizer cd FinalizerDeprovision)
  then e ← addClusterDeploymentFinalizer cd; out Result_done e ExFinalizerAdded
  else
  match SSHKey (Spec cd) with
  | None => out Result_done (Some (ErrMsg "cluster has no ssh key set, unable to launch install")) ExNoSSHKey
  | Some sshKeyName =>
  sshKey ← LoadSecretData sshKeyName adminSSHKeySecretKey;
  match sshKey with
  | Err e => out Result_done (Some e) ExSSHKeyLoad
  | Ok sshKey =>
  match StatusInstallerImage (Status cd) with
  | None =>
      '(r, e) ← resolveInstallerImage cd imageSet releaseImage hiveImage;
      out r e ExResolveInstallerImage
  | Some _ =>
  '(managedDNSZoneAvailable, e) ←
    (if ManageDNS (Spec cd) then ensureManagedDNSZone cd else mret (true, None));
  match e with
  | Some e => out Result_done (Some e) ExDNSError
  | None =>
  if negb managedDNSZoneAvailable then out Result_done None ExDNSNotReady
  else reconcile_job cd origCD hiveImage releaseImage sshKey requeueAfter
  end
  end
  end
  end.

Definition reconcile (cd : ClusterDeployment) : M Outcome :=
  let origCD := cd in
  let '(cd, migrated) := migrateWildcardIngress cd in
  if migrated
  then e ← client_Update_cd cd; out Result_done e ExMigrated
  else
  '(cd, imageSet, modified, e) ← getClusterImageSet cd;
  if modified || isErr e then out Result_done e ExImageSet
  else
  let hiveImage := getHiveImage cd imageSet in
  let releaseImage := getReleaseImage cd imageSet in
  match DeletionTimestamp cd with
  | Some _ =>
      if negb (HasFinalizer cd FinalizerDeprovision)
      then out Result_done None ExDeletedNoFinalizer
      else '(r, e) ← syncDeletedClusterDeployment cd hiveImage; out r e ExDeleted
  | None =>
      match Annotations cd !! deleteAfterAnnotation with
      | Some deleteAfter =>
          match ParseDuration ext deleteAfter with
          | Err e =>
              out Result_done
                (Some (ErrMsg ("error parsing " +:+ deleteAfterAnnotation +:+ " as a duration"))) ExParseError
          | Ok dur =>
              if negb (Time_IsZero (CreationTimestamp cd))
              then
                let expiry := Time_Add (CreationTimestamp cd) dur in
                now ← time_Now;
                if Time_After now expiry
                then e ← client_Delete_cd cd; out Result_done e ExExpired
                else
                  now ← time_Now;
                  let requeueAfter := Duration_add (Time_Sub expiry now) (60 * Second) in
                  reconcile_provision cd origCD imageSet hiveImage releaseImage requeueAfter
              else reconcile_provision cd origCD imageSet hiveImage releaseImage 0
          end
      | None => reconcile_provision cd origCD imageSet hiveImage releaseImage 0
      end
  end.

(** [Reconcile]: the entry point, by the name of the ClusterDeployment. *)
Definition Reconcile (name : string) : M Outcome :=
  r ← client_Get KClusterDeployment clusterDeployments name;
  match r with
  | Err e =>
      if IsNotFound e then out Result_done None ExNotFound
      else out Result_done (Some e) ExGetError
  | Ok cd => reconcile cd
  end.

End Controller.

(** ** Fixtures

    The objects of the controller's test suite
    ([clusterdeployment_controller_test.go]) and stand-ins for the
    collaborators, used for the concrete scenarios below. *)

Definition testName := "foo-lqmsh".
Definition testClusterName := "bar".
Definition testClusterID := "testFooClusterUUID".
Definition testInfraID := "testFooInfraID".
Definition installJobName := "foo-lqmsh-install".
Definition imageSetJobName := "foo-lqmsh-imageset".
Definition testNamespace := "default".
Definition metadataName := "foo-lqmsh-metadata".
Definition sshKeySecret := "ssh-key".
Definition pullSecretSecret := "pull-secret".
Definition adminKubeconfigSecret := "foo-lqmsh-admin-kubeconfig".
Definition adminKubeconfig := "clusters: bar at https://bar-api.clusters.example.com:6443".

Definition JobComplete := "Complete".
Definition JobFailed := "Failed".

Definition getJobConditionStatus (job : Job) (t : string) : ConditionStatus :=
  match List.find (fun c => bool_decide (JobCondType c = t)) (JobConditions job) with
  | Some c => JobCondStatus c
  | None => ConditionFalse
  end.

Definition testSetClusterDeploymentCondition
    (conditions : list ClusterDeploymentCondition) (conditionType : string)
    (status : ConditionStatus) (reason message : string)
    (check : UpdateConditionCheck) : list ClusterDeploymentCondition :=
  if existsb (fun c => bool_decide (CondType c = conditionType)) conditions
  then
    (fun c =>
       if bool_decide (CondType c = conditionType) && bool_decide (CondStatus c <> status)
       then {| CondType := conditionType; CondStatus := status;
               CondReason := reason; CondMessage := message |}
       else c) <$> conditions
  else if bool_decide (status = ConditionTrue)
  then conditions ++ [ {| CondType := conditionType; CondStatus := status;
                          CondReason := reason; CondMessage := message |} ]
  else conditions.

Definition testGenerateInstallerJob (cd : ClusterDeployment)
    (hiveImage releaseImage serviceAccount sshKey pullSecret : string)
    : res (Job * ConfigMap) :=
  Ok ({| JobName := Name cd +:+ "-install";
         JobNamespace := Namespace cd;
         JobAnnotations := Some ∅;
         JobDeletionTimestamp := None;
         JobOwner := None;
         JobSpec := hiveImage +:+ "," +:+ releaseImage +:+ "," +:+ serviceAccount;
         JobConditions := [] |},
      {| CMName := Name cd +:+ "-install-config";
         CMNamespace := Namespace cd;
         CMAnnotations := Some ∅;
         CMOwner := None;
         CMData := {[ "install-config.yaml" := sshKey +:+ "," +:+ pullSecret ]} |}).

Definition testGenerateImageSetJob (cd : ClusterDeployment)
    (releaseImage serviceAccount cliImage hiveImage : string) : Job :=
  {| JobName := Name cd +:+ "-imageset";
     JobNamespace := Namespace cd;
     JobAnnotations := None;
     JobDeletionTimestamp := None;
     JobOwner := None;
     JobSpec := releaseImage +:+ "," +:+ cliImage +:+ "," +:+ hiveImage;
     JobConditions := [] |}.

Definition testCollaborators : Collaborators :=
  {| ParseDuration := fun s =>
       if bool_decide (s = "5m") then Ok (300 * Second)
       else if bool_decide (s = "1h") then Ok (3600 * Second)
       else Err (ErrMsg "time: invalid duration");
     ParseInt := fun s =>
       if bool_decide (s = "1") then 1
       else if bool_decide (s = "-1") then -1 else 0;
     images_GetHiveImage := "registry.svc.ci.openshift.org/openshift/hive-v4.0:hive";
     images_GetCLIImage := "registry.svc.ci.openshift.org/openshift/origin-v4.0:cli";
     GetInstallJobName := fun cd => Name cd +:+ "-install";
     GetResourceName := fun n s => n +:+ "-" +:+ s;
     GenerateInstallerJob := testGenerateInstallerJob;
     GenerateImageSetJob := testGenerateImageSetJob;
     JobSpec_Marshal := fun s => Ok s;
     md5_hex := fun s => "md5:" +:+ s;
     IsSuccessful := fun j => bool_decide (getJobConditionStatus j JobComplete = ConditionTrue);
     IsFinished := fun j =>
       bool_decide (getJobConditionStatus j JobComplete = ConditionTrue)
       || bool_decide (getJobConditionStatus j JobFailed = ConditionTrue);
     SetClusterDeploymentCondition := testSetClusterDeploymentCondition;
     SetControllerReference := fun cd o =>
       match o with
       | Some u => if bool_decide (u = Name cd) then Ok (Some u)
                   else Err (ErrMsg "object is already owned by another controller")
       | None => Ok (Some (Name cd))
       end;
     FixupKubeconfig := fun s => Ok ("fixed " +:+ s);
     remoteClusterAPIClientBuilder := fun _ => Ok (Ok "bar-api.clusters.example.com:6443/console");
     clientcmd_Load := fun _ => Ok {[ "bar" := "https://bar-api.clusters.example.com:6443" ]} |}.

Definition testClusterDeployment : ClusterDeployment :=
  {| Name := testName;
     Namespace := testNamespace;
     Generation := 0;
     CreationTimestamp := 0;
     DeletionTimestamp := None;
     Finalizers := {[ FinalizerDeprovision ]};
     Annotations := ∅;
     Spec := {| ClusterName := testClusterName;
                BaseDomain := "";
                Ingress := [];
                SpecImages := {| InstallerImage := ""; ReleaseImage := ""; HiveImage := "" |};
                ImageSet := None;
                SSHKey := Some sshKeySecret;
                PullSecret := pullSecretSecret;
                PlatformAWS := Some {| Region := "us-east-1"; UserTags := ∅ |};
                PlatformSecretsAWS := Some {| Credentials := "aws-credentials" |};
                ManageDNS := false;
                PreserveOnDelete := false |};
     Status := {| Installed := false;
                  StatusInstallerImage := Some "installer-image:latest";
                  InfraID := testInfraID;
                  ClusterID := testClusterID;
                  InstallRestarts := 0;
                  AdminKubeconfigSecret := "";
                  APIURL := "";
                  WebConsoleURL := "";
                  Conditions := [] |} |}.

Definition testClusterDeploymentWithoutFinalizer : ClusterDeployment :=
  set_Finalizers ∅ testClusterDeployment.

(** An instant well after the zero time, for "now" in the fixtures. *)
Definition testNow : Z := 1000000 * Second.

Definition testDeletedClusterDeployment : ClusterDeployment :=
  set_DeletionTimestamp (Some testNow) testClusterDeployment.

Definition set_Annotations (a : gmap string string) (cd : ClusterDeployment) : ClusterDeployment :=
  {| Name := Name cd; Namespace := Namespace cd; Generation := Generation cd;
     CreationTimestamp := CreationTimestamp cd;
     DeletionTimestamp := DeletionTimestamp cd; Finalizers := Finalizers cd;
     Annotations := a; Spec := Spec cd; Status := Status cd |}.
Definition set_CreationTimestamp (t : Z) (cd : ClusterDeployment) : ClusterDeployment :=
  {| Name := Name cd; Namespace := Namespace cd; Generation := Generation cd;
     CreationTimestamp := t;
     DeletionTimestamp := DeletionTimestamp cd; Finalizers := Finalizers cd;
     Annotations := Annotations cd; Spec := Spec cd; Status := Status cd |}.

(** Created 60 minutes ago, to be deleted after 5 minutes. *)
Definition testExpiredClusterDeployment : ClusterDeployment :=
  set_Annotations {[ deleteAfterAnnotation := "5m" ]}
    (set_CreationTimestamp (testNow - 3600 * Second) testClusterDeployment).

Definition testInstallJob : Job :=
  {| JobName := installJobName;
     JobNamespace := testNamespace;
     JobAnnotations :=
       Some {[ jobHashAnnotation :=
                 "md5:registry.svc.ci.openshift.org/openshift/hive-v4.0:hive,,cluster-installer" ]};
     JobDeletionTimestamp := None;
     JobOwner := Some testName;
     JobSpec := "registry.svc.ci.openshift.org/openshift/hive-v4.0:hive,,cluster-installer";
     JobConditions := [] |}.

Definition set_JobConditions (c : list JobCondition) (j : Job) : Job :=
  {| JobName := JobName j; JobNamespace := JobNamespace j;
     JobAnnotations := JobAnnotations j;
     JobDeletionTimestamp := JobDeletionTimestamp j;
     JobOwner := JobOwner j; JobSpec := JobSpec j; JobConditions := c |}.

Definition testCompletedInstallJob : Job :=
  set_JobConditions [ {| JobCondType := JobComplete; JobCondStatus := ConditionTrue |} ]
    testInstallJob.

Definition testSecret (name key value : string) : Secret :=
  {| SecretName := name; SecretData := Some {[ key := value ]} |}.

Definition testDNSZone : DNSZone :=
  {| ZoneName := testName +:+ "-zone"; ZoneNamespace := testNamespace;
     ZoneDeletionTimestamp := None; ZoneOwner := None; Zone := "";
     LinkToParentDomain := false; ZoneAccountSecret := ""; ZoneRegion := "";
     AdditionalTags := []; ZoneConditions := [] |}.

(** The fake client of the tests: the given objects, a clock that starts at
    [testNow] and advances by a millisecond per reading, no failing call. *)
Definition testWorld (cds : list ClusterDeployment) (js : list Job)
    (ss : list Secret) (zs : list DNSZone) : World :=
  {| clusterDeployments := list_to_map ((fun cd => (Name cd, cd)) <$> cds);
     jobs := list_to_map ((fun j => (JobName j, j)) <$> js);
     configMaps := ∅;
     secrets := list_to_map ((fun s => (SecretName s, s)) <$> ss);
     dnsZones := list_to_map ((fun z => (ZoneName z, z)) <$> zs);
     deprovisionRequests := ∅;
     clusterImageSets := ∅;
     namespaces := {[ testNamespace := None ]};
     pods := [];
     clock := fun n => testNow + 1000000 * Z.of_nat n;
     ticks := 0;
     faults := fun _ _ _ => false;
     trace := [] |}.

Definition testSecrets : list Secret :=
  [ testSecret pullSecretSecret DockerConfigJsonKey "{}";
    testSecret sshKeySecret adminSSHKeySecretKey "fakesshkey" ].

(** * Properties *)

(** ** Running the primitives *)

Lemma run_bind {A B} (m : M A) (f : A -> M B) (w : World) :
  (m ≫= f) w = f (m w).1 (m w).2.
Proof. unfold mbind, M_bind. by destruct (m w). Qed.

Lemma run_ret {A} (a : A) (w : World) : (mret a : M A) w = (a, w).
Proof. done. Qed.

Lemma client_Get_run {A} k (store : World -> gmap string A) n w :
  client_Get k store n w =
  (if faults w VGet k n then Err (ErrStore VGet k n)
   else match store w !! n with Some a => Ok a | None => Err ErrNotFound end, w).
Proof. unfold client_Get. rewrite run_bind. cbn. by destruct (faults w VGet k n). Qed.

Lemma client_Update_cd_run cd w :
  client_Update_cd cd w =
  let w1 := set_trace (trace w ++ [UpdateCD cd]) w in
  if faults w VUpdate KClusterDeployment (Name cd)
  then (Some (ErrStore VUpdate KClusterDeployment (Name cd)), w1)
  else match clusterDeployments w !! Name cd with
       | Some _ =>
           if bool_decide (DeletionTimestamp cd <> None /\ Finalizers cd = ∅)
           then (None, set_clusterDeployments (delete (Name cd)) w1)
           else (None, set_clusterDeployments (insert (Name cd) cd) w1)
       | None => (Some ErrNotFound, w1)
       end.
Proof.
  unfold client_Update_cd. rewrite !run_bind. cbn.
  by destruct (faults w VUpdate KClusterDeployment (Name cd)).
Qed.

(** Every outcome of [client_Update_cd] appends exactly the update to the
    trace. *)
Lemma client_Update_cd_trace cd w :
  trace (client_Update_cd cd w).2 = trace w ++ [UpdateCD cd].
Proof.
  rewrite client_Update_cd_run. cbn.
  destruct (faults w VUpdate KClusterDeployment (Name cd)); [done|].
  destruct (clusterDeployments w !! Name cd); [|done].
  by case_bool_decide.
Qed.

(** ** Wildcard ingress migration *)

Lemma wildcardDomain_strip (rest : string) :
  wildcardDomain_ReplaceAllString ("*." +:+ rest) = rest.
Proof. done. Qed.

Lemma prefix_wildcard (d : string) :
  String.prefix "*." d = true <-> exists rest, d = "*." +:+ rest.
Proof.
  split.
  - destruct d as [|a d]; [done|].
    change (String.prefix "*." (String a d))
      with (if Ascii.ascii_dec "*" a then String.prefix "." d else false).
    destruct (Ascii.ascii_dec "*" a) as [<-|Ha]; [|done].
    destruct d as [|b d]; [done|].
    change (String.prefix "." (String b d))
      with (if Ascii.ascii_dec "." b then String.prefix "" d else false).
    destruct (Ascii.ascii_dec "." b) as [<-|Hb]; [|done].
    intros _. by exists d.
  - intros [rest ->]. by destruct rest.
Qed.

Lemma wildcardDomain_keep (d : string) :
  String.prefix "*." d = false -> wildcardDomain_ReplaceAllString d = d.
Proof.
  intros Hp.
  destruct d as [|a d]; [done|].
  destruct (Ascii.ascii_dec a "*") as [->|Ha].
  - destruct d as [|b d]; [done|].
    destruct (Ascii.ascii_dec b ".") as [->|Hb].
    + assert (String.prefix "*." ("*." +:+ d) = true) as Ht
        by (apply prefix_wildcard; by exists d).
      change ("*." +:+ d) with (String "*" (String "." d)) in Ht. congruence.
    + destruct b as [[] [] [] [] [] [] [] []]; done.
  - destruct d as [|b d];
      destruct a as [[] [] [] [] [] [] [] []]; done.
Qed.

Lemma wildcardDomain_changes (d : string) :
  wildcardDomain_ReplaceAllString d <> d <-> String.prefix "*." d = true.
Proof.
  split.
  - intros Hne. destruct (String.prefix "*." d) eqn:E; [done|].
    by apply wildcardDomain_keep in E.
  - intros [rest ->]%prefix_wildcard Heq.
    rewrite wildcardDomain_strip in Heq.
    change ("*." +:+ rest) with (String "*" (String "." rest)) in Heq.
    apply (f_equal String.length) in Heq. simpl in Heq. lia.
Qed.

(** ** Symbolic execution of a pass

    [wp m w Q]: running [m] from the world [w] yields a value and a world
    that satisfy [Q]. *)

Definition wp {A} (m : M A) (w : World) (Q : A -> World -> Prop) : Prop :=
  Q (m w).1 (m w).2.

Lemma wp_bind {A B} (m : M A) (f : A -> M B) w Q :
  wp m w (fun a w' => wp (f a) w' Q) -> wp (m ≫= f) w Q.
Proof. unfold wp. by rewrite run_bind. Qed.

Lemma wp_ret {A} (a : A) w (Q : A -> World -> Prop) : Q a w -> wp (mret a) w Q.
Proof. done. Qed.

Lemma wp_out r e x w (Q : Outcome -> World -> Prop) :
  Q {| result := r; err := e; exit := x |} w -> wp (out r e x) w Q.
Proof. done. Qed.

Lemma wp_time_Now w (Q : Z -> World -> Prop) :
  Q (clock w (ticks w)) (set_ticks (S (ticks w)) w) -> wp time_Now w Q.
Proof. done. Qed.

Lemma wp_record c w (Q : unit -> World -> Prop) :
  Q tt (set_trace (trace w ++ [c]) w) -> wp (record c) w Q.
Proof. done. Qed.

Lemma wp_failing v k n w (Q : bool -> World -> Prop) :
  Q (faults w v k n) w -> wp (failing v k n) w Q.
Proof. done. Qed.

Lemma wp_run {A} (f : World -> A * World) w (Q : A -> World -> Prop) :
  Q (f w).1 (f w).2 -> wp f w Q.
Proof. done. Qed.

Lemma wp_client_Get {A} k (store : World -> gmap string A) n w
    (Q : res A -> World -> Prop) :
  (faults w VGet k n = true -> Q (Err (ErrStore VGet k n)) w) ->
  (forall a, faults w VGet k n = false -> store w !! n = Some a -> Q (Ok a) w) ->
  (faults w VGet k n = false -> store w !! n = None -> Q (Err ErrNotFound) w) ->
  wp (client_Get k store n) w Q.
Proof.
  intros H1 H2 H3. unfold wp. rewrite client_Get_run. cbn.
  destruct (faults w VGet k n); [by apply H1|].
  destruct (store w !! n) eqn:E; [by apply H2|by apply H3].
Qed.

Lemma wp_client_Create {A} k (store : World -> gmap string A) set c n a w
    (Q : option error -> World -> Prop) :
  (forall f w, faults (set f w) = faults w) ->
  (forall t w, store (set_trace t w) = store w) ->
  let w1 := set_trace (trace w ++ [c]) w in
  (faults w VCreate k n = true -> Q (Some (ErrStore VCreate k n)) w1) ->
  (forall b, faults w VCreate k n = false -> store w !! n = Some b ->
             Q (Some ErrAlreadyExists) w1) ->
  (faults w VCreate k n = false -> store w !! n = None ->
   Q None (set (insert n a) w1)) ->
  wp (client_Create k store set c n a) w Q.
Proof.
  intros Hf Hs w1 H1 H2 H3. unfold wp, client_Create. rewrite !run_bind. cbn.
  fold w1. destruct (faults w VCreate k n) eqn:E; [by apply H1|].
  cbn. subst w1. rewrite Hs.
  destruct (store w !! n) eqn:E'; [by eapply H2|by apply H3].
Qed.

Lemma wp_client_Update {A} k (store : World -> gmap string A) set c n a w
    (Q : option error -> World -> Prop) :
  (forall t w, store (set_trace t w) = store w) ->
  let w1 := set_trace (trace w ++ [c]) w in
  (faults w VUpdate k n = true -> Q (Some (ErrStore VUpdate k n)) w1) ->
  (forall b, faults w VUpdate k n = false -> store w !! n = Some b ->
             Q None (set (insert n a) w1)) ->
  (faults w VUpdate k n = false -> store w !! n = None -> Q (Some ErrNotFound) w1) ->
  wp (client_Update k store set c n a) w Q.
Proof.
  intros Hs w1 H1 H2 H3. unfold wp, client_Update. rewrite !run_bind. cbn.
  fold w1. destruct (faults w VUpdate k n) eqn:E; [by apply H1|].
  cbn. subst w1. rewrite Hs.
  destruct (store w !! n) eqn:E'; [by eapply H2|by apply H3].
Qed.

Lemma wp_client_Update_cd cd w (Q : option error -> World -> Prop) :
  let w1 := set_trace (trace w ++ [UpdateCD cd]) w in
  (faults w VUpdate KClusterDeployment (Name cd) = true ->
   Q (Some (ErrStore VUpdate KClusterDeployment (Name cd))) w1) ->
  (forall b, faults w VUpdate KClusterDeployment (Name cd) = false ->
             clusterDeployments w !! Name cd = Some b ->
             Q None (set_clusterDeployments
                       (if bool_decide (DeletionTimestamp cd <> None /\ Finalizers cd = ∅)
                        then delete (Name cd) else insert (Name cd) cd) w1)) ->
  (faults w VUpdate KClusterDeployment (Name cd) = false ->
   clusterDeployments w !! Name cd = None -> Q (Some ErrNotFound) w1) ->
  wp (client_Update_cd cd) w Q.
Proof.
  intros w1 H1 H2 H3. unfold wp. rewrite client_Update_cd_run. cbn. fold w1.
  destruct (faults w VUpdate KClusterDeployment (Name cd)) eqn:E; [by apply H1|].
  destruct (clusterDeployments w !! Name cd) eqn:E'; [|by apply H3].
  specialize (H2 _ eq_refl eq_refl). by case_bool_decide.
Qed.

Lemma wp_client_StatusUpdate_cd cd w (Q : option error -> World -> Prop) :
  let w1 := set_trace (trace w ++ [StatusUpdateCD cd]) w in
  (faults w VStatusUpdate KClusterDeployment (Name cd) = true ->
   Q (Some (ErrStore VStatusUpdate KClusterDeployment (Name cd))) w1) ->
  (forall stored, faults w VStatusUpdate KClusterDeployment (Name cd) = false ->
             clusterDeployments w !! Name cd = Some stored ->
             Q None (set_clusterDeployments
                       (insert (Name cd) (set_Status (Status cd) stored)) w1)) ->
  (faults w VStatusUpdate KClusterDeployment (Name cd) = false ->
   clusterDeployments w !! Name cd = None -> Q (Some ErrNotFound) w1) ->
  wp (client_StatusUpdate_cd cd) w Q.
Proof.
  intros w1 H1 H2 H3. unfold wp, client_StatusUpdate_cd. rewrite !run_bind. cbn.
  fold w1. destruct (faults w VStatusUpdate KClusterDeployment (Name cd)) eqn:E;
    [by apply H1|].
  cbn. destruct (clusterDeployments w !! Name cd) eqn:E'; [by eapply H2|by apply H3].
Qed.

Lemma wp_client_Delete_cd cd w (Q : option error -> World -> Prop) :
  let w1 := set_trace (trace w ++ [DeleteCD (Name cd)]) w in
  (faults w VDelete KClusterDeployment (Name cd) = true ->
   Q (Some (ErrStore VDelete KClusterDeployment (Name cd))) w1) ->
  (forall stored, faults w VDelete KClusterDeployment (Name cd) = false ->
     clusterDeployments w !! Name cd = Some stored ->
     Q None (set_clusterDeployments
               (if bool_decide (Finalizers stored = ∅) then delete (Name cd)
                else insert (Name cd) (markDeleted (clock w (ticks w)) stored)) w1)) ->
  (faults w VDelete KClusterDeployment (Name cd) = false ->
   clusterDeployments w !! Name cd = None -> Q (Some ErrNotFound) w1) ->
  wp (client_Delete_cd cd) w Q.
Proof.
  intros w1 H1 H2 H3. unfold wp, client_Delete_cd. rewrite !run_bind. cbn.
  fold w1. destruct (faults w VDelete KClusterDeployment (Name cd)) eqn:E;
    [by apply H1|].
  cbn. destruct (clusterDeployments w !! Name cd) as [stored|] eqn:E'; [|by apply H3].
  specialize (H2 _ eq_refl eq_refl). by case_bool_decide.
Qed.

Lemma wp_client_Delete_job name w (Q : option error -> World -> Prop) :
  let w1 := set_trace (trace w ++ [DeleteJob name DeletePropagationForeground]) w in
  (faults w VDelete KJob name = true -> Q (Some (ErrStore VDelete KJob name)) w1) ->
  (forall stored, faults w VDelete KJob name = false -> jobs w !! name = Some stored ->
     Q None (set_jobs (insert name (markJobDeleted (clock w (ticks w)) stored)) w1)) ->
  (faults w VDelete KJob name = false -> jobs w !! name = None ->
   Q (Some ErrNotFound) w1) ->
  wp (client_Delete_job name) w Q.
Proof.
  intros w1 H1 H2 H3. unfold wp, client_Delete_job. rewrite !run_bind. cbn.
  fold w1. destruct (faults w VDelete KJob name) eqn:E; [by apply H1|].
  cbn. destruct (jobs w !! name) as [stored|] eqn:E'; [by eapply H2|by apply H3].
Qed.

Lemma wp_client_Delete_dnsZone name w (Q : option error -> World -> Prop) :
  let w1 := set_trace (trace w ++ [DeleteDNSZone name DeletePropagationForeground]) w in
  (faults w VDelete KDNSZone name = true -> Q (Some (ErrStore VDelete KDNSZone name)) w1) ->
  (forall stored, faults w VDelete KDNSZone name = false -> dnsZones w !! name = Some stored ->
     Q None (set_dnsZones (insert name (markZoneDeleted (clock w (ticks w)) stored)) w1)) ->
  (faults w VDelete KDNSZone name = false -> dnsZones w !! name = None ->
   Q (Some ErrNotFound) w1) ->
  wp (client_Delete_dnsZone name) w Q.
Proof.
  intros w1 H1 H2 H3. unfold wp, client_Delete_dnsZone. rewrite !run_bind. cbn.
  fold w1. destruct (faults w VDelete KDNSZone name) eqn:E; [by apply H1|].
  cbn. destruct (dnsZones w !! name) as [stored|] eqn:E'; [by eapply H2|by apply H3].
Qed.

Lemma wp_SetupClusterInstallServiceAccount ns w (Q : option error -> World -> Prop) :
  let w1 := set_trace (trace w ++ [SetupServiceAccount ns]) w in
  (faults w VCreate KServiceAccount ns = true ->
   Q (Some (ErrStore VCreate KServiceAccount ns)) w1) ->
  (faults w VCreate KServiceAccount ns = false -> Q None w1) ->
  wp (SetupClusterInstallServiceAccount ns) w Q.
Proof.
  intros w1 H1 H2. unfold wp, SetupClusterInstallServiceAccount.
  rewrite !run_bind. cbn. fold w1.
  destruct (faults w VCreate KServiceAccount ns) eqn:E; [by apply H1|by apply H2].
Qed.

Lemma wp_LoadSecretData secretName dataKey w (Q : res string -> World -> Prop) :
  (faults w VGet KSecret secretName = true ->
   Q (Err (ErrStore VGet KSecret secretName)) w) ->
  (faults w VGet KSecret secretName = false -> secrets w !! secretName = None ->
   Q (Err ErrNotFound) w) ->
  (forall s v, faults w VGet KSecret secretName = false ->
     secrets w !! secretName = Some s ->
     from_option (lookup dataKey) None (SecretData s) = Some v -> Q (Ok v) w) ->
  (forall s, faults w VGet KSecret secretName = false ->
     secrets w !! secretName = Some s ->
     from_option (lookup dataKey) None (SecretData s) = None ->
     Q (Err (ErrMsg ("secret " +:+ secretName +:+ " did not contain key " +:+ dataKey))) w) ->
  wp (LoadSecretData secretName dataKey) w Q.
Proof.
  intros H1 H2 H3 H4. unfold LoadSecretData. apply wp_bind, wp_client_Get.
  - intros Hf. by apply wp_ret, H1.
  - intros s Hf Hs.
    destruct (from_option (lookup dataKey) None (SecretData s)) eqn:E;
      apply wp_ret; [by eapply H3|by eapply H4].
  - intros Hf Hs. by apply wp_ret, H2.
Qed.

(** The projections of a world after the setters. *)
Ltac wp_norm :=
  cbv beta zeta;
  cbn [faults trace jobs clusterDeployments configMaps secrets dnsZones
       deprovisionRequests clusterImageSets namespaces pods clock ticks
       set_trace set_jobs set_clusterDeployments set_configMaps set_secrets
       set_dnsZones set_deprovisionRequests set_ticks fst snd
       result err exit IsNotFound isErr notNil negb
       Name Namespace Generation CreationTimestamp DeletionTimestamp
       Finalizers Annotations Spec Status set_Status set_Finalizers
       set_DeletionTimestamp set_Spec AddFinalizer DeleteFinalizer] in *.

(** One step of symbolic execution. *)
Ltac wp_step :=
  lazymatch goal with
  | |- wp (mbind _ _) _ _ => apply wp_bind
  | |- wp (mret _) _ _ => apply wp_ret
  | |- wp (out _ _ _) _ _ => apply wp_out
  | |- wp time_Now _ _ => apply wp_time_Now
  | |- wp (client_Get _ _ _) _ _ =>
      apply wp_client_Get; [intros ?|intros ? ? ?|intros ? ?]
  | |- wp (client_Create _ _ _ _ _ _) _ _ =>
      apply wp_client_Create; [done|done|intros ?|intros ? ? ?|intros ? ?]
  | |- wp (client_Update _ _ _ _ _ _) _ _ =>
      apply wp_client_Update; [done|intros ?|intros ? ? ?|intros ? ?]
  | |- wp (client_Update_cd _) _ _ =>
      apply wp_client_Update_cd; [intros ?|intros ? ? ?|intros ? ?]
  | |- wp (client_StatusUpdate_cd _) _ _ =>
      apply wp_client_StatusUpdate_cd; [intros ?|intros ? ? ?|intros ? ?]
  | |- wp (statusUpdate _) _ _ =>
      apply wp_client_StatusUpdate_cd; [intros ?|intros ? ? ?|intros ? ?]
  | |- wp (client_Delete_cd _) _ _ =>
      apply wp_client_Delete_cd; [intros ?|intros ? ? ?|intros ? ?]
  | |- wp (client_Delete_job _) _ _ =>
      apply wp_client_Delete_job; [intros ?|intros ? ? ?|intros ? ?]
  | |- wp (client_Delete_dnsZone _) _ _ =>
      apply wp_client_Delete_dnsZone; [intros ?|intros ? ? ?|intros ? ?]
  | |- wp (SetupClusterInstallServiceAccount _) _ _ =>
      apply wp_SetupClusterInstallServiceAccount; [intros ?|intros ?]
  | |- wp (LoadSecretData _ _) _ _ =>
      apply wp_LoadSecretData; [intros ?|intros ? ?|intros ? ? ? ? ?|intros ? ? ? ?]
  | |- wp (removeClusterDeploymentFinalizer _) _ _ =>
      unfold removeClusterDeploymentFinalizer
  | |- wp (addClusterDeploymentFinalizer _) _ _ =>
      unfold addClusterDeploymentFinalizer
  | |- wp (getClusterImageSet _ _) _ _ => unfold getClusterImageSet
  | |- wp (setImageSetNotFoundCondition _ _ _) _ _ =>
      unfold setImageSetNotFoundCondition
  | |- wp (resolveInstallerImage _ _ _ _ _) _ _ => unfold resolveInstallerImage
  | |- wp (syncDeletedClusterDeployment _ _ _) _ _ =>
      unfold syncDeletedClusterDeployment
  | |- wp (ensureManagedDNSZoneDeleted _ _) _ _ =>
      unfold ensureManagedDNSZoneDeleted
  | |- wp (ensureManagedDNSZone _ _) _ _ => unfold ensureManagedDNSZone
  | |- wp (createManagedDNSZone _ _ _ _) _ _ => unfold createManagedDNSZone
  | |- wp (updateOutdatedConfigurations _ _ _ _) _ _ =>
      unfold updateOutdatedConfigurations
  | |- wp (deleteJobOnHashChange _ _) _ _ => unfold deleteJobOnHashChange
  | |- wp (fixupAdminKubeconfigSecret _ _) _ _ => unfold fixupAdminKubeconfigSecret
  | |- wp (updateClusterDeploymentStatus _ _ _ _) _ _ =>
      unfold updateClusterDeploymentStatus
  | |- wp (reconcile_status _ _ _ _ _) _ _ => unfold reconcile_status
  | |- wp (reconcile_installJob _ _ _ _ _ _) _ _ => unfold reconcile_installJob
  | |- wp (reconcile_provision _ _ _ _ _ _ _) _ _ => unfold reconcile_provision
  | |- wp (reconcile_job _ _ _ _ _ _ _) _ _ => unfold reconcile_job
  | |- wp (calcInstallPodRestarts _) _ _ => unfold calcInstallPodRestarts
  | |- wp (failing _ _ _) _ _ => apply wp_failing
  | |- wp (if ?b then _ else _) _ _ => destruct b eqn:?
  | |- wp (match ?x with _ => _ end) _ _ => destruct x eqn:?
  | |- wp (fun _ => _) _ _ => apply wp_run
  end; wp_norm; try discriminate.

Ltac wp_steps := repeat wp_step.

(** What a pass added to the trace. *)
Definition emitted (w w' : World) (evs : list Call) : Prop :=
  trace w' = trace w ++ evs.

Lemma emitted_nil w : emitted w w [].
Proof. unfold emitted. by rewrite app_nil_r. Qed.

Ltac emitted_solve :=
  unfold emitted; wp_norm; rewrite <- ?app_assoc;
  first [reflexivity | symmetry; apply app_nil_r].

Definition isDeleteJob (c : Call) : bool :=
  match c with DeleteJob _ _ => true | _ => false end.
Definition isCreateJob (c : Call) : bool :=
  match c with CreateJob _ => true | _ => false end.
Definition isCreateDeprovisionRequest (c : Call) : bool :=
  match c with CreateDeprovisionRequest _ => true | _ => false end.
Definition isCreateDNSZone (c : Call) : bool :=
  match c with CreateDNSZone _ => true | _ => false end.

(** ** The deletion workflow *)

(** The calls that [syncDeletedClusterDeployment] may issue in one pass:
    at most one of them, or the creation of a deprovision request followed by
    the removal of the finalizer when the namespace is going away. *)
Inductive deletionCalls (cd : ClusterDeployment) : list Call -> Prop :=
  | dc_none : deletionCalls cd []
  | dc_zone n : deletionCalls cd [DeleteDNSZone n DeletePropagationForeground]
  | dc_job n : deletionCalls cd [DeleteJob n DeletePropagationForeground]
  | dc_finalizer : deletionCalls cd [UpdateCD (DeleteFinalizer cd FinalizerDeprovision)]
  | dc_request r : deletionCalls cd [CreateDeprovisionRequest r]
  | dc_request_finalizer r :
      deletionCalls cd [CreateDeprovisionRequest r;
                        UpdateCD (DeleteFinalizer cd FinalizerDeprovision)].

Lemma syncDeleted_calls ext cd hiveImage w :
  wp (syncDeletedClusterDeployment ext cd hiveImage) w
     (fun _ w' => exists evs, emitted w w' evs /\ deletionCalls cd evs).
Proof.
  unfold syncDeletedClusterDeployment, ensureManagedDNSZoneDeleted.
  wp_steps.
  all: eexists; split; [emitted_solve|]; by constructor.
Qed.

(** The first step of the deletion workflow has nothing left to do: the
    ClusterDeployment manages no DNS zone, or its zone is gone. *)
Definition zoneGone (ext : Collaborators) (cd : ClusterDeployment) (w : World) : Prop :=
  ManageDNS (Spec cd) = false \/
  (faults w VGet KDNSZone (dnsZoneName ext (Name cd)) = false /\
   dnsZones w !! dnsZoneName ext (Name cd) = None).

(** The lookup of the install job succeeds and yields [job]. *)
Definition installJobIs (ext : Collaborators) (cd : ClusterDeployment) (w : World)
    (job : option Job) : Prop :=
  faults w VGet KJob (GetInstallJobName ext cd) = false /\
  jobs w !! GetInstallJobName ext cd = job.

Ltac use_zoneGone H :=
  destruct H as [H|[? ?]]; [rewrite H in *; try discriminate|try congruence].

Lemma syncDeleted_job ext cd hiveImage w :
  wp (syncDeletedClusterDeployment ext cd hiveImage) w
     (fun re w' => forall job,
        zoneGone ext cd w -> installJobIs ext cd w (Some job) ->
        PtrTime_IsZero (JobDeletionTimestamp job) = true ->
        emitted w w' [DeleteJob (JobName job) DeletePropagationForeground] /\
        re.1 = Result_done /\
        (forall stored, faults w VDelete KJob (JobName job) = false ->
           jobs w !! JobName job = Some stored ->
           re.2 = None /\
           jobs w' = <[JobName job := markJobDeleted (clock w (ticks w)) stored]> (jobs w))).
Proof.
  unfold syncDeletedClusterDeployment, ensureManagedDNSZoneDeleted.
  wp_steps.
  all: intros job Hz [Hf Hj] Hnt; use_zoneGone Hz; try congruence.
  all: simplify_eq; try (rewrite Hnt in *; discriminate).
  all: split; [emitted_solve|split; [done|]]; intros; simplify_eq;
    first [congruence|done].
Qed.

(** C1 (amended).  In the deletion workflow the deletion of the install job
    and the creation of a deprovision request never occur in the same pass.
    Once the managed DNS zone, if any, is gone and the lookup of the install
    job yields a job that is not being deleted, the workflow issues exactly
    one call, the deletion of that job with foreground propagation, and
    returns an empty result: no deprovision request is created in that pass;
    if the deletion is accepted the job is marked for deletion. *)
Theorem C1_job_deletion_precedes_deprovision
    (ext : Collaborators) (cd : ClusterDeployment) (hiveImage : string)
    (w w' : World) (r : Result) (e : option error) :
  syncDeletedClusterDeployment ext cd hiveImage w = (r, e, w') ->
  exists evs,
    emitted w w' evs /\
    ~ (existsb isDeleteJob evs = true /\ existsb isCreateDeprovisionRequest evs = true) /\
    (forall job,
       zoneGone ext cd w -> installJobIs ext cd w (Some job) ->
       PtrTime_IsZero (JobDeletionTimestamp job) = true ->
       evs = [DeleteJob (JobName job) DeletePropagationForeground] /\
       r = Result_done /\
       (forall stored, faults w VDelete KJob (JobName job) = false ->
          jobs w !! JobName job = Some stored ->
          e = None /\
          jobs w' = <[JobName job := markJobDeleted (clock w (ticks w)) stored]> (jobs w))).
Proof.
  intros Hrun.
  pose proof (syncDeleted_calls ext cd hiveImage w) as Hcalls.
  pose proof (syncDeleted_job ext cd hiveImage w) as Hjob.
  unfold wp in Hcalls, Hjob. rewrite Hrun in Hcalls, Hjob. cbn in Hcalls, Hjob.
  destruct Hcalls as (evs & Hev & Hshape). exists evs. split; [done|]. split.
  - intros [Hd Hc]. destruct Hshape; cbn in Hd, Hc; discriminate.
  - intros job Hz Hj Hnt. destruct (Hjob job Hz Hj Hnt) as (Hev' & Hr & Hok).
    split; [|done]. unfold emitted in Hev, Hev'. rewrite Hev in Hev'.
    by apply app_inv_head in Hev'.
Qed.

Definition C1_world : World :=
  testWorld [testDeletedClusterDeployment] [testInstallJob] testSecrets [].

Lemma C1_witness :
  let w' := (syncDeletedClusterDeployment testCollaborators
               testDeletedClusterDeployment "" C1_world).2 in
  trace w' = [DeleteJob installJobName DeletePropagationForeground] /\
  (JobDeletionTimestamp <$> jobs w' !! installJobName) = Some (Some testNow).
Proof.
  destruct (syncDeletedClusterDeployment testCollaborators
              testDeletedClusterDeployment "" C1_world) as [[r e] w'] eqn:Hrun.
  destruct (C1_job_deletion_precedes_deprovision _ _ _ _ _ _ _ Hrun)
    as (evs & Hev & _ & Hjob).
  destruct (Hjob testInstallJob) as (-> & _ & Hok).
  - left. reflexivity.
  - split; reflexivity.
  - reflexivity.
  - destruct (Hok testInstallJob) as [_ Hjobs]; [reflexivity|reflexivity|].
    cbn [snd]. split; [exact Hev|]. rewrite Hjobs. vm_compute. reflexivity.
Defined.

(** C1 as stated fails when the ClusterDeployment manages a DNS zone that
    still exists: the pass deletes the zone and returns; the install job,
    which exists and is not being deleted, is left alone in that pass. *)
Definition C1_counter_cd : ClusterDeployment :=
  set_Spec
    {| ClusterName := testClusterName; BaseDomain := ""; Ingress := [];
       SpecImages := {| InstallerImage := ""; ReleaseImage := ""; HiveImage := "" |};
       ImageSet := None; SSHKey := Some sshKeySecret; PullSecret := pullSecretSecret;
       PlatformAWS := Some {| Region := "us-east-1"; UserTags := ∅ |};
       PlatformSecretsAWS := Some {| Credentials := "aws-credentials" |};
       ManageDNS := true; PreserveOnDelete := false |}
    testDeletedClusterDeployment.

Definition C1_counter_world : World :=
  testWorld [C1_counter_cd] [testInstallJob] testSecrets [testDNSZone].

Lemma C1_counterexample :
  let w' := (Reconcile testCollaborators testName C1_counter_world).2 in
  clusterDeployments C1_counter_world !! testName = Some C1_counter_cd /\
  DeletionTimestamp C1_counter_cd = Some testNow /\
  HasFinalizer C1_counter_cd FinalizerDeprovision = true /\
  jobs C1_counter_world !! GetInstallJobName testCollaborators C1_counter_cd
    = Some testInstallJob /\
  JobDeletionTimestamp testInstallJob = None /\
  trace w' = [DeleteDNSZone "foo-lqmsh-zone" DeletePropagationForeground] /\
  jobs w' !! installJobName = Some testInstallJob.
Proof. vm_compute. repeat split; reflexivity. Qed.

(** Symbolic execution along the path that the hypotheses select: [pre]
    rewrites with them before each step, and the branches that contradict
    them are closed. *)
Tactic Notation "wp_explore" tactic3(pre) :=
  repeat (pre; wp_step; try congruence).

Lemma syncDeleted_preserved ext cd hiveImage w :
  HasFinalizer cd FinalizerDeprovision = true ->
  zoneGone ext cd w -> installJobIs ext cd w None ->
  PreserveOnDelete (Spec cd) = true -> Installed (Status cd) = true ->
  wp (syncDeletedClusterDeployment ext cd hiveImage) w
     (fun re w' =>
        emitted w w' [UpdateCD (DeleteFinalizer cd FinalizerDeprovision)] /\
        re.1 = Result_done /\
        (forall stored, faults w VUpdate KClusterDeployment (Name cd) = false ->
           clusterDeployments w !! Name cd = Some stored ->
           re.2 = None /\
           clusterDeployments w' =
             (if bool_decide (DeletionTimestamp cd <> None /\
                              Finalizers cd ∖ {[FinalizerDeprovision]} = ∅)
              then delete (Name cd) (clusterDeployments w)
              else <[Name cd := DeleteFinalizer cd FinalizerDeprovision]>
                     (clusterDeployments w)))).
Proof.
  intros Hfin Hz [Hf Hj] Hp Hi.
  unfold syncDeletedClusterDeployment, ensureManagedDNSZoneDeleted.
  use_zoneGone Hz.
  all: wp_explore (rewrite ?Hp, ?Hi, ?Hfin in * ).
  all: split; [emitted_solve|split; [done|]]; intros; simplify_eq;
    try congruence.
  all: split; [done|]; by case_bool_decide.
Qed.

Lemma generateDeprovisionRequest_name o cd :
  ReqName (set_ReqOwner o (generateDeprovisionRequest cd)) = Name cd.
Proof. done. Qed.

Lemma generateDeprovisionRequest_owner cd :
  ReqOwner (generateDeprovisionRequest cd) = None.
Proof. done. Qed.

Lemma syncDeleted_override ext cd hiveImage w o :
  zoneGone ext cd w -> installJobIs ext cd w None ->
  PreserveOnDelete (Spec cd) = true -> Installed (Status cd) = false ->
  InfraID (Status cd) <> "" ->
  SetControllerReference ext cd None = Ok o ->
  faults w VGet KDeprovisionRequest (Name cd) = false ->
  deprovisionRequests w !! Name cd = None ->
  wp (syncDeletedClusterDeployment ext cd hiveImage) w
     (fun re w' =>
        let request := set_ReqOwner o (generateDeprovisionRequest cd) in
        exists evs,
          emitted w w' (CreateDeprovisionRequest request :: evs) /\
          re.1 = Result_done /\
          (faults w VCreate KDeprovisionRequest (Name cd) = false ->
           evs = [] /\ re.2 = None /\
           deprovisionRequests w' = <[Name cd := request]> (deprovisionRequests w))).
Proof.
  intros Hz [Hf Hj] Hp Hi Hinfra Ho Hfr Hr.
  unfold syncDeletedClusterDeployment, ensureManagedDNSZoneDeleted.
  use_zoneGone Hz.
  all: wp_explore (rewrite ?Hp, ?Hi, ?generateDeprovisionRequest_name,
                     ?generateDeprovisionRequest_owner in *; cbn [andb] in * ).
  all: try (case_bool_decide; congruence).
  all: simplify_eq; eexists; (split; [emitted_solve|split; [done|]]);
    intros; simplify_eq; first [congruence|done].
Qed.

(** C3.  In the deletion workflow, with the managed DNS zone gone and no
    install job left, a ClusterDeployment with [preserveOnDelete]: when it is
    installed, the only call of the pass is the update that removes the
    deprovision finalizer, so no deprovision request is created; when it is
    not installed and an infra identifier was recorded, the pass creates the
    deprovision request all the same (none existing yet), and the store holds
    it afterwards. *)
Theorem C3_preserve_on_delete
    (ext : Collaborators) (cd : ClusterDeployment) (hiveImage : string)
    (w w' : World) (r : Result) (e : option error) :
  syncDeletedClusterDeployment ext cd hiveImage w = (r, e, w') ->
  HasFinalizer cd FinalizerDeprovision = true ->
  zoneGone ext cd w -> installJobIs ext cd w None ->
  PreserveOnDelete (Spec cd) = true ->
  (Installed (Status cd) = true ->
     emitted w w' [UpdateCD (DeleteFinalizer cd FinalizerDeprovision)] /\
     (FinalizerDeprovision ∉ Finalizers (DeleteFinalizer cd FinalizerDeprovision)) /\
     r = Result_done /\
     (forall stored, faults w VUpdate KClusterDeployment (Name cd) = false ->
        clusterDeployments w !! Name cd = Some stored ->
        e = None /\
        clusterDeployments w' =
          (if bool_decide (DeletionTimestamp cd <> None /\
                           Finalizers cd ∖ {[FinalizerDeprovision]} = ∅)
           then delete (Name cd) (clusterDeployments w)
           else <[Name cd := DeleteFinalizer cd FinalizerDeprovision]>
                  (clusterDeployments w)))) /\
  (Installed (Status cd) = false -> InfraID (Status cd) <> "" ->
   forall o, SetControllerReference ext cd None = Ok o ->
     faults w VGet KDeprovisionRequest (Name cd) = false ->
     deprovisionRequests w !! Name cd = None ->
     let request := set_ReqOwner o (generateDeprovisionRequest cd) in
     exists evs,
       emitted w w' (CreateDeprovisionRequest request :: evs) /\
       r = Result_done /\
       (faults w VCreate KDeprovisionRequest (Name cd) = false ->
        evs = [] /\ e = None /\
        deprovisionRequests w' = <[Name cd := request]> (deprovisionRequests w))).
Proof.
  intros Hrun Hfin Hz Hj Hp. split.
  - intros Hi.
    pose proof (syncDeleted_preserved ext cd hiveImage w Hfin Hz Hj Hp Hi) as H.
    unfold wp in H. rewrite Hrun in H. cbn [fst snd] in H.
    destruct H as (Hev & Hr & Hok).
    split; [done|split; [|split; [done|exact Hok]]].
    cbn. apply not_elem_of_difference. right. by apply elem_of_singleton.
  - intros Hi Hinfra o Ho Hfr Hr.
    pose proof (syncDeleted_override ext cd hiveImage w o Hz Hj Hp Hi Hinfra Ho Hfr Hr) as H.
    unfold wp in H. rewrite Hrun in H. exact H.
Qed.

Definition set_PreserveOnDelete (b : bool) (s : ClusterDeploymentSpec) : ClusterDeploymentSpec :=
  {| ClusterName := ClusterName s; BaseDomain := BaseDomain s; Ingress := Ingress s;
     SpecImages := SpecImages s; ImageSet := ImageSet s; SSHKey := SSHKey s;
     PullSecret := PullSecret s; PlatformAWS := PlatformAWS s;
     PlatformSecretsAWS := PlatformSecretsAWS s; ManageDNS := ManageDNS s;
     PreserveOnDelete := b |}.

(** The two ClusterDeployments of the tests "Test PreserveOnDelete" and
    "Test creation of uninstall job when PreserveOnDelete is true but cluster
    deployment is not installed". *)
Definition C3_cd (installed : bool) : ClusterDeployment :=
  set_Status (set_Installed installed (Status testDeletedClusterDeployment))
    (set_Spec (set_PreserveOnDelete true (Spec testDeletedClusterDeployment))
       testDeletedClusterDeployment).

Definition C3_world (installed : bool) : World :=
  testWorld [C3_cd installed] [] testSecrets [].

Lemma C3_witness :
  (let w' := (syncDeletedClusterDeployment testCollaborators (C3_cd true) ""
                (C3_world true)).2 in
   trace w' = [UpdateCD (DeleteFinalizer (C3_cd true) FinalizerDeprovision)] /\
   clusterDeployments w' !! testName = None /\
   deprovisionRequests w' !! testName = None) /\
  (let w' := (syncDeletedClusterDeployment testCollaborators (C3_cd false) ""
                (C3_world false)).2 in
   trace w' = [CreateDeprovisionRequest
                 (set_ReqOwner (Some testName) (generateDeprovisionRequest (C3_cd false)))] /\
   deprovisionRequests w' !! testName
     = Some (set_ReqOwner (Some testName) (generateDeprovisionRequest (C3_cd false)))).
Proof.
  split.
  - destruct (syncDeletedClusterDeployment testCollaborators (C3_cd true) ""
                (C3_world true)) as [[r e] w'] eqn:Hrun.
    destruct (C3_preserve_on_delete _ _ _ _ _ _ _ Hrun) as [Ha _].
    + reflexivity.
    + left. reflexivity.
    + split; reflexivity.
    + reflexivity.
    + destruct Ha as (Hev & _ & _ & Hok); [reflexivity|].
      destruct (Hok (C3_cd true)) as [_ Hcds]; [reflexivity|reflexivity|].
      cbn [snd]. split; [exact Hev|]. split.
      * rewrite Hcds. vm_compute. reflexivity.
      * injection Hrun as _ _ <-. vm_compute. reflexivity.
  - destruct (syncDeletedClusterDeployment testCollaborators (C3_cd false) ""
                (C3_world false)) as [[r e] w'] eqn:Hrun.
    destruct (C3_preserve_on_delete _ _ _ _ _ _ _ Hrun) as [_ Hb].
    + reflexivity.
    + left. reflexivity.
    + split; reflexivity.
    + reflexivity.
    + destruct (Hb eq_refl) with (o := Some testName) as (evs & Hev & _ & Hok).
      * vm_compute. discriminate.
      * reflexivity.
      * reflexivity.
      * reflexivity.
      * destruct Hok as (-> & _ & Hreqs); [reflexivity|].
        cbn [snd]. split; [exact Hev|]. rewrite Hreqs. vm_compute. reflexivity.
Defined.

(** ** The steps of a pass before provisioning *)

Lemma wp_mono {A} (m : M A) w (Q Q' : A -> World -> Prop) :
  wp m w Q -> (forall a w', Q a w' -> Q' a w') -> wp m w Q'.
Proof. unfold wp. auto. Qed.

Lemma wp_any {A} (m : M A) w (Q : A -> World -> Prop) :
  (forall a w', Q a w') -> wp m w Q.
Proof. unfold wp. auto. Qed.

Lemma wp_eq {A} (m : M A) w a w' (Q : A -> World -> Prop) :
  m w = (a, w') -> wp m w Q <-> Q a w'.
Proof. unfold wp. by intros ->. Qed.

(** No ingress entry carries the wildcard prefix. *)
Definition noWildcard (cd : ClusterDeployment) : Prop :=
  Forall (fun ing => String.prefix "*." (Domain ing) = false) (Ingress (Spec cd)).

Definition stripWildcard (ing : ClusterIngress) : ClusterIngress :=
  {| IngressName := IngressName ing;
     Domain := wildcardDomain_ReplaceAllString (Domain ing) |}.

Lemma migrateIngressEntries_fst l m :
  (migrateIngressEntries l m).1 = stripWildcard <$> l.
Proof.
  revert m. induction l as [|ing l IH]; intros m; [done|].
  cbn [migrateIngressEntries fmap list_fmap]. case_bool_decide as Hd.
  - specialize (IH true). destruct (migrateIngressEntries l true). cbn in *.
    by rewrite IH.
  - specialize (IH m). destruct (migrateIngressEntries l m). cbn in *.
    rewrite IH. f_equal. unfold stripWildcard.
    rewrite Hd. by destruct ing.
Qed.

Lemma migrateIngressEntries_snd l m :
  (migrateIngressEntries l m).2 =
  m || existsb (fun ing => String.prefix "*." (Domain ing)) l.
Proof.
  revert m. induction l as [|ing l IH]; intros m; [by destruct m|].
  cbn [migrateIngressEntries existsb]. case_bool_decide as Hd.
  - specialize (IH true). destruct (migrateIngressEntries l true). cbn in *.
    apply wildcardDomain_changes in Hd. rewrite Hd, IH. by destruct m.
  - specialize (IH m). destruct (migrateIngressEntries l m). cbn in *.
    destruct (String.prefix "*." (Domain ing)) eqn:Hp.
    + apply wildcardDomain_changes in Hp. done.
    + by rewrite IH.
Qed.

Lemma set_Spec_Ingress_id cd :
  set_Spec (set_Ingress (Ingress (Spec cd)) (Spec cd)) cd = cd.
Proof. by destruct cd as [? ? ? ? ? ? ? [] ?]. Qed.

Lemma migrateWildcardIngress_noWildcard cd :
  noWildcard cd -> migrateWildcardIngress cd = (cd, false).
Proof.
  intros Hn. unfold migrateWildcardIngress.
  pose proof (migrateIngressEntries_fst (Ingress (Spec cd)) false) as H1.
  pose proof (migrateIngressEntries_snd (Ingress (Spec cd)) false) as H2.
  destruct (migrateIngressEntries (Ingress (Spec cd)) false) as [l m].
  cbn in H1, H2. subst l m.
  assert (stripWildcard <$> Ingress (Spec cd) = Ingress (Spec cd)) as ->.
  { induction Hn as [|ing l Hp Hn IH]; [done|]. cbn. rewrite IH. f_equal.
    unfold stripWildcard. rewrite (wildcardDomain_keep _ Hp). by destruct ing. }
  rewrite set_Spec_Ingress_id. f_equal.
  induction Hn as [|ing l Hp Hn IH]; [done|]. cbn. by rewrite Hp.
Qed.

(** The image set step lets the pass go on with [imageSet]: the
    ClusterDeployment names no image set, or the lookup yields it, or it is
    missing and the condition helper leaves the conditions as they are. *)
Definition imageSetStep (ext : Collaborators) (cd : ClusterDeployment) (w : World)
    : option (option ClusterImageSet) :=
  match ImageSet (Spec cd) with
  | None => Some None
  | Some name =>
      if bool_decide (name = "") then Some None
      else if faults w VGet KClusterImageSet name then None
      else match clusterImageSets w !! name with
           | Some imageSet => Some (Some imageSet)
           | None =>
               if bool_decide
                    (SetClusterDeploymentCondition ext (Conditions (Status cd))
                       ClusterImageSetNotFoundCondition ConditionFalse
                       clusterImageSetFoundReason
                       ("ClusterImageSet " +:+ name +:+ " is available")
                       UpdateConditionNever = Conditions (Status cd))
               then Some None else None
           end
  end.

Lemma set_Status_Conditions_id cd :
  set_Status (set_Conditions (Conditions (Status cd)) (Status cd)) cd = cd.
Proof. by destruct cd as [? ? ? ? ? ? ? ? []]. Qed.

Lemma getClusterImageSet_step ext cd w imageSet :
  imageSetStep ext cd w = Some imageSet ->
  getClusterImageSet ext cd w = (cd, imageSet, false, None, w).
Proof.
  unfold imageSetStep, getClusterImageSet. intros H.
  destruct (ImageSet (Spec cd)) as [name|] eqn:En; [|by simplify_eq].
  case_bool_decide; [by simplify_eq|].
  rewrite run_bind, client_Get_run. cbn [fst snd].
  destruct (faults w VGet KClusterImageSet name); [done|].
  destruct (clusterImageSets w !! name); [by simplify_eq|].
  case_bool_decide as Hc; [|done]. simplify_eq.
  cbn [IsNotFound]. rewrite run_bind. unfold setImageSetNotFoundCondition.
  rewrite En. cbn [default from_option id]. rewrite Hc.
  rewrite set_Status_Conditions_id.
  rewrite bool_decide_eq_false_2 by (by intros []). done.
Qed.

(** The expiry step lets the pass go on: [Some (requeueAfter, n)] with the
    requeue delay computed and the number of clock readings taken; [None]
    when the pass ends there (unparsable annotation, or expired). *)
Definition expiryStep (ext : Collaborators) (cd : ClusterDeployment) (w : World)
    : option (Z * nat) :=
  match Annotations cd !! deleteAfterAnnotation with
  | None => Some (0, 0%nat)
  | Some deleteAfter =>
      match ParseDuration ext deleteAfter with
      | Err _ => None
      | Ok dur =>
          if Time_IsZero (CreationTimestamp cd) then Some (0, 0%nat)
          else
            let expiry := Time_Add (CreationTimestamp cd) dur in
            if Time_After (clock w (ticks w)) expiry then None
            else Some (Duration_add (Time_Sub expiry (clock w (S (ticks w))))
                         (60 * Second), 2%nat)
      end
  end.

(** The world after [n] readings of the clock. *)
Definition advance (n : nat) (w : World) : World :=
  match n with
  | O => w
  | S _ => set_ticks (n + ticks w) w
  end.

Lemma reconcile_live ext cd w imageSet requeueAfter n :
  noWildcard cd ->
  imageSetStep ext cd w = Some imageSet ->
  DeletionTimestamp cd = None ->
  expiryStep ext cd w = Some (requeueAfter, n) ->
  reconcile ext cd w =
  reconcile_provision ext cd cd imageSet (getHiveImage ext cd imageSet)
    (getReleaseImage cd imageSet) requeueAfter (advance n w).
Proof.
  intros Hn Hi Hd He. unfold reconcile.
  rewrite (migrateWildcardIngress_noWildcard _ Hn).
  rewrite run_bind, (getClusterImageSet_step _ _ _ _ Hi). cbn [fst snd orb isErr].
  rewrite Hd. unfold expiryStep in He.
  destruct (Annotations cd !! deleteAfterAnnotation); [|by simplify_eq].
  destruct (ParseDuration ext s); [|done].
  destruct (Time_IsZero (CreationTimestamp cd)); [by simplify_eq|].
  cbn [negb]. rewrite run_bind. cbn [time_Now fst snd].
  destruct (Time_After _ _); [done|]. simplify_eq.
  rewrite run_bind. done.
Qed.

(** ** Attaching the finalizer *)

(** C5 (amended).  For a ClusterDeployment with no deprovision finalizer and
    no deletion time stamp that passes the steps that come first (no
    wildcard ingress entry to migrate, an image set step that lets the pass
    go on, a delete-after annotation that is absent or parses and has not
    elapsed), the pass issues exactly one call, the update that adds the
    finalizer, and returns an empty result: the updated object differs from
    the ClusterDeployment in its finalizers only, no child resource is
    touched, and when the store accepts the update it holds that object. *)
Theorem C5_finalizer_added
    (ext : Collaborators) (cd : ClusterDeployment) (w w' : World) (o : Outcome)
    (imageSet : option ClusterImageSet) (requeueAfter : Z) (n : nat) :
  reconcile ext cd w = (o, w') ->
  HasFinalizer cd FinalizerDeprovision = false ->
  DeletionTimestamp cd = None ->
  noWildcard cd ->
  imageSetStep ext cd w = Some imageSet ->
  expiryStep ext cd w = Some (requeueAfter, n) ->
  let cd' := AddFinalizer cd FinalizerDeprovision in
  exit o = ExFinalizerAdded /\ result o = Result_done /\
  emitted w w' [UpdateCD cd'] /\
  Finalizers cd' = {[FinalizerDeprovision]} ∪ Finalizers cd /\
  cd' = set_Finalizers (Finalizers cd') cd /\
  jobs w' = jobs w /\ configMaps w' = configMaps w /\ secrets w' = secrets w /\
  dnsZones w' = dnsZones w /\ deprovisionRequests w' = deprovisionRequests w /\
  (forall k, k <> Name cd -> clusterDeployments w' !! k = clusterDeployments w !! k) /\
  (faults w VUpdate KClusterDeployment (Name cd) = false ->
   is_Some (clusterDeployments w !! Name cd) ->
   err o = None /\ clusterDeployments w' !! Name cd = Some cd').
Proof.
  intros Hrun Hfin Hd Hn Hi He cd'.
  rewrite (reconcile_live _ _ _ _ _ _ Hn Hi Hd He) in Hrun.
  assert (wp (reconcile_provision ext cd cd imageSet (getHiveImage ext cd imageSet)
                (getReleaseImage cd imageSet) requeueAfter) (advance n w)
            (fun o w' =>
               exit o = ExFinalizerAdded /\ result o = Result_done /\
               emitted w w' [UpdateCD cd'] /\
               jobs w' = jobs w /\ configMaps w' = configMaps w /\
               secrets w' = secrets w /\ dnsZones w' = dnsZones w /\
               deprovisionRequests w' = deprovisionRequests w /\
               (forall k, k <> Name cd ->
                  clusterDeployments w' !! k = clusterDeployments w !! k) /\
               (faults w VUpdate KClusterDeployment (Name cd) = false ->
                is_Some (clusterDeployments w !! Name cd) ->
                err o = None /\ clusterDeployments w' !! Name cd = Some cd'))) as H.
  { unfold reconcile_provision. rewrite Hfin. cbn [negb].
    destruct n; cbn [advance]; wp_steps.
    all: try (rewrite Hd; rewrite bool_decide_eq_false_2 by (by intros [? _])).
    all: do 9 (split; [first [done|emitted_solve
                             |intros; by rewrite lookup_insert_ne]|]).
    all: intros ? [? ?]; simplify_eq; try congruence.
    all: split; [done|apply lookup_insert_eq]. }
  unfold wp in H. rewrite Hrun in H. cbn [fst snd] in H.
  destruct H as (? & ? & ? & ? & ? & ? & ? & ? & ? & ?).
  do 11 (split; [done|]). done.
Qed.

Lemma C5_witness :
  let w := testWorld [testClusterDeploymentWithoutFinalizer] [] testSecrets [] in
  let w' := (reconcile testCollaborators testClusterDeploymentWithoutFinalizer w).2 in
  trace w' = [UpdateCD testClusterDeployment] /\
  clusterDeployments w' !! testName = Some testClusterDeployment.
Proof.
  intros w.
  destruct (reconcile testCollaborators testClusterDeploymentWithoutFinalizer w)
    as [o w'] eqn:Hrun.
  destruct (C5_finalizer_added _ _ _ _ _ None 0 0%nat Hrun)
    as (_ & _ & Hev & _ & _ & _ & _ & _ & _ & _ & _ & Hok).
  - reflexivity.
  - reflexivity.
  - constructor.
  - reflexivity.
  - reflexivity.
  - destruct Hok as [_ Hcd]; [reflexivity|eexists; reflexivity|].
    cbn [snd]. split.
    + rewrite Hev. vm_compute. reflexivity.
    + etransitivity; [exact Hcd|]. vm_compute. reflexivity.
Defined.

(** C5 as stated fails for a ClusterDeployment that still carries a wildcard
    ingress domain: the pass migrates the ingress entries and returns; the
    finalizer is not added, and a field other than the finalizers changes. *)
Definition C5_counter_cd : ClusterDeployment :=
  set_Spec
    (set_Ingress [ {| IngressName := "default"; Domain := "*.apps.bar.example.com" |} ]
       (Spec testClusterDeploymentWithoutFinalizer))
    testClusterDeploymentWithoutFinalizer.

Lemma C5_counterexample :
  let w := testWorld [C5_counter_cd] [] testSecrets [] in
  let w' := (Reconcile testCollaborators testName w).2 in
  HasFinalizer C5_counter_cd FinalizerDeprovision = false /\
  DeletionTimestamp C5_counter_cd = None /\
  ((fun cd => HasFinalizer cd FinalizerDeprovision) <$> clusterDeployments w' !! testName)
    = Some false /\
  (Ingress ∘ Spec <$> clusterDeployments w' !! testName)
    = Some [ {| IngressName := "default"; Domain := "apps.bar.example.com" |} ] /\
  Forall (fun c => match c with UpdateCD cd => Finalizers cd = ∅ | _ => False end)
    (trace w').
Proof. vm_compute. repeat split; try reflexivity. repeat constructor. Qed.

(** ** Which return statement a pass takes

    For properties of the outcome alone the calls against the store are
    skipped over: whatever they return, the branches that follow are
    visited. *)
Ltac wp_skim_step :=
  lazymatch goal with
  | |- wp (mbind _ _) _ _ => apply wp_bind
  | |- wp (mret _) _ _ => apply wp_ret
  | |- wp (out _ _ _) _ _ => apply wp_out
  | |- wp (reconcile_status _ _ _ _ _) _ _ => unfold reconcile_status
  | |- wp (reconcile_installJob _ _ _ _ _ _) _ _ => unfold reconcile_installJob
  | |- wp (reconcile_provision _ _ _ _ _ _ _) _ _ => unfold reconcile_provision
  | |- wp (reconcile_job _ _ _ _ _ _ _) _ _ => unfold reconcile_job
  | |- wp (if ?b then _ else _) _ _ => destruct b eqn:?
  | |- wp (match ?x with _ => _ end) _ _ => destruct x eqn:?
  | |- wp _ _ _ => apply wp_any; intros ? ?
  end; cbv beta zeta; cbn [result err exit] in *.

Ltac wp_skim := repeat wp_skim_step.

(** The exits of [reconcile_provision], and those of [reconcile] before it. *)
Definition provisionExit (x : Exit) : bool :=
  match x with
  | ExFinalizerAdded | ExNoSSHKey | ExSSHKeyLoad | ExResolveInstallerImage
  | ExDNSError | ExDNSNotReady | ExJobGetError | ExJobTerminating
  | ExPullSecret | ExGenerate | ExHash | ExOwnerRef | ExConfigMap
  | ExServiceAccount | ExCreateJob | ExGenerationChange | ExHashChange
  | ExStatus | ExEnd => true
  | _ => false
  end.

Definition earlyExit (x : Exit) : bool :=
  match x with
  | ExMigrated | ExImageSet | ExDeletedNoFinalizer | ExDeleted
  | ExParseError | ExExpired => true
  | _ => false
  end.


Lemma reconcile_exit ext cd w :
  wp (reconcile ext cd) w
     (fun o _ =>
        (exit o = ExMigrated <-> (migrateWildcardIngress cd).2 = true) /\
        (earlyExit (exit o) = true \/ provisionExit (exit o) = true)).
Proof.
  unfold reconcile. destruct (migrateWildcardIngress cd) as [cd' migrated].
  cbn [snd]. destruct migrated.
  - wp_skim. split; [done|]. by left.
  - wp_skim.
    all: split; [split; discriminate|first [by left|by right]].
Qed.

(** ** Wildcard ingress migration in a pass *)

(** C6.  [migrateWildcardIngress] strips the leading "*." of every ingress
    domain that begins with it and leaves the other entries, and every other
    field of the ClusterDeployment, as they are; it reports a migration
    exactly when some entry carries the prefix.  When it does, the pass
    issues one call, the update of the migrated object, and returns an empty
    result (the store then holds the migrated object); when no entry carries
    the prefix the object is unchanged and the pass does not take the
    migration exit. *)
Theorem C6_wildcard_migration
    (ext : Collaborators) (cd : ClusterDeployment) (w w' : World) (o : Outcome) :
  reconcile ext cd w = (o, w') ->
  let cd' := (migrateWildcardIngress cd).1 in
  let migrated := (migrateWildcardIngress cd).2 in
  cd' = set_Spec (set_Ingress (Ingress (Spec cd')) (Spec cd)) cd /\
  length (Ingress (Spec cd')) = length (Ingress (Spec cd)) /\
  (forall (i : nat) name rest,
     Ingress (Spec cd) !! i = Some {| IngressName := name; Domain := "*." +:+ rest |} ->
     Ingress (Spec cd') !! i = Some {| IngressName := name; Domain := rest |}) /\
  (forall (i : nat) ing,
     Ingress (Spec cd) !! i = Some ing -> String.prefix "*." (Domain ing) = false ->
     Ingress (Spec cd') !! i = Some ing) /\
  (migrated = true <->
   exists ing, ing ∈ Ingress (Spec cd) /\ String.prefix "*." (Domain ing) = true) /\
  (migrated = false -> cd' = cd /\ exit o <> ExMigrated) /\
  (migrated = true ->
   exit o = ExMigrated /\ result o = Result_done /\
   emitted w w' [UpdateCD cd'] /\
   (faults w VUpdate KClusterDeployment (Name cd) = false ->
    is_Some (clusterDeployments w !! Name cd) ->
    err o = None /\
    clusterDeployments w' =
      if bool_decide (DeletionTimestamp cd <> None /\ Finalizers cd = ∅)
      then delete (Name cd) (clusterDeployments w)
      else <[Name cd := cd']> (clusterDeployments w))).
Proof.
  intros Hrun cd' migrated.
  pose proof (migrateIngressEntries_fst (Ingress (Spec cd)) false) as Hfst.
  pose proof (migrateIngressEntries_snd (Ingress (Spec cd)) false) as Hsnd.
  assert (Ingress (Spec cd') = stripWildcard <$> Ingress (Spec cd)) as Hing.
  { subst cd'. unfold migrateWildcardIngress.
    destruct (migrateIngressEntries (Ingress (Spec cd)) false). cbn in *. done. }
  assert (migrated = existsb (fun ing => String.prefix "*." (Domain ing))
                       (Ingress (Spec cd))) as Hmig.
  { subst migrated. unfold migrateWildcardIngress.
    destruct (migrateIngressEntries (Ingress (Spec cd)) false). cbn in *. done. }
  assert (migrated = true <->
          exists ing, ing ∈ Ingress (Spec cd) /\ String.prefix "*." (Domain ing) = true)
    as Hiff.
  { rewrite Hmig, existsb_exists. by setoid_rewrite list_elem_of_In. }
  split; [|split; [|split; [|split; [|split; [exact Hiff|split]]]]].
  - subst cd'. unfold migrateWildcardIngress.
    by destruct (migrateIngressEntries (Ingress (Spec cd)) false).
  - by rewrite Hing, length_fmap.
  - intros i name rest Hi. rewrite Hing, list_lookup_fmap, Hi. done.
  - intros i ing Hi Hp. rewrite Hing, list_lookup_fmap, Hi. cbn.
    unfold stripWildcard. rewrite (wildcardDomain_keep _ Hp). by destruct ing.
  - intros Hm.
    assert (noWildcard cd) as Hn.
    { apply Forall_forall. intros ing Hin.
      destruct (String.prefix "*." (Domain ing)) eqn:Hp; [|done].
      assert (migrated = true) by (apply Hiff; eauto). congruence. }
    split.
    + subst cd'. by rewrite (migrateWildcardIngress_noWildcard _ Hn).
    + pose proof (reconcile_exit ext cd w) as Hx. unfold wp in Hx.
      rewrite Hrun in Hx. cbn [fst] in Hx. destruct Hx as [Hx _].
      intros He. apply Hx in He. fold migrated in He. congruence.
  - intros Hm.
    assert (wp (reconcile ext cd) w
              (fun o w' =>
                 exit o = ExMigrated /\ result o = Result_done /\
                 emitted w w' [UpdateCD cd'] /\
                 (faults w VUpdate KClusterDeployment (Name cd) = false ->
                  is_Some (clusterDeployments w !! Name cd) ->
                  err o = None /\
                  clusterDeployments w' =
                    if bool_decide (DeletionTimestamp cd <> None /\ Finalizers cd = ∅)
                    then delete (Name cd) (clusterDeployments w)
                    else <[Name cd := cd']> (clusterDeployments w)))) as H.
    { unfold reconcile. subst cd' migrated. unfold migrateWildcardIngress in *.
      destruct (migrateIngressEntries (Ingress (Spec cd)) false) as [l m].
      cbn [fst snd] in *. subst m. wp_steps.
      all: do 3 (split; [first [done|emitted_solve]|]).
      all: intros ? [? ?]; simplify_eq; try congruence.
      all: split; [done|]; by case_bool_decide. }
    unfold wp in H. rewrite Hrun in H. exact H.
Qed.

(** The ClusterDeployment of the test "Migrate when only one of two is
    wildcard". *)
Definition C6_cd : ClusterDeployment :=
  set_Spec
    (set_Ingress [ {| IngressName := "default"; Domain := "apps.bar.example.com" |};
                   {| IngressName := "extraingress";
                      Domain := "*.moreingress.bar.example.com" |} ]
       (Spec testClusterDeployment))
    testClusterDeployment.

Lemma C6_witness :
  let w := testWorld [C6_cd] [] testSecrets [] in
  let w' := (reconcile testCollaborators C6_cd w).2 in
  Ingress (Spec (migrateWildcardIngress C6_cd).1)
    = [ {| IngressName := "default"; Domain := "apps.bar.example.com" |};
        {| IngressName := "extraingress"; Domain := "moreingress.bar.example.com" |} ] /\
  trace w' = [UpdateCD (migrateWildcardIngress C6_cd).1] /\
  clusterDeployments w' !! testName = Some (migrateWildcardIngress C6_cd).1 /\
  (migrateWildcardIngress testClusterDeployment).1 = testClusterDeployment.
Proof.
  intros w.
  destruct (reconcile testCollaborators C6_cd w) as [o w'] eqn:Hrun.
  destruct (C6_wildcard_migration _ _ _ _ _ Hrun)
    as (_ & _ & _ & _ & _ & _ & Hm).
  destruct Hm as (_ & _ & Hev & Hok); [reflexivity|].
  destruct Hok as [_ Hcd]; [reflexivity|eexists; reflexivity|].
  cbn [snd]. split; [reflexivity|]. split; [exact Hev|]. split.
  - rewrite Hcd. vm_compute. reflexivity.
  - destruct (reconcile testCollaborators testClusterDeployment w) as [o2 w2] eqn:Hrun2.
    destruct (C6_wildcard_migration _ _ _ _ _ Hrun2)
      as (_ & _ & _ & _ & _ & Hn & _).
    destruct Hn as [Hsame _]; [reflexivity|exact Hsame].
Defined.

(** ** Expiry *)

Lemma wp_known {A} (m : M A) w a w' (Q : A -> World -> Prop) :
  m w = (a, w') -> Q a w' -> wp m w Q.
Proof. unfold wp. by intros ->. Qed.







(** C7 as stated fails for an expired ClusterDeployment that still carries a
    wildcard ingress domain: the pass migrates the ingress entries and
    returns; no deletion is issued, and the store holds the object without a
    deletion time stamp. *)
Definition C7_counter_cd : ClusterDeployment :=
  set_Spec
    (set_Ingress [ {| IngressName := "default"; Domain := "*.apps.bar.example.com" |} ]
       (Spec testExpiredClusterDeployment))
    testExpiredClusterDeployment.

Lemma C7_counterexample :
  let w := testWorld [C7_counter_cd] [] testSecrets [] in
  let ow := Reconcile testCollaborators testName w in
  DeletionTimestamp C7_counter_cd = None /\
  Annotations C7_counter_cd !! deleteAfterAnnotation = Some "5m" /\
  ParseDuration testCollaborators "5m" = Ok (300 * Second) /\
  CreationTimestamp C7_counter_cd <> 0 /\
  CreationTimestamp C7_counter_cd + 300 * Second < clock w (ticks w) /\
  exit ow.1 = ExMigrated /\ err ow.1 = None /\
  Forall (fun c => match c with UpdateCD _ => True | _ => False end) (trace ow.2) /\
  length (trace ow.2) = 1%nat /\
  (DeletionTimestamp <$> clusterDeployments ow.2 !! testName) = Some None /\
  (Ingress ∘ Spec <$> clusterDeployments ow.2 !! testName)
    = Some [ {| IngressName := "default"; Domain := "apps.bar.example.com" |} ].
Proof. vm_compute. repeat split; try reflexivity; try discriminate. repeat constructor. Qed.

(** ** The managed DNS gate *)

Definition notAWS (cd : ClusterDeployment) : Prop :=
  PlatformAWS (Spec cd) = None \/ PlatformSecretsAWS (Spec cd) = None.

Definition onlyAWSError : error := ErrMsg "only AWS managed DNS is supported".

Lemma ensureManagedDNSZone_notAWS ext cd w :
  notAWS cd -> ensureManagedDNSZone ext cd w = (false, Some onlyAWSError, w).
Proof.
  unfold ensureManagedDNSZone. intros [H|H]; rewrite H; [done|].
  by destruct (PlatformAWS (Spec cd)).
Qed.

(** The exits of a pass that come before the DNS gate. *)
Definition beforeDNSGate (x : Exit) : bool :=
  earlyExit x ||
  match x with
  | ExFinalizerAdded | ExNoSSHKey | ExSSHKeyLoad | ExResolveInstallerImage => true
  | _ => false
  end.

Lemma wp_ensureManagedDNSZone_notAWS ext cd w (Q : bool * option error -> World -> Prop) :
  notAWS cd -> Q (false, Some onlyAWSError) w -> wp (ensureManagedDNSZone ext cd) w Q.
Proof. intros H HQ. eapply wp_known; [by apply ensureManagedDNSZone_notAWS|done]. Qed.

Lemma reconcile_notAWS ext cd w :
  ManageDNS (Spec cd) = true -> notAWS cd ->
  wp (reconcile ext cd) w
     (fun o w' =>
        (exists evs, emitted w w' evs /\ existsb isCreateDNSZone evs = false) /\
        (beforeDNSGate (exit o) = true \/
         exit o = ExDNSError /\ err o = Some onlyAWSError /\ result o = Result_done)).
Proof.
  intros Hm Hna. unfold reconcile, migrateWildcardIngress.
  destruct (migrateIngressEntries (Ingress (Spec cd)) false) as [l migrated].
  assert (forall c, notAWS (set_Status c (set_Spec (set_Ingress l (Spec cd)) cd)))
    as Hst by (intros; exact Hna).
  assert (notAWS (set_Spec (set_Ingress l (Spec cd)) cd)) as Hna' by exact Hna.
  wp_explore (cbn [ManageDNS set_Ingress] in *; rewrite ?Hm in *;
              try (apply wp_ensureManagedDNSZone_notAWS;
                   [first [exact Hna'|apply Hst]|])).
  all: split; [eexists; split; [emitted_solve|reflexivity]|].
  all: first [by left | right; simplify_eq; done].
Qed.

(** The SSH key secret of the ClusterDeployment is read and holds [sshKey]. *)
Definition sshKeyLoaded (cd : ClusterDeployment) (w : World) (sshKey : string) : Prop :=
  exists k s,
    SSHKey (Spec cd) = Some k /\ faults w VGet KSecret k = false /\
    secrets w !! k = Some s /\
    from_option (lookup adminSSHKeySecretKey) None (SecretData s) = Some sshKey.

Lemma advance_emitted n w : emitted w (advance n w) [].
Proof. unfold emitted. destruct n; cbn; by rewrite app_nil_r. Qed.

Lemma advance_faults n w : faults (advance n w) = faults w.
Proof. by destruct n. Qed.
Lemma advance_secrets n w : secrets (advance n w) = secrets w.
Proof. by destruct n. Qed.
Lemma advance_jobs n w : jobs (advance n w) = jobs w.
Proof. by destruct n. Qed.
Lemma advance_trace n w : trace (advance n w) = trace w.
Proof. by destruct n. Qed.

Lemma sshKeyLoaded_advance cd w sshKey n :
  sshKeyLoaded cd w sshKey -> sshKeyLoaded cd (advance n w) sshKey.
Proof. unfold sshKeyLoaded. by rewrite advance_faults, advance_secrets. Qed.

Lemma reconcile_provision_notAWS ext cd origCD imageSet hiveImage releaseImage
    requeueAfter w sshKey i :
  HasFinalizer cd FinalizerDeprovision = true ->
  sshKeyLoaded cd w sshKey ->
  StatusInstallerImage (Status cd) = Some i ->
  ManageDNS (Spec cd) = true -> notAWS cd ->
  reconcile_provision ext cd origCD imageSet hiveImage releaseImage requeueAfter w =
  ({| result := Result_done; err := Some onlyAWSError; exit := ExDNSError |}, w).
Proof.
  intros Hfin (k & s & Hk & Hf & Hs & Hv) Hi Hm Hna.
  assert (wp (reconcile_provision ext cd origCD imageSet hiveImage releaseImage requeueAfter) w
            (fun o w' => o = {| result := Result_done; err := Some onlyAWSError;
                                exit := ExDNSError |} /\ w' = w)) as H.
  { unfold reconcile_provision. rewrite Hfin, Hk, Hi, Hm. cbn [negb].
    wp_explore (try (apply wp_ensureManagedDNSZone_notAWS; [exact Hna|])).
    all: simplify_eq; done. }
  unfold wp in H. destruct (reconcile_provision _ _ _ _ _ _ _ _) as [o w'].
  cbn in H. by destruct H as [-> ->].
Qed.

(** C10.  For a ClusterDeployment with [manageDNS] set whose platform or
    platform secrets are not AWS: the gate [ensureManagedDNSZone] returns
    "not available" with an error and leaves the store alone; no pass ever
    issues the creation of a DNS zone; a pass never gets beyond the gate (it
    returns before it, or at it with that error); and a pass that gets as far
    as the gate (live object, earlier steps passed, finalizer present, SSH
    key loaded, installer image resolved) returns that error without having
    issued any call. *)
Theorem C10_managed_dns_aws_only
    (ext : Collaborators) (cd : ClusterDeployment) (w w' : World) (o : Outcome) :
  reconcile ext cd w = (o, w') ->
  ManageDNS (Spec cd) = true ->
  notAWS cd ->
  ensureManagedDNSZone ext cd w = (false, Some onlyAWSError, w) /\
  (exists evs, emitted w w' evs /\ existsb isCreateDNSZone evs = false) /\
  (beforeDNSGate (exit o) = true \/
   exit o = ExDNSError /\ err o = Some onlyAWSError /\ result o = Result_done) /\
  (forall imageSet requeueAfter n sshKey i,
     DeletionTimestamp cd = None -> noWildcard cd ->
     imageSetStep ext cd w = Some imageSet ->
     expiryStep ext cd w = Some (requeueAfter, n) ->
     HasFinalizer cd FinalizerDeprovision = true ->
     sshKeyLoaded cd w sshKey ->
     StatusInstallerImage (Status cd) = Some i ->
     exit o = ExDNSError /\ err o = Some onlyAWSError /\
     result o = Result_done /\ emitted w w' []).
Proof.
  intros Hrun Hm Hna. split; [by apply ensureManagedDNSZone_notAWS|].
  pose proof (reconcile_notAWS ext cd w Hm Hna) as H.
  unfold wp in H. rewrite Hrun in H. cbn [fst snd] in H. destruct H as [H1 H2].
  split; [done|]. split; [done|].
  intros imageSet requeueAfter n sshKey i Hd Hn Hi He Hfin Hssh Hinst.
  rewrite (reconcile_live _ _ _ _ _ _ Hn Hi Hd He) in Hrun.
  rewrite (reconcile_provision_notAWS _ _ _ _ _ _ _ _ sshKey i) in Hrun;
    [|done|by apply sshKeyLoaded_advance|done..].
  simplify_eq. cbn. repeat split; try done. apply advance_emitted.
Qed.

Definition set_PlatformAWS (p : option AWSPlatform) (s : ClusterDeploymentSpec) : ClusterDeploymentSpec :=
  {| ClusterName := ClusterName s; BaseDomain := BaseDomain s; Ingress := Ingress s;
     SpecImages := SpecImages s; ImageSet := ImageSet s; SSHKey := SSHKey s;
     PullSecret := PullSecret s; PlatformAWS := p;
     PlatformSecretsAWS := PlatformSecretsAWS s; ManageDNS := ManageDNS s;
     PreserveOnDelete := PreserveOnDelete s |}.
Definition set_ManageDNS (b : bool) (s : ClusterDeploymentSpec) : ClusterDeploymentSpec :=
  {| ClusterName := ClusterName s; BaseDomain := BaseDomain s; Ingress := Ingress s;
     SpecImages := SpecImages s; ImageSet := ImageSet s; SSHKey := SSHKey s;
     PullSecret := PullSecret s; PlatformAWS := PlatformAWS s;
     PlatformSecretsAWS := PlatformSecretsAWS s; ManageDNS := b;
     PreserveOnDelete := PreserveOnDelete s |}.

(** The test ClusterDeployment with [manageDNS] set and no AWS platform. *)
Definition C10_cd : ClusterDeployment :=
  set_Spec (set_ManageDNS true (set_PlatformAWS None (Spec testClusterDeployment)))
    testClusterDeployment.

Lemma C10_witness :
  let w := testWorld [C10_cd] [] testSecrets [] in
  let ow := reconcile testCollaborators C10_cd w in
  err ow.1 = Some onlyAWSError /\ trace ow.2 = [] /\ dnsZones ow.2 = ∅.
Proof.
  intros w.
  destruct (reconcile testCollaborators C10_cd w) as [o w'] eqn:Hrun.
  destruct (C10_managed_dns_aws_only _ _ _ _ _ Hrun) as (_ & _ & _ & Hgate).
  - reflexivity.
  - left. reflexivity.
  - destruct (Hgate None 0 0%nat "fakesshkey" "installer-image:latest")
      as (_ & He & _ & Hev); try reflexivity.
    + constructor.
    + exists sshKeySecret, (testSecret sshKeySecret adminSSHKeySecretKey "fakesshkey").
      repeat split; reflexivity.
    + cbn [fst snd]. split; [exact He|]. split; [exact Hev|].
      injection Hrun as _ <-. vm_compute. reflexivity.
Defined.

(** ** From the finalizer check to the install job *)

(** The DNS gate lets the pass through: no managed DNS, or an AWS
    ClusterDeployment whose zone is found with a true [ZoneAvailable]
    condition. *)
Definition dnsReady (ext : Collaborators) (cd : ClusterDeployment) (w : World) : Prop :=
  ManageDNS (Spec cd) = false \/
  exists aws awsSecrets zone c,
    PlatformAWS (Spec cd) = Some aws /\ PlatformSecretsAWS (Spec cd) = Some awsSecrets /\
    faults w VGet KDNSZone (dnsZoneName ext (Name cd)) = false /\
    dnsZones w !! dnsZoneName ext (Name cd) = Some zone /\
    FindDNSZoneCondition (ZoneConditions zone) ZoneAvailableDNSZoneCondition = Some c /\
    ZoneCondStatus c = ConditionTrue.

Lemma LoadSecretData_run secretName dataKey w s v :
  faults w VGet KSecret secretName = false ->
  secrets w !! secretName = Some s ->
  from_option (lookup dataKey) None (SecretData s) = Some v ->
  LoadSecretData secretName dataKey w = (Ok v, w).
Proof.
  intros Hf Hs Hv. unfold LoadSecretData.
  rewrite run_bind, client_Get_run, Hf, Hs. cbn [fst snd]. by rewrite Hv.
Qed.

Lemma reconcile_provision_ready ext cd origCD imageSet hiveImage releaseImage
    requeueAfter w sshKey i :
  HasFinalizer cd FinalizerDeprovision = true ->
  sshKeyLoaded cd w sshKey ->
  StatusInstallerImage (Status cd) = Some i ->
  dnsReady ext cd w ->
  reconcile_provision ext cd origCD imageSet hiveImage releaseImage requeueAfter w =
  reconcile_job ext cd origCD hiveImage releaseImage sshKey requeueAfter w.
Proof.
  intros Hfin (k & s & Hk & Hf & Hs & Hv) Hi Hdns.
  unfold reconcile_provision. rewrite Hfin, Hk, Hi. cbn [negb].
  rewrite run_bind, (LoadSecretData_run _ _ _ _ _ Hf Hs Hv). cbn [fst snd].
  rewrite run_bind.
  destruct Hdns as [Hm|(aws & sec & zone & c & Ha & Hsec & Hfz & Hz & Hc & Ht)].
  - rewrite Hm. done.
  - destruct (ManageDNS (Spec cd)); [|done].
    unfold ensureManagedDNSZone. rewrite Ha, Hsec.
    rewrite run_bind, client_Get_run, Hfz, Hz. cbn [fst snd]. rewrite Hc.
    rewrite run_ret. cbn [fst snd]. by rewrite Ht.
Qed.

(** The image set gives no installer image. *)
Definition noInstallerImage (imageSet : option ClusterImageSet) : Prop :=
  match imageSet with
  | Some {| ImageSetInstallerImage := Some _ |} => False
  | _ => True
  end.

(** C8.  An install job that is being deleted makes the pass return a
    requeue after [defaultRequeueTime] without issuing any call.  For the
    installer-image resolution job the code does otherwise: the switch of
    [resolveInstallerImage] tests the deletion time stamp of the job it has
    just generated, not that of the existing job, so an existing job that is
    finished and already being deleted is deleted once more, and the pass
    returns an empty result, with no requeue. *)
Theorem C8_terminating_jobs (ext : Collaborators) (cd : ClusterDeployment) (w : World) :
  (forall origCD imageSet hiveImage releaseImage requeueAfter sshKey i job,
     HasFinalizer cd FinalizerDeprovision = true ->
     sshKeyLoaded cd w sshKey ->
     StatusInstallerImage (Status cd) = Some i ->
     dnsReady ext cd w ->
     installJobIs ext cd w (Some job) ->
     PtrTime_IsZero (JobDeletionTimestamp job) = false ->
     reconcile_provision ext cd origCD imageSet hiveImage releaseImage requeueAfter w =
     ({| result := {| RequeueAfter := defaultRequeueTime |}; err := None;
         exit := ExJobTerminating |}, w)) /\
  (forall imageSet hiveImage releaseImage existingJob o r e w',
     let job := GenerateImageSetJob ext cd releaseImage serviceAccountName
                  (images_GetCLIImage ext) hiveImage in
     resolveInstallerImage ext cd imageSet releaseImage hiveImage w = (r, e, w') ->
     InstallerImage (SpecImages (Spec cd)) = "" ->
     noInstallerImage imageSet ->
     SetControllerReference ext cd (JobOwner job) = Ok o ->
     JobDeletionTimestamp job = None ->
     faults w VGet KJob (JobName job) = false ->
     jobs w !! JobName job = Some existingJob ->
     PtrTime_IsZero (JobDeletionTimestamp existingJob) = false ->
     IsFinished ext existingJob = true ->
     r = Result_done /\
     emitted w w' [DeleteJob (JobName existingJob) DeletePropagationForeground]).
Proof.
  split.
  - intros origCD imageSet hiveImage releaseImage requeueAfter sshKey i job
      Hfin Hssh Hi Hdns [Hf Hj] Hterm.
    rewrite (reconcile_provision_ready _ _ _ _ _ _ _ _ sshKey i) by done.
    unfold reconcile_job. rewrite run_bind, client_Get_run, Hf, Hj.
    cbn [fst snd]. by rewrite Hterm.
  - intros imageSet hiveImage releaseImage existingJob o r e w' job
      Hrun Himg Hno Ho Hgen Hf Hj Hterm Hfin.
    assert (wp (resolveInstallerImage ext cd imageSet releaseImage hiveImage) w
              (fun re w' =>
                 re.1 = Result_done /\
                 emitted w w' [DeleteJob (JobName existingJob) DeletePropagationForeground]))
      as H.
    { unfold resolveInstallerImage. rewrite Himg.
      rewrite bool_decide_eq_false_2 by (by intros []).
      assert (wp
        (match SetControllerReference ext cd (JobOwner job) with
         | Err e0 => mret (Result_done, Some e0)
         | Ok o0 =>
             r0 ← client_Get KJob jobs (JobName (set_JobOwner o0 job));
             match r0 with
             | Ok existingJob0 =>
                 if negb (PtrTime_IsZero (JobDeletionTimestamp (set_JobOwner o0 job)))
                 then mret ({| RequeueAfter := defaultRequeueTime |}, None)
                 else if IsFinished ext existingJob0
                      then e0 ← client_Delete_job (JobName existingJob0);
                           mret (Result_done, e0)
                      else mret (Result_done, None)
             | Err e0 =>
                 if IsNotFound e0
                 then e1 ← SetupClusterInstallServiceAccount (Namespace cd);
                      match e1 with
                      | Some e2 => mret (Result_done, Some e2)
                      | None =>
                          e2 ← client_Create KJob jobs set_jobs
                                 (CreateJob (set_JobOwner o0 job))
                                 (JobName (set_JobOwner o0 job)) (set_JobOwner o0 job);
                          mret (Result_done, e2)
                      end
                 else mret (Result_done, Some e0)
             end
         end) w
        (fun re w' =>
           re.1 = Result_done /\
           emitted w w' [DeleteJob (JobName existingJob) DeletePropagationForeground]))
        as Hbody.
      { rewrite Ho. cbn [JobName set_JobOwner JobDeletionTimestamp].
        rewrite Hgen. cbn [PtrTime_IsZero negb].
        wp_explore idtac.
        all: simplify_eq; try congruence.
        all: split; [done|emitted_solve]. }
      destruct imageSet as [[? [?|] ? ?]|]; [done|exact Hbody|exact Hbody]. }
    unfold wp in H. rewrite Hrun in H. exact H.
Qed.

(** The failing input: the installer image is not resolved yet, and the
    imageset job has completed and is already being deleted. *)
Definition C8_cd : ClusterDeployment :=
  set_Status (set_StatusInstallerImage None (Status testClusterDeployment))
    testClusterDeployment.

Definition C8_imageSetJob : Job :=
  {| JobName := imageSetJobName;
     JobNamespace := testNamespace;
     JobAnnotations := None;
     JobDeletionTimestamp := Some testNow;
     JobOwner := Some testName;
     JobSpec := "";
     JobConditions := [ {| JobCondType := JobComplete; JobCondStatus := ConditionTrue |} ] |}.

Definition C8_world : World := testWorld [C8_cd] [C8_imageSetJob] testSecrets [].

Lemma C8_witness :
  (let w := testWorld [testClusterDeployment]
              [set_JobDeletionTimestamp (Some testNow) testInstallJob] testSecrets [] in
   Reconcile testCollaborators testName w =
   ({| result := {| RequeueAfter := defaultRequeueTime |}; err := None;
       exit := ExJobTerminating |}, w)) /\
  (let ow := Reconcile testCollaborators testName C8_world in
   ow.1 = {| result := Result_done; err := None; exit := ExResolveInstallerImage |} /\
   trace ow.2 = [DeleteJob imageSetJobName DeletePropagationForeground]).
Proof.
  split.
  - intros w.
    destruct (C8_terminating_jobs testCollaborators testClusterDeployment w) as [Hinstall _].
    unfold Reconcile. rewrite run_bind, client_Get_run.
    change (faults w VGet KClusterDeployment testName) with false.
    change (clusterDeployments w !! testName) with (Some testClusterDeployment).
    cbn [fst snd].
    rewrite (reconcile_live _ _ _ None 0 0%nat);
      [|constructor|reflexivity|reflexivity|reflexivity].
    apply (Hinstall _ _ _ _ _ "fakesshkey" "installer-image:latest"
             (set_JobDeletionTimestamp (Some testNow) testInstallJob)).
    + reflexivity.
    + exists sshKeySecret, (testSecret sshKeySecret adminSSHKeySecretKey "fakesshkey").
      repeat split; reflexivity.
    + reflexivity.
    + left. reflexivity.
    + split; reflexivity.
    + reflexivity.
  - intros ow.
    destruct (C8_terminating_jobs testCollaborators C8_cd C8_world) as [_ Himageset].
    destruct (resolveInstallerImage testCollaborators C8_cd None ""
                (images_GetHiveImage testCollaborators) C8_world)
      as [[r e] w'] eqn:Hrun.
    destruct (Himageset _ _ _ C8_imageSetJob (Some testName) _ _ _ Hrun)
      as [Hr Hev]; try reflexivity; try exact I.
    subst ow. split; [vm_compute; reflexivity|].
    assert (trace (Reconcile testCollaborators testName C8_world).2 = trace w') as ->.
    { injection Hrun as _ _ <-. vm_compute. reflexivity. }
    exact Hev.
Defined.

(** ** Status convergence *)

Lemma setAdminKubeconfigStatus_Installed ext cd secret :
  Installed (Status (setAdminKubeconfigStatus ext cd secret).1) = Installed (Status cd) /\
  Name (setAdminKubeconfigStatus ext cd secret).1 = Name cd.
Proof.
  unfold setAdminKubeconfigStatus.
  repeat (match goal with
          | |- context [if ?b then _ else _] => destruct b
          | |- context [match ?x with _ => _ end] => destruct x
          end; try done).
Qed.

(** What the pass has observed of the install job: [Some b] when a job with
    a name and a namespace was found, [b] telling whether it succeeded. *)
Definition observedSuccess (ext : Collaborators) (job : option Job) : option bool :=
  match job with
  | Some job =>
      if bool_decide (JobName job <> "") && bool_decide (JobNamespace job <> "")
      then Some (IsSuccessful ext job) else None
  | None => None
  end.

Lemma updateClusterDeploymentStatus_installed ext cd origCD job w :
  clusterDeployments w !! Name cd = Some origCD ->
  wp (updateClusterDeploymentStatus ext cd origCD job) w
     (fun e w' =>
        e = None ->
        (Installed ∘ Status <$> clusterDeployments w' !! Name cd) =
        Some (default (Installed (Status cd)) (observedSuccess ext job))).
Proof.
  intros Hcd. unfold updateClusterDeploymentStatus, observedSuccess.
  set (cd1 := match job with
              | Some job0 =>
                  if bool_decide (JobName job0 <> "") && bool_decide (JobNamespace job0 <> "")
                  then set_Status (set_Installed (IsSuccessful ext job0) (Status cd)) cd
                  else cd
              | None => cd
              end).
  assert (Name cd1 = Name cd /\
          Installed (Status cd1) =
          default (Installed (Status cd))
            match job with
            | Some job0 =>
                if bool_decide (JobName job0 <> "") && bool_decide (JobNamespace job0 <> "")
                then Some (IsSuccessful ext job0) else None
            | None => None
            end) as [Hn1 Hi1].
  { subst cd1. destruct job as [j|]; [|done].
    by destruct (bool_decide (JobName j <> "") && bool_decide (JobNamespace j <> "")). }
  rewrite <- Hi1. clearbody cd1.
  set (cd2 := if Installed (Status cd1) && bool_decide (AdminKubeconfigSecret (Status cd1) = "")
              then set_Status (set_AdminKubeconfigSecret
                                 (GetResourceName ext (Name cd1) "admin-kubeconfig")
                                 (Status cd1)) cd1
              else cd1).
  assert (Name cd2 = Name cd /\ Installed (Status cd2) = Installed (Status cd1)) as [Hn2 Hi2].
  { subst cd2.
    by destruct (Installed (Status cd1) && bool_decide (AdminKubeconfigSecret (Status cd1) = "")). }
  rewrite <- Hi2. clearbody cd2. clear Hi1 Hi2 Hn1 cd1.
  wp_steps.
  all: intros He; try discriminate.
  all: repeat match goal with
         | H : setAdminKubeconfigStatus ?e ?c ?s = _ |- _ =>
             let Hi := fresh in let Hn := fresh in
             destruct (setAdminKubeconfigStatus_Installed e c s) as [Hi Hn];
             rewrite H in Hi, Hn; cbn [fst] in Hi, Hn; clear H
         end.
  all: simplify_eq.
  all: try (rewrite Hcd; cbn; f_equal; case_bool_decide; congruence).
  all: try (rewrite ?Hn2; rewrite lookup_insert_eq; cbn; f_equal; congruence).
  all: replace (Name c) with (Name cd) by congruence;
    rewrite lookup_insert_eq; cbn; f_equal; congruence.
Qed.

(** C4 (amended).  After a status convergence that completes without error,
    [status.installed] of the stored ClusterDeployment is the success of the
    install job that the pass observed, when it observed one (a job with a
    name and a namespace) -- also when [installed] was true before, so that
    an observed job that does not report success reverts it to false; when
    no install job was found, [installed] keeps the value it had, so that
    deleting the job does not revert it. *)
Theorem C4_installed_mirrors_observed_job
    (ext : Collaborators) (cd origCD : ClusterDeployment) (job : option Job)
    (w w' : World) (e : option error) :
  updateClusterDeploymentStatus ext cd origCD job w = (e, w') ->
  clusterDeployments w !! Name cd = Some origCD ->
  e = None ->
  (Installed ∘ Status <$> clusterDeployments w' !! Name cd) =
  Some (default (Installed (Status cd)) (observedSuccess ext job)).
Proof.
  intros Hrun Hcd He.
  pose proof (updateClusterDeploymentStatus_installed ext cd origCD job w Hcd) as H.
  unfold wp in H. rewrite Hrun in H. by apply H.
Qed.

Definition C4_installed_cd : ClusterDeployment :=
  set_Status (set_Installed true (Status testClusterDeployment)) testClusterDeployment.

Lemma C4_witness :
  (let w := testWorld [C4_installed_cd] [] testSecrets [] in
   let w' := (updateClusterDeploymentStatus testCollaborators C4_installed_cd
                C4_installed_cd None w).2 in
   (Installed ∘ Status <$> clusterDeployments w' !! testName) = Some true) /\
  (let w := testWorld [testClusterDeployment] [testCompletedInstallJob] testSecrets [] in
   let w' := (updateClusterDeploymentStatus testCollaborators testClusterDeployment
                testClusterDeployment (Some testCompletedInstallJob) w).2 in
   (Installed ∘ Status <$> clusterDeployments w' !! testName) = Some true).
Proof.
  split; intros w.
  - destruct (updateClusterDeploymentStatus testCollaborators C4_installed_cd
                C4_installed_cd None w) as [e w'] eqn:Hrun.
    apply (C4_installed_mirrors_observed_job _ _ _ _ _ _ _ Hrun).
    + reflexivity.
    + injection Hrun as <- _. vm_compute. reflexivity.
  - destruct (updateClusterDeploymentStatus testCollaborators testClusterDeployment
                testClusterDeployment (Some testCompletedInstallJob) w) as [e w'] eqn:Hrun.
    apply (C4_installed_mirrors_observed_job _ _ _ _ _ _ _ Hrun).
    + reflexivity.
    + injection Hrun as <- _. vm_compute. reflexivity.
Defined.

(** C4 as stated fails: an installed ClusterDeployment whose install job
    exists and does not report success (the objects of the test "Parse server
    URL from admin kubeconfig") has [installed] set back to false by one
    pass. *)
Lemma C4_counterexample :
  let w := testWorld [C4_installed_cd] [testInstallJob] testSecrets [] in
  let ow := Reconcile testCollaborators testName w in
  (Installed ∘ Status <$> clusterDeployments w !! testName) = Some true /\
  jobs w !! installJobName = Some testInstallJob /\
  IsSuccessful testCollaborators testInstallJob = false /\
  err ow.1 = None /\ exit ow.1 = ExEnd /\
  (Installed ∘ Status <$> clusterDeployments ow.2 !! testName) = Some false.
Proof. vm_compute. repeat split; reflexivity. Qed.

(** ** The install job in a pass *)

Lemma emitted_trans w w1 w2 evs1 evs2 :
  emitted w w1 evs1 -> emitted w1 w2 evs2 -> emitted w w2 (evs1 ++ evs2).
Proof. unfold emitted. intros H1 H2. by rewrite H2, H1, app_assoc. Qed.

(** Status convergence issues no call on jobs and leaves the jobs alone. *)
Lemma reconcile_status_frame ext cd origCD job requeueAfter w :
  wp (reconcile_status ext cd origCD job requeueAfter) w
     (fun o w' =>
        exists evs, emitted w w' evs /\
          existsb isCreateJob evs = false /\ existsb isDeleteJob evs = false /\
          jobs w' = jobs w).
Proof.
  unfold reconcile_status, updateClusterDeploymentStatus.
  set (cd1 := match job with Some _ => _ | None => _ end). clearbody cd1.
  set (cd2 := if Installed (Status cd1) && _ then _ else _). clearbody cd2.
  wp_steps.
  all: eexists; split; [emitted_solve|done].
Qed.

(** The job hash guard decides for a new job exactly when the hash
    annotation of the existing job is missing or differs from that of the
    generated job; it then deletes the existing job and creates none. *)
Definition hashOf (j : Job) : option string :=
  from_option (lookup jobHashAnnotation) None (JobAnnotations j).

Lemma deleteJobOnHashChange_spec existingJob generatedJob w :
  wp (deleteJobOnHashChange existingJob generatedJob) w
     (fun be w' =>
        (be.1 = true <->
         hashOf existingJob = None \/
         default "" (hashOf existingJob) <> default "" (hashOf generatedJob)) /\
        emitted w w' (if be.1 then [DeleteJob (JobName existingJob) DeletePropagationForeground]
                      else []) /\
        (be.1 = true -> forall stored,
           faults w VDelete KJob (JobName existingJob) = false ->
           jobs w !! JobName existingJob = Some stored ->
           be.2 = None /\
           jobs w' = <[JobName existingJob := markJobDeleted (clock w (ticks w)) stored]> (jobs w))).
Proof.
  unfold deleteJobOnHashChange. fold (hashOf existingJob) (hashOf generatedJob).
  destruct (bool_decide (hashOf existingJob = None)) eqn:E1;
    destruct (bool_decide (default "" (hashOf existingJob) <> default "" (hashOf generatedJob))) eqn:E2.
  all: wp_steps.
  all: first [apply bool_decide_eq_true in E1|apply bool_decide_eq_false in E1].
  all: first [apply bool_decide_eq_true in E2|apply bool_decide_eq_false in E2].
  all: split;
    [first [split; [intros _; tauto|done]
           |split; [discriminate|intros [?|?]; done]]|].
  all: split; [emitted_solve|intros; simplify_eq; first [congruence|done]].
Qed.

(** With an existing install job the handling of the job creates none, and
    without one it deletes none. *)
Lemma reconcile_installJob_calls ext cd existingJob hiveImage releaseImage sshKey w :
  wp (reconcile_installJob ext cd existingJob hiveImage releaseImage sshKey) w
     (fun _ w' =>
        exists evs, emitted w w' evs /\
          (is_Some existingJob -> existsb isCreateJob evs = false) /\
          (existingJob = None -> existsb isDeleteJob evs = false)).
Proof.
  unfold reconcile_installJob. wp_steps.
  all: eexists; split; [emitted_solve|]; split; intros Hj;
    first [reflexivity|by destruct Hj|discriminate].
Qed.

(** No pass both deletes and creates the install job, and a pass that finds
    an install job creates none. *)
Lemma reconcile_job_calls ext cd origCD hiveImage releaseImage sshKey requeueAfter w :
  wp (reconcile_job ext cd origCD hiveImage releaseImage sshKey requeueAfter) w
     (fun _ w' =>
        exists evs, emitted w w' evs /\
          ~ (existsb isDeleteJob evs = true /\ existsb isCreateJob evs = true) /\
          (is_Some (jobs w !! GetInstallJobName ext cd) ->
           existsb isCreateJob evs = false)).
Proof.
  assert (forall existingJob cd w,
    (is_Some (jobs w !! GetInstallJobName ext cd) -> is_Some existingJob) ->
    wp (c ← reconcile_installJob ext cd existingJob hiveImage releaseImage sshKey;
        match c with
        | inr o => mret o
        | inl cd => reconcile_status ext cd origCD existingJob requeueAfter
        end) w
       (fun _ w' =>
          exists evs, emitted w w' evs /\
            ~ (existsb isDeleteJob evs = true /\ existsb isCreateJob evs = true) /\
            (is_Some (jobs w !! GetInstallJobName ext cd) ->
             existsb isCreateJob evs = false))) as Hinstall.
  { intros existingJob cd0 w0 Hsome. apply wp_bind.
    eapply wp_mono; [apply reconcile_installJob_calls|].
    intros c w1 (evs1 & Hev1 & Hc & Hd). cbn beta.
    destruct c as [cd1|o].
    - eapply wp_mono; [apply reconcile_status_frame|].
      intros o w2 (evs2 & Hev2 & Hc2 & Hd2 & _). cbn beta.
      exists (evs1 ++ evs2). split; [by eapply emitted_trans|].
      rewrite !existsb_app, Hc2, Hd2, !orb_false_r. split.
      + intros [Hdel Hcre]. destruct existingJob.
        * rewrite Hc in Hcre by done. discriminate.
        * rewrite Hd in Hdel by done. discriminate.
      + intros Hj. apply Hc. by apply Hsome.
    - apply wp_ret. exists evs1. split; [done|]. split.
      + intros [Hdel Hcre]. destruct existingJob.
        * rewrite Hc in Hcre by done. discriminate.
        * rewrite Hd in Hdel by done. discriminate.
      + intros Hj. apply Hc. by apply Hsome. }
  assert (forall existingJob cd w,
    wp (reconcile_status ext cd origCD existingJob requeueAfter) w
       (fun _ w' =>
          exists evs, emitted w w' evs /\
            ~ (existsb isDeleteJob evs = true /\ existsb isCreateJob evs = true) /\
            (is_Some (jobs w !! GetInstallJobName ext cd) ->
             existsb isCreateJob evs = false))) as Hstatus.
  { intros existingJob cd0 w0.
    eapply wp_mono; [apply reconcile_status_frame|].
    intros o w2 (evs2 & Hev2 & Hc2 & Hd2 & _). cbn beta.
    exists evs2. split; [done|]. rewrite Hc2, Hd2. split; [by intros [? ?]|done]. }
  unfold reconcile_job. apply wp_bind, wp_client_Get.
  - intros Hf. cbn [IsNotFound]. apply wp_out.
    exists []. split; [apply emitted_nil|]. split; [by intros [? ?]|done].
  - intros job Hf Hj.
    destruct (negb (PtrTime_IsZero (JobDeletionTimestamp job))).
    + apply wp_out. exists []. split; [apply emitted_nil|].
      split; [by intros [? ?]|done].
    + destruct (Installed (Status cd)); [apply Hstatus|].
      apply Hinstall. intros _. by eexists.
  - intros Hf Hj. cbn [IsNotFound].
    destruct (Installed (Status cd)); [apply Hstatus|].
    apply Hinstall. rewrite Hj. by intros [? ?].
Qed.

(** ** Passes that reach the install job *)

(** The ClusterDeployment [cd], stored under [name], passes every step of a
    pass up to the lookup of the install job, at whatever time the pass
    runs. *)
Record Provisionable (ext : Collaborators) (name : string) (cd : ClusterDeployment)
    (w : World) (imageSet : option ClusterImageSet) (sshKey : string) : Prop := {
  pv_get : faults w VGet KClusterDeployment name = false;
  pv_stored : clusterDeployments w !! name = Some cd;
  pv_live : DeletionTimestamp cd = None;
  pv_noWildcard : noWildcard cd;
  pv_imageSet : imageSetStep ext cd w = Some imageSet;
  pv_expiry : forall k, is_Some (expiryStep ext cd (set_ticks k w));
  pv_finalizer : HasFinalizer cd FinalizerDeprovision = true;
  pv_sshKey : sshKeyLoaded cd w sshKey;
  pv_installerImage : is_Some (StatusInstallerImage (Status cd));
  pv_dns : dnsReady ext cd w }.

(** Two worlds that differ at most in jobs, config maps, deprovision
    requests, clock readings taken and trace. *)
Definition sameInputs (w w2 : World) : Prop :=
  clusterDeployments w2 = clusterDeployments w /\ secrets w2 = secrets w /\
  faults w2 = faults w /\ clusterImageSets w2 = clusterImageSets w /\
  dnsZones w2 = dnsZones w /\ clock w2 = clock w /\ pods w2 = pods w.

Lemma expiryStep_ext ext cd w w2 :
  clock w2 = clock w -> ticks w2 = ticks w ->
  expiryStep ext cd w2 = expiryStep ext cd w.
Proof. unfold expiryStep. by intros -> ->. Qed.

Lemma Provisionable_sameInputs ext name cd w w2 imageSet sshKey :
  sameInputs w w2 ->
  Provisionable ext name cd w imageSet sshKey ->
  Provisionable ext name cd w2 imageSet sshKey.
Proof.
  intros (Hcds & Hsec & Hf & His & Hz & Hc & _) [].
  split; try done.
  - by rewrite Hf.
  - by rewrite Hcds.
  - unfold imageSetStep in *. by rewrite Hf, His.
  - intros k. rewrite (expiryStep_ext _ _ (set_ticks k w)); done.
  - unfold sshKeyLoaded in *. by rewrite Hf, Hsec.
  - unfold dnsReady in *. by rewrite Hf, Hz.
Qed.

Lemma Reconcile_provisionable ext name cd w imageSet sshKey :
  Provisionable ext name cd w imageSet sshKey ->
  exists requeueAfter n,
    expiryStep ext cd w = Some (requeueAfter, n) /\
    Reconcile ext name w =
    reconcile_job ext cd cd (getHiveImage ext cd imageSet) (getReleaseImage cd imageSet)
      sshKey requeueAfter (advance n w).
Proof.
  intros [].
  destruct (pv_expiry0 (ticks w)) as [[requeueAfter n] He].
  rewrite (expiryStep_ext _ _ w) in He by done.
  exists requeueAfter, n. split; [done|].
  unfold Reconcile. rewrite run_bind, client_Get_run, pv_get0, pv_stored0.
  cbn [fst snd].
  rewrite (reconcile_live _ _ _ _ _ _ pv_noWildcard0 pv_imageSet0 pv_live0 He).
  destruct pv_installerImage0 as [i Hi].
  apply (reconcile_provision_ready _ _ _ _ _ _ _ _ sshKey i); try done.
  - by apply sshKeyLoaded_advance.
  - unfold dnsReady in *. by rewrite advance_faults; destruct n.
Qed.

Lemma sameInputs_advance n w : sameInputs w (advance n w).
Proof. by destruct n. Qed.


(** What the handling of the install job works with: the pull secret is
    read, the job and its config map are generated, the hash of the job is
    computed and both objects get their owner; [job] and [cfgMap] are the
    resulting objects. *)
Definition installInputs (ext : Collaborators) (cd : ClusterDeployment) (w : World)
    (hiveImage releaseImage sshKey : string) (job : Job) (cfgMap : ConfigMap)
    (jobHash : string) : Prop :=
  exists s pullSecret job0 cfgMap0 o1 o2,
    faults w VGet KSecret (PullSecret (Spec cd)) = false /\
    secrets w !! PullSecret (Spec cd) = Some s /\
    from_option (lookup DockerConfigJsonKey) None (SecretData s) = Some pullSecret /\
    GenerateInstallerJob ext cd hiveImage releaseImage serviceAccountName sshKey pullSecret
      = Ok (job0, cfgMap0) /\
    calculateJobSpecHash ext job0 = Ok jobHash /\
    SetControllerReference ext cd
      (JobOwner (set_JobAnnotations
                   (Some (<[jobHashAnnotation := jobHash]> (default ∅ (JobAnnotations job0))))
                   job0)) = Ok o1 /\
    SetControllerReference ext cd (CMOwner cfgMap0) = Ok o2 /\
    job = set_JobOwner o1
            (set_JobAnnotations
               (Some (<[jobHashAnnotation := jobHash]> (default ∅ (JobAnnotations job0)))) job0) /\
    cfgMap = set_CMOwner o2 cfgMap0.

Lemma installInputs_hash ext cd w hiveImage releaseImage sshKey job cfgMap jobHash :
  installInputs ext cd w hiveImage releaseImage sshKey job cfgMap jobHash ->
  hashOf job = Some jobHash.
Proof.
  intros (s & ps & job0 & cfgMap0 & o1 & o2 & _ & _ & _ & _ & _ & _ & _ & -> & _).
  unfold hashOf. cbn. apply lookup_insert_eq.
Qed.

Lemma installInputs_sameInputs ext cd w w2 hiveImage releaseImage sshKey job cfgMap jobHash :
  sameInputs w w2 ->
  installInputs ext cd w hiveImage releaseImage sshKey job cfgMap jobHash ->
  installInputs ext cd w2 hiveImage releaseImage sshKey job cfgMap jobHash.
Proof.
  intros (_ & Hsec & Hf & _) H. unfold installInputs in *. by rewrite Hf, Hsec.
Qed.

Definition noFaults (w : World) : Prop := forall v k n, faults w v k n = false.





(** * Further properties of the controller *)

(** ** The job hash guard *)

(** [deleteJobOnHashChange] reports that a new job is needed exactly when the
    hash annotation of the existing job is missing or differs from that of
    the generated job (a missing annotation of the generated job reads as
    the empty string).  It then issues one call, the deletion of the existing
    job with foreground propagation; otherwise it issues no call, returns no
    error and leaves the store as it is. *)
Theorem deleteJobOnHashChange_decision (existingJob generatedJob : Job) (w : World) :
  wp (deleteJobOnHashChange existingJob generatedJob) w
     (fun be w' =>
        (be.1 = true <->
         hashOf existingJob = None \/
         default "" (hashOf existingJob) <> default "" (hashOf generatedJob)) /\
        (be.1 = true ->
         emitted w w' [DeleteJob (JobName existingJob) DeletePropagationForeground]) /\
        (be.1 = false -> be.2 = None /\ w' = w)).
Proof.
  unfold deleteJobOnHashChange. fold (hashOf existingJob) (hashOf generatedJob).
  destruct (bool_decide (hashOf existingJob = None)) eqn:E1;
    destruct (bool_decide (default "" (hashOf existingJob) <> default "" (hashOf generatedJob))) eqn:E2.
  all: wp_steps.
  all: first [apply bool_decide_eq_true in E1|apply bool_decide_eq_false in E1].
  all: first [apply bool_decide_eq_true in E2|apply bool_decide_eq_false in E2].
  all: split;
    [first [split; [intros _; tauto|done]
           |split; [discriminate|intros [?|?]; done]]|].
  all: split; [intros; first [discriminate|emitted_solve]|intros; first [discriminate|done]].
Qed.

(** ** Calls on jobs in one pass *)

Definition isJobCall (c : Call) : bool := isDeleteJob c || isCreateJob c.

Definition jobCalls (evs : list Call) : nat := length (List.filter isJobCall evs).

Lemma jobCalls_app evs1 evs2 : jobCalls (evs1 ++ evs2) = (jobCalls evs1 + jobCalls evs2)%nat.
Proof. unfold jobCalls. by rewrite List.filter_app, length_app. Qed.

Definition atMostOneJobCall (w w' : World) : Prop :=
  exists evs, emitted w w' evs /\ (jobCalls evs <= 1)%nat.

Lemma atMostOneJobCall_refl w : atMostOneJobCall w w.
Proof. exists []. split; [apply emitted_nil|]. cbn. lia. Qed.

Ltac jobCalls_solve :=
  eexists; split; [emitted_solve|]; cbn; lia.

Lemma reconcile_status_jobCalls ext cd origCD job requeueAfter w :
  wp (reconcile_status ext cd origCD job requeueAfter) w
     (fun _ w' => exists evs, emitted w w' evs /\ jobCalls evs = 0%nat).
Proof.
  unfold reconcile_status, updateClusterDeploymentStatus.
  set (cd1 := match job with Some _ => _ | None => _ end). clearbody cd1.
  set (cd2 := if Installed (Status cd1) && _ then _ else _). clearbody cd2.
  wp_steps.
  all: eexists; split; [emitted_solve|done].
Qed.

Lemma reconcile_installJob_jobCalls ext cd existingJob hiveImage releaseImage sshKey w :
  wp (reconcile_installJob ext cd existingJob hiveImage releaseImage sshKey) w
     (fun _ w' => atMostOneJobCall w w').
Proof.
  unfold reconcile_installJob. wp_steps.
  all: jobCalls_solve.
Qed.

Lemma atMostOneJobCall_status w w1 w2 :
  atMostOneJobCall w w1 ->
  (exists evs, emitted w1 w2 evs /\ jobCalls evs = 0%nat) ->
  atMostOneJobCall w w2.
Proof.
  intros (evs1 & H1 & Hn1) (evs2 & H2 & Hn2). exists (evs1 ++ evs2).
  split; [by eapply emitted_trans|]. rewrite jobCalls_app. lia.
Qed.

Lemma reconcile_job_jobCalls ext cd origCD hiveImage releaseImage sshKey requeueAfter w :
  wp (reconcile_job ext cd origCD hiveImage releaseImage sshKey requeueAfter) w
     (fun _ w' => atMostOneJobCall w w').
Proof.
  assert (forall existingJob cd w,
    wp (c ← reconcile_installJob ext cd existingJob hiveImage releaseImage sshKey;
        match c with
        | inr o => mret o
        | inl cd => reconcile_status ext cd origCD existingJob requeueAfter
        end) w (fun _ w' => atMostOneJobCall w w')) as Hinstall.
  { intros existingJob cd0 w0. apply wp_bind.
    eapply wp_mono; [apply reconcile_installJob_jobCalls|].
    intros c w1 H1. cbn beta. destruct c as [cd1|o]; [|by apply wp_ret].
    eapply wp_mono; [apply reconcile_status_jobCalls|].
    intros o w2 H2. by eapply atMostOneJobCall_status. }
  assert (forall existingJob cd w,
    wp (reconcile_status ext cd origCD existingJob requeueAfter) w
       (fun _ w' => atMostOneJobCall w w')) as Hstatus.
  { intros existingJob cd0 w0.
    eapply wp_mono; [apply reconcile_status_jobCalls|].
    intros o w2 H2. eapply atMostOneJobCall_status; [apply atMostOneJobCall_refl|done]. }
  unfold reconcile_job. apply wp_bind, wp_client_Get.
  - intros Hf. cbn [IsNotFound]. apply wp_out, atMostOneJobCall_refl.
  - intros job Hf Hj.
    destruct (negb (PtrTime_IsZero (JobDeletionTimestamp job))).
    + apply wp_out, atMostOneJobCall_refl.
    + destruct (Installed (Status cd)); [apply Hstatus|apply Hinstall].
  - intros Hf Hj. cbn [IsNotFound].
    destruct (Installed (Status cd)); [apply Hstatus|apply Hinstall].
Qed.

Lemma reconcile_provision_jobCalls ext cd origCD imageSet hiveImage releaseImage requeueAfter w :
  wp (reconcile_provision ext cd origCD imageSet hiveImage releaseImage requeueAfter) w
     (fun _ w' => atMostOneJobCall w w').
Proof.
  unfold reconcile_provision.
  repeat (first
    [lazymatch goal with
     | |- wp (reconcile_job _ _ _ _ _ _ _) _ _ =>
         eapply wp_mono; [apply reconcile_job_jobCalls|]; intros ? ? (? & ? & ?)
     end
    |wp_step]).
  all: try jobCalls_solve.
  all: eexists; split; [eapply emitted_trans; [emitted_solve|eassumption]|].
  all: rewrite ?jobCalls_app; cbn; lia.
Qed.

Ltac wp_steps_upto_provision lem :=
  repeat (first
    [lazymatch goal with
     | |- wp (reconcile_provision _ _ _ _ _ _ _) _ _ =>
         eapply wp_mono; [apply lem|]; intros ? ? (? & ? & ?)
     end
    |wp_step]).

(** Every pass issues at most one call that creates or deletes a job: no
    pass deletes a job and creates one, whatever the store holds and whichever
    calls fail. *)
Theorem Reconcile_atMostOneJobCall (ext : Collaborators) (name : string) (w : World) :
  wp (Reconcile ext name) w
     (fun _ w' => exists evs, emitted w w' evs /\ (jobCalls evs <= 1)%nat).
Proof.
  unfold Reconcile. apply wp_bind, wp_client_Get; cbn [IsNotFound].
  1, 3: intros; apply wp_out; apply atMostOneJobCall_refl.
  intros cd _ _. unfold reconcile.
  destruct (migrateWildcardIngress cd) as [cd' migrated].
  wp_steps_upto_provision reconcile_provision_jobCalls.
  all: try jobCalls_solve.
  all: eexists; split; [eapply emitted_trans; [emitted_solve|eassumption]|].
  all: rewrite ?jobCalls_app; cbn; lia.
Qed.

(** ** The admin kubeconfig secret *)

(** What [fixupAdminKubeconfigSecret] makes of the data of a secret: the raw
    kubeconfig is the value under the raw key, or else the one under the
    kubeconfig key (empty when that is missing too), and the fixed kubeconfig
    is derived from it. *)
Definition rawKubeconfig (data : gmap string string) : string :=
  default (default "" (data !! adminKubeconfigKey)) (data !! rawAdminKubeconfigKey).

Definition fixedData (data : gmap string string) (fixed : string) : gmap string string :=
  <[adminKubeconfigKey := fixed]> (<[rawAdminKubeconfigKey := rawKubeconfig data]> data).

Lemma fixupAdminKubeconfigSecret_run ext secret data fixed w :
  SecretData secret = Some data ->
  FixupKubeconfig ext (rawKubeconfig data) = Ok fixed ->
  let secret' := {| SecretName := SecretName secret;
                    SecretData := Some (fixedData data fixed) |} in
  fixupAdminKubeconfigSecret ext secret w =
  if bool_decide (data = fixedData data fixed) then (secret', None, w)
  else let '(e, w') := client_Update KSecret secrets set_secrets (UpdateSecret secret')
                         (SecretName secret) secret' w in
       (secret', e, w').
Proof.
  intros Hd Hf. unfold fixupAdminKubeconfigSecret, fixedData, rawKubeconfig in *.
  rewrite Hd. cbn zeta.
  assert (forall D : gmap string string,
            bool_decide (Some data = Some D) = bool_decide (data = D)) as Hbd.
  { intros D. apply bool_decide_ext. split; congruence. }
  destruct (data !! rawAdminKubeconfigKey) as [raw|] eqn:Er; cbn [default from_option id] in *.
  - rewrite Hf. rewrite (insert_id data rawAdminKubeconfigKey raw Er).
    cbn [SecretData SecretName]. rewrite Hbd.
    destruct (bool_decide (data = _)); [done|].
    rewrite run_bind. by destruct (client_Update _ _ _ _ _ _ w).
  - rewrite Hf. cbn [SecretData SecretName]. rewrite Hbd.
    destruct (bool_decide (data = _)); [done|].
    rewrite run_bind. by destruct (client_Update _ _ _ _ _ _ w).
Qed.

Lemma rawKubeconfig_fixedData data fixed :
  rawKubeconfig (fixedData data fixed) = rawKubeconfig data.
Proof.
  unfold rawKubeconfig at 1, fixedData.
  rewrite (lookup_insert_ne _ adminKubeconfigKey rawAdminKubeconfigKey) by done.
  by rewrite !lookup_insert_eq.
Qed.

Lemma fixedData_idemp data fixed :
  fixedData (fixedData data fixed) fixed = fixedData data fixed.
Proof.
  unfold fixedData at 1. rewrite rawKubeconfig_fixedData. unfold fixedData.
  apply map_eq. intros k.
  destruct (decide (k = adminKubeconfigKey)) as [->|];
    [by rewrite !lookup_insert_eq|].
  rewrite !(lookup_insert_ne _ adminKubeconfigKey) by done.
  destruct (decide (k = rawAdminKubeconfigKey)) as [->|];
    [by rewrite !lookup_insert_eq|].
  by rewrite !lookup_insert_ne by done.
Qed.

Lemma fixupAdminKubeconfigSecret_spec
    (ext : Collaborators) (secret secret' : Secret) (w w' : World) :
  fixupAdminKubeconfigSecret ext secret w = (secret', None, w') ->
  exists data fixed,
    SecretData secret = Some data /\
    FixupKubeconfig ext (rawKubeconfig data) = Ok fixed /\
    secret' = {| SecretName := SecretName secret;
                 SecretData := Some (fixedData data fixed) |} /\
    forall w2, fixupAdminKubeconfigSecret ext secret' w2 = (secret', None, w2).
Proof.
  intros Hrun.
  destruct (SecretData secret) as [data|] eqn:Hd;
    [|unfold fixupAdminKubeconfigSecret in Hrun; rewrite Hd in Hrun; discriminate].
  destruct (FixupKubeconfig ext (rawKubeconfig data)) as [fixed|e] eqn:Hf.
  2: { unfold fixupAdminKubeconfigSecret, rawKubeconfig in *. rewrite Hd in Hrun.
       cbn zeta in Hrun.
       destruct (data !! rawAdminKubeconfigKey); cbn [default from_option id] in *;
         rewrite Hf in Hrun; discriminate. }
  rewrite (fixupAdminKubeconfigSecret_run _ _ _ _ _ Hd Hf) in Hrun.
  exists data, fixed. split; [done|]. split; [done|].
  assert (secret' = {| SecretName := SecretName secret;
                       SecretData := Some (fixedData data fixed) |}) as Hs'.
  { case_bool_decide; [by simplify_eq|].
    destruct (client_Update _ _ _ _ _ _ w). by simplify_eq. }
  split; [done|].
  intros w2. subst secret'.
  rewrite (fixupAdminKubeconfigSecret_run _ _ (fixedData data fixed) fixed);
    cbn [SecretData SecretName].
  - rewrite fixedData_idemp. by rewrite bool_decide_eq_true_2.
  - done.
  - by rewrite rawKubeconfig_fixedData.
Qed.

(** [fixupAdminKubeconfigSecret] keeps the raw kubeconfig and is a no-op on
    its own result.  When it returns without error for a secret with data
    [data], the returned secret has the same name; its raw key holds the raw
    kubeconfig of [data] (the value that was under the raw key or, without
    one, under the kubeconfig key), its kubeconfig key holds the fix-up of
    that raw kubeconfig and every other key is as before; an update of the
    secret was issued only if that changed the data.  Applied to the secret
    it returned, in any state of the store, it returns the same secret
    without error and without issuing a call. *)
Theorem fixupAdminKubeconfigSecret_fixed_point
    (ext : Collaborators) (secret secret' : Secret) (w w' : World) :
  fixupAdminKubeconfigSecret ext secret w = (secret', None, w') ->
  exists data fixed,
    SecretData secret = Some data /\
    FixupKubeconfig ext (rawKubeconfig data) = Ok fixed /\
    secret' = {| SecretName := SecretName secret;
                 SecretData := Some (fixedData data fixed) |} /\
    fixedData data fixed !! rawAdminKubeconfigKey = Some (rawKubeconfig data) /\
    fixedData data fixed !! adminKubeconfigKey = Some fixed /\
    (forall k, k <> rawAdminKubeconfigKey -> k <> adminKubeconfigKey ->
               fixedData data fixed !! k = data !! k) /\
    (emitted w w' [] /\ data = fixedData data fixed \/
     emitted w w' [UpdateSecret secret'] /\ data <> fixedData data fixed) /\
    forall w2, fixupAdminKubeconfigSecret ext secret' w2 = (secret', None, w2).
Proof.
  intros Hrun.
  destruct (fixupAdminKubeconfigSecret_spec _ _ _ _ _ Hrun)
    as (data & fixed & Hd & Hf & Hs' & Hidem).
  exists data, fixed. split; [done|]. split; [done|]. split; [done|].
  split; [unfold fixedData; rewrite lookup_insert_ne by done; apply lookup_insert_eq|].
  split; [apply lookup_insert_eq|].
  split; [intros k H1 H2; unfold fixedData; by rewrite !lookup_insert_ne by done|].
  split; [|done].
  rewrite (fixupAdminKubeconfigSecret_run _ _ _ _ _ Hd Hf) in Hrun.
  case_bool_decide as Hc; [left; simplify_eq; split; [apply emitted_nil|done]|].
  right. split; [|done]. rewrite <- Hs' in Hrun.
  revert Hrun. unfold client_Update. rewrite !run_bind. cbn.
  destruct (faults w VUpdate KSecret (SecretName secret)); cbn; [discriminate|].
  destruct (secrets w !! SecretName secret); intros; simplify_eq; done.
Qed.

Definition fixup_secret : Secret :=
  testSecret adminKubeconfigSecret adminKubeconfigKey adminKubeconfig.

Lemma fixupAdminKubeconfigSecret_fixed_point_witness :
  let w := testWorld [] [] [fixup_secret] [] in
  let r := fixupAdminKubeconfigSecret testCollaborators fixup_secret w in
  r.1.2 = None /\
  forall w2, fixupAdminKubeconfigSecret testCollaborators r.1.1 w2 = (r.1.1, None, w2).
Proof.
  intros w r. subst r.
  destruct (fixupAdminKubeconfigSecret testCollaborators fixup_secret w)
    as [[secret' e] w'] eqn:Hrun.
  assert (e = None) as ->.
  { change e with (secret', e, w').1.2. rewrite <- Hrun. vm_compute. reflexivity. }
  split; [reflexivity|].
  destruct (fixupAdminKubeconfigSecret_fixed_point _ _ _ _ _ Hrun)
    as (data & fixed & _ & _ & _ & _ & _ & _ & _ & Hidem).
  exact Hidem.
Defined.

(** ** What status convergence writes *)

(** [cd'] differs from [cd] in its status at most. *)
Definition sameButStatus (cd cd' : ClusterDeployment) : Prop :=
  cd' = set_Status (Status cd') cd.

Lemma sameButStatus_refl cd : sameButStatus cd cd.
Proof. by destruct cd. Qed.

Lemma sameButStatus_set st cd cd' :
  sameButStatus cd cd' -> sameButStatus cd (set_Status st cd').
Proof. unfold sameButStatus. intros ->. done. Qed.

Lemma setAdminKubeconfigStatus_sameButStatus ext cd0 cd secret :
  sameButStatus cd0 cd ->
  sameButStatus cd0 (setAdminKubeconfigStatus ext cd secret).1.
Proof.
  intros H. unfold setAdminKubeconfigStatus.
  repeat (match goal with
          | |- context [if ?b then _ else _] => destruct b
          | |- context [match ?x with _ => _ end] => destruct x
          end; cbn [fst]; try done; try by repeat apply sameButStatus_set).
Qed.

(** The calls of one status convergence: at most one update of the admin
    kubeconfig secret, then at most one status update, of an object that
    differs from [cd] in its status at most and whose status is not that of
    [origCD]. *)
Inductive statusCalls (cd origCD : ClusterDeployment) : list Call -> Prop :=
  | sc_none : statusCalls cd origCD []
  | sc_secret s : statusCalls cd origCD [UpdateSecret s]
  | sc_status cd' :
      sameButStatus cd cd' -> Status cd' <> Status origCD ->
      statusCalls cd origCD [StatusUpdateCD cd']
  | sc_secret_status s cd' :
      sameButStatus cd cd' -> Status cd' <> Status origCD ->
      statusCalls cd origCD [UpdateSecret s; StatusUpdateCD cd'].

(** [updateClusterDeploymentStatus] persists the status only if it differs
    from the status of [origCD], the object fetched at the start of the
    pass: it issues at most one update of the admin kubeconfig secret and
    then at most one status update, which carries a status other than that
    of [origCD] on an object that differs from [cd] in its status at most.
    No other call is issued, whatever the store holds and whichever calls
    fail. *)
Theorem updateClusterDeploymentStatus_calls
    (ext : Collaborators) (cd origCD : ClusterDeployment) (job : option Job) (w : World) :
  wp (updateClusterDeploymentStatus ext cd origCD job) w
     (fun _ w' => exists evs, emitted w w' evs /\ statusCalls cd origCD evs).
Proof.
  unfold updateClusterDeploymentStatus.
  set (cd1 := match job with Some _ => _ | None => _ end).
  assert (sameButStatus cd cd1) as H1.
  { subst cd1. destruct job as [j|]; [|apply sameButStatus_refl].
    destruct (_ && _); [apply sameButStatus_set|]; apply sameButStatus_refl. }
  clearbody cd1.
  set (cd2 := if Installed (Status cd1) && _ then _ else _).
  assert (sameButStatus cd cd2) as H2.
  { subst cd2. destruct (_ && _); [by apply sameButStatus_set|done]. }
  clearbody cd2. clear H1 cd1.
  wp_steps.
  all: repeat match goal with
         | H : setAdminKubeconfigStatus ?e ?c ?s = _ |- _ =>
             let Hs := fresh in
             pose proof (setAdminKubeconfigStatus_sameButStatus e cd c s H2) as Hs;
             rewrite H in Hs; cbn [fst] in Hs; clear H
         end.
  all: simplify_eq.
  all: repeat match goal with
         | H : bool_decide _ = true |- _ => apply bool_decide_eq_true in H
         end.
  all: eexists; split; [emitted_solve|]; by constructor.
Qed.

(** ** Status convergence at a fixed point *)

(** The steps of [updateClusterDeploymentStatus]: the success of the observed
    job is recorded, a missing name of the admin kubeconfig secret is healed,
    the secret is fixed up and the URLs are read from it, and the status is
    persisted if it changed. *)
Definition statusObserved (ext : Collaborators) (cd : ClusterDeployment) (job : option Job)
    : ClusterDeployment :=
  match job with
  | Some job =>
      if bool_decide (JobName job <> "") && bool_decide (JobNamespace job <> "")
      then set_Status (set_Installed (IsSuccessful ext job) (Status cd)) cd
      else cd
  | None => cd
  end.

Definition statusHealed (ext : Collaborators) (cd : ClusterDeployment) : ClusterDeployment :=
  if Installed (Status cd) && bool_decide (AdminKubeconfigSecret (Status cd) = "")
  then set_Status (set_AdminKubeconfigSecret
                     (GetResourceName ext (Name cd) "admin-kubeconfig") (Status cd)) cd
  else cd.

Definition kubeconfigStep (ext : Collaborators) (cd : ClusterDeployment)
    : M (ClusterDeployment * option error) :=
  if bool_decide (AdminKubeconfigSecret (Status cd) <> "")
  then
    r ← client_Get KSecret secrets (AdminKubeconfigSecret (Status cd));
    match r with
    | Err e => if IsNotFound e then mret (cd, None) else mret (cd, Some e)
    | Ok adminKubeconfigSecret =>
        '(adminKubeconfigSecret, e) ← fixupAdminKubeconfigSecret ext adminKubeconfigSecret;
        match e with
        | Some e => mret (cd, Some e)
        | None => mret (setAdminKubeconfigStatus ext cd adminKubeconfigSecret)
        end
    end
  else mret (cd, None).

Lemma updateClusterDeploymentStatus_steps ext cd origCD job :
  updateClusterDeploymentStatus ext cd origCD job =
  ('(cd, e) ← kubeconfigStep ext (statusHealed ext (statusObserved ext cd job));
   match e with
   | Some e => mret (Some e)
   | None =>
       if bool_decide (Status cd <> Status origCD)
       then client_StatusUpdate_cd cd
       else mret None
   end).
Proof. reflexivity. Qed.

Lemma set_Installed_id cd :
  set_Status (set_Installed (Installed (Status cd)) (Status cd)) cd = cd.
Proof. by destruct cd as [? ? ? ? ? ? ? ? []]. Qed.

Lemma set_AdminKubeconfigSecret_id cd :
  set_Status (set_AdminKubeconfigSecret (AdminKubeconfigSecret (Status cd)) (Status cd)) cd = cd.
Proof. by destruct cd as [? ? ? ? ? ? ? ? []]. Qed.

Lemma statusObserved_fixed ext cd job c :
  Installed (Status c) = Installed (Status (statusObserved ext cd job)) ->
  statusObserved ext c job = c.
Proof.
  unfold statusObserved. destruct job as [j|]; [|done].
  destruct (_ && _); [|done]. cbn. intros <-. apply set_Installed_id.
Qed.

Lemma statusHealed_fixed ext cd c :
  Name c = Name cd -> Installed (Status c) = Installed (Status cd) ->
  AdminKubeconfigSecret (Status c) = AdminKubeconfigSecret (Status (statusHealed ext cd)) ->
  statusHealed ext c = c.
Proof.
  unfold statusHealed. intros Hn Hi. rewrite Hi, Hn.
  destruct (Installed (Status cd)); [|done]. cbn [andb].
  case_bool_decide as Hcd; cbn.
  - intros Hc. case_bool_decide as Hc'; [|done].
    rewrite <- Hc. apply set_AdminKubeconfigSecret_id.
  - intros Hc. rewrite bool_decide_eq_false_2 by congruence. done.
Qed.

Lemma statusObserved_sameButStatus ext cd job : sameButStatus cd (statusObserved ext cd job).
Proof.
  unfold statusObserved. destruct job as [j|]; [|apply sameButStatus_refl].
  destruct (_ && _); [apply sameButStatus_set|]; apply sameButStatus_refl.
Qed.

Lemma statusHealed_sameButStatus ext cd0 cd :
  sameButStatus cd0 cd -> sameButStatus cd0 (statusHealed ext cd).
Proof.
  intros H. unfold statusHealed. destruct (_ && _); [by apply sameButStatus_set|done].
Qed.

Lemma statusHealed_Installed ext cd :
  Installed (Status (statusHealed ext cd)) = Installed (Status cd).
Proof. unfold statusHealed. by destruct (_ && _). Qed.

Lemma sameButStatus_Name cd cd' : sameButStatus cd cd' -> Name cd' = Name cd.
Proof. by intros ->. Qed.

Lemma sameButStatus_trans cd1 cd2 cd3 :
  sameButStatus cd1 cd2 -> sameButStatus cd2 cd3 -> sameButStatus cd1 cd3.
Proof. unfold sameButStatus. intros -> ->. done. Qed.

(** [setAdminKubeconfigStatus] changes the two URLs only, and is a no-op on
    its own result. *)
Lemma setAdminKubeconfigStatus_fixed ext cd secret c :
  setAdminKubeconfigStatus ext cd secret = (c, None) ->
  setAdminKubeconfigStatus ext c secret = (c, None) /\
  sameButStatus cd c /\
  Installed (Status c) = Installed (Status cd) /\
  AdminKubeconfigSecret (Status c) = AdminKubeconfigSecret (Status cd) /\
  Conditions (Status c) = Conditions (Status cd) /\
  StatusInstallerImage (Status c) = StatusInstallerImage (Status cd).
Proof.
  unfold setAdminKubeconfigStatus.
  destruct (bool_decide (WebConsoleURL (Status cd) = "") || bool_decide (APIURL (Status cd) = ""))
    eqn:Hc.
  2: { intros [= <-]. rewrite Hc. repeat split. apply sameButStatus_refl. }
  set (kubeconfig := default "" _). clearbody kubeconfig.
  destruct (remoteClusterAPIClientBuilder ext kubeconfig) as [[host|?]|?] eqn:Hr; try done.
  all: destruct (clientcmd_Load ext kubeconfig) as [clusters|?] eqn:Hl; try done.
  all: destruct (clusters !! ClusterName (Spec cd)) as [server|] eqn:Hs; try done.
  intros [= <-]. cbn [Status set_Status WebConsoleURL APIURL set_WebConsoleURL set_APIURL
                      Spec ClusterName].
  split; [|repeat split; by repeat apply sameButStatus_set; apply sameButStatus_refl].
  destruct (bool_decide ("https://" +:+ host = "") || bool_decide (server = "")); [|done].
  rewrite Hs. done.
Qed.

(** Every secret is stored under its own name. *)
Definition secretsNamed (w : World) : Prop :=
  forall k s, secrets w !! k = Some s -> SecretName s = k.

(** [w1] differs from [w] at most in the ClusterDeployments, the secrets and
    the trace. *)
Definition sameBut (w w1 : World) : Prop :=
  jobs w1 = jobs w /\ configMaps w1 = configMaps w /\ dnsZones w1 = dnsZones w /\
  deprovisionRequests w1 = deprovisionRequests w /\
  clusterImageSets w1 = clusterImageSets w /\ namespaces w1 = namespaces w /\
  pods w1 = pods w /\ clock w1 = clock w /\ ticks w1 = ticks w /\ faults w1 = faults w.

Lemma sameBut_refl w : sameBut w w.
Proof. by repeat split. Qed.

Lemma sameBut_trans w1 w2 w3 : sameBut w1 w2 -> sameBut w2 w3 -> sameBut w1 w3.
Proof.
  intros (?&?&?&?&?&?&?&?&?&?) (?&?&?&?&?&?&?&?&?&?). repeat split; congruence.
Qed.

(** The secrets after a fix-up: as before, or with the one secret of name [k]
    replaced by its fixed form. *)
Definition secretsFixed (w w1 : World) : Prop :=
  secrets w1 = secrets w \/
  exists k s data fixed,
    secrets w !! k = Some s /\ SecretData s = Some data /\
    secrets w1 = <[k := {| SecretName := k; SecretData := Some (fixedData data fixed) |}]>
                   (secrets w).

Lemma fixupAdminKubeconfigSecret_world ext secret secret' w w' :
  fixupAdminKubeconfigSecret ext secret w = (secret', None, w') ->
  w' = w /\ secret' = secret \/
  is_Some (secrets w !! SecretName secret) /\
  w' = set_secrets (insert (SecretName secret) secret')
         (set_trace (trace w ++ [UpdateSecret secret']) w).
Proof.
  intros Hrun.
  destruct (fixupAdminKubeconfigSecret_spec _ _ _ _ _ Hrun)
    as (data & fixed & Hd & Hf & Hs' & _).
  rewrite (fixupAdminKubeconfigSecret_run _ _ _ _ _ Hd Hf) in Hrun.
  case_bool_decide as Hc.
  - left. simplify_eq. split; [done|]. destruct secret; cbn in *. congruence.
  - right. rewrite <- Hs' in Hrun. revert Hrun.
    unfold client_Update. rewrite !run_bind. cbn.
    destruct (faults w VUpdate KSecret (SecretName secret)); cbn; [discriminate|].
    destruct (secrets w !! SecretName secret); intros; simplify_eq. by split.
Qed.

Lemma kubeconfigStep_fixed ext cd w c w1 :
  secretsNamed w ->
  kubeconfigStep ext cd w = (c, None, w1) ->
  sameButStatus cd c /\
  Installed (Status c) = Installed (Status cd) /\
  AdminKubeconfigSecret (Status c) = AdminKubeconfigSecret (Status cd) /\
  Conditions (Status c) = Conditions (Status cd) /\
  StatusInstallerImage (Status c) = StatusInstallerImage (Status cd) /\
  sameBut w w1 /\ clusterDeployments w1 = clusterDeployments w /\
  secretsFixed w w1 /\
  (exists evs, emitted w w1 evs) /\
  forall w2, faults w2 = faults w1 -> secrets w2 = secrets w1 ->
             kubeconfigStep ext c w2 = (c, None, w2).
Proof.
  intros Hnamed. unfold kubeconfigStep.
  case_bool_decide as Hk.
  2: { intros [= <- <-].
       split_and!; [apply sameButStatus_refl|done|done|done|done|apply sameBut_refl|done
                   |by left|exists []; apply emitted_nil|].
       intros w2 _ _. by rewrite bool_decide_eq_false_2 by (intros H; by apply H). }
  rewrite run_bind, client_Get_run.
  destruct (faults w VGet KSecret (AdminKubeconfigSecret (Status cd))) eqn:Hf;
    cbn [fst snd IsNotFound]; [discriminate|].
  destruct (secrets w !! AdminKubeconfigSecret (Status cd)) as [s|] eqn:Hs;
    cbn [IsNotFound].
  2: { intros [= <- <-].
       split_and!; [apply sameButStatus_refl|done|done|done|done|apply sameBut_refl|done
                   |by left|exists []; apply emitted_nil|].
       intros w2 Hf2 Hs2. rewrite bool_decide_eq_true_2 by done.
       rewrite run_bind, client_Get_run, Hf2, Hf, Hs2, Hs. done. }
  rewrite run_bind.
  destruct (fixupAdminKubeconfigSecret ext s w) as [[s' e] w'] eqn:Hfix.
  destruct e as [e|]; [discriminate|]. cbn.
  destruct (setAdminKubeconfigStatus ext cd s') as [c' e'] eqn:Hset.
  intros [= -> -> ->].
  destruct (setAdminKubeconfigStatus_fixed _ _ _ _ Hset) as (Hset2 & Hsb & Hi & Ha & Hco & Him).
  destruct (fixupAdminKubeconfigSecret_spec _ _ _ _ _ Hfix)
    as (data & fixed & Hd & Hfx & Hs' & Hidem).
  pose proof (Hnamed _ _ Hs) as Hname.
  assert (sameBut w w1 /\ clusterDeployments w1 = clusterDeployments w /\
          secretsFixed w w1 /\ (exists evs, emitted w w1 evs) /\
          faults w1 = faults w /\
          secrets w1 !! AdminKubeconfigSecret (Status cd) = Some s') as (H1 & H2 & H3 & H4 & H5 & H6).
  { destruct (fixupAdminKubeconfigSecret_world _ _ _ _ _ Hfix) as [[-> ->]|[_ ->]].
    - split_and!; [apply sameBut_refl|done|by left|exists []; apply emitted_nil|done|done].
    - split_and!; [by repeat split|done| |eexists; emitted_solve|done|].
      + right. exists (AdminKubeconfigSecret (Status cd)), s, data, fixed.
        split; [done|]. split; [done|]. cbn. rewrite Hname, Hs'. by rewrite Hname.
      + cbn. rewrite Hname. apply lookup_insert_eq. }
  split_and!; try done.
  intros w2 Hf2 Hs2. rewrite Ha, bool_decide_eq_true_2 by done.
  rewrite run_bind, client_Get_run, Hf2, H5, Hf, Hs2, H6. cbn [fst snd].
  rewrite run_bind, Hidem. cbn. by rewrite Hset2.
Qed.

Lemma client_StatusUpdate_cd_ok cd w w1 :
  client_StatusUpdate_cd cd w = (None, w1) ->
  exists stored,
    clusterDeployments w !! Name cd = Some stored /\
    w1 = set_clusterDeployments (insert (Name cd) (set_Status (Status cd) stored))
           (set_trace (trace w ++ [StatusUpdateCD cd]) w).
Proof.
  unfold client_StatusUpdate_cd. rewrite !run_bind. cbn.
  destruct (faults w VStatusUpdate KClusterDeployment (Name cd)); cbn; [discriminate|].
  destruct (clusterDeployments w !! Name cd) as [stored|]; [|discriminate].
  intros [= <-]. by exists stored.
Qed.

Lemma updateClusterDeploymentStatus_converged ext cd origCD job w w1 :
  clusterDeployments w !! Name cd = Some origCD ->
  sameButStatus origCD cd ->
  secretsNamed w ->
  updateClusterDeploymentStatus ext cd origCD job w = (None, w1) ->
  exists cdF,
    clusterDeployments w1 = <[Name cd := cdF]> (clusterDeployments w) /\
    sameButStatus cd cdF /\
    Installed (Status cdF) = Installed (Status (statusObserved ext cd job)) /\
    Conditions (Status cdF) = Conditions (Status cd) /\
    StatusInstallerImage (Status cdF) = StatusInstallerImage (Status cd) /\
    sameBut w w1 /\ secretsFixed w w1 /\ (exists evs, emitted w w1 evs) /\
    forall w2, faults w2 = faults w1 -> secrets w2 = secrets w1 ->
               updateClusterDeploymentStatus ext cdF cdF job w2 = (None, w2).
Proof.
  intros Hstored Hsb Hnamed. rewrite updateClusterDeploymentStatus_steps, run_bind.
  set (cd1 := statusObserved ext cd job).
  destruct (kubeconfigStep ext (statusHealed ext cd1) w) as [[c e] w'] eqn:Hk.
  destruct e as [e|]; [discriminate|]. cbn [fst snd].
  destruct (kubeconfigStep_fixed _ _ _ _ _ Hnamed Hk)
    as (Hsbc & Hi & Ha & Hco & Him & Hw & Hcds & Hsec & Hev & Hidem).
  assert (sameButStatus cd (statusHealed ext cd1)) as Hsb2.
  { apply statusHealed_sameButStatus, statusObserved_sameButStatus. }
  assert (sameButStatus cd c) as Hcdc by (by eapply sameButStatus_trans).
  assert (sameButStatus origCD c) as Hoc by (by eapply sameButStatus_trans).
  assert (Conditions (Status c) = Conditions (Status cd) /\
          StatusInstallerImage (Status c) = StatusInstallerImage (Status cd)) as [Hco' Him'].
  { rewrite Hco, Him. unfold statusHealed, cd1, statusObserved.
    destruct job as [j|]; repeat (destruct (_ && _)); done. }
  assert (forall w2, faults w2 = faults w' -> secrets w2 = secrets w' ->
            updateClusterDeploymentStatus ext c c job w2 = (None, w2)) as Hpass2.
  { intros w2 Hf2 Hs2. rewrite updateClusterDeploymentStatus_steps, run_bind.
    rewrite (statusObserved_fixed ext cd job c)
      by (by rewrite Hi, statusHealed_Installed).
    rewrite (statusHealed_fixed ext cd1 c);
      [|rewrite (sameButStatus_Name _ _ Hcdc); symmetry;
        apply sameButStatus_Name, statusObserved_sameButStatus
       |by rewrite Hi, statusHealed_Installed|done].
    rewrite (Hidem w2 Hf2 Hs2). cbn [fst snd].
    by rewrite bool_decide_eq_false_2 by (intros H; by apply H). }
  case_bool_decide as Hne.
  - intros Hupd. destruct (client_StatusUpdate_cd_ok _ _ _ Hupd) as (stored & Hst & ->).
    rewrite Hcds, (sameButStatus_Name _ _ Hcdc), Hstored in Hst. simplify_eq.
    exists c. cbn. rewrite Hcds, (sameButStatus_Name _ _ Hcdc), <- Hoc.
    split_and!; try done.
    + by rewrite Hi, statusHealed_Installed.
    + destruct Hev as [evs Hev]. eexists. unfold emitted in *. cbn. rewrite Hev.
      by rewrite <- app_assoc.
  - intros [= <-]. exists c.
    assert (c = origCD) as Heq.
    { rewrite Hoc. rewrite Hne. by destruct origCD. }
    split_and!; try done.
    + rewrite Hcds, Heq. by rewrite insert_id.
    + by rewrite Hi, statusHealed_Installed.
Qed.

(** Status convergence is idempotent.  When [updateClusterDeploymentStatus]
    completes without error for a ClusterDeployment [cd] that differs at most
    in its status from [origCD], the object that the store holds under its
    name (every secret being stored under its own name), the store then
    holds an object [cdF] that differs from [cd] in its status at most, and
    converging [cdF] against itself with the same job returns without error,
    issues no call and leaves the store as it is. *)
Theorem updateClusterDeploymentStatus_idempotent
    (ext : Collaborators) (cd origCD : ClusterDeployment) (job : option Job)
    (w w1 : World) :
  clusterDeployments w !! Name cd = Some origCD ->
  sameButStatus origCD cd ->
  secretsNamed w ->
  updateClusterDeploymentStatus ext cd origCD job w = (None, w1) ->
  exists cdF,
    clusterDeployments w1 !! Name cd = Some cdF /\
    sameButStatus cd cdF /\
    updateClusterDeploymentStatus ext cdF cdF job w1 = (None, w1).
Proof.
  intros Hstored Hsb Hnamed Hrun.
  destruct (updateClusterDeploymentStatus_converged _ _ _ _ _ _ Hstored Hsb Hnamed Hrun)
    as (cdF & Hcds & HsbF & _ & _ & _ & _ & _ & _ & Hidem).
  exists cdF. split; [by rewrite Hcds, lookup_insert_eq|]. split; [done|].
  by apply Hidem.
Qed.

Definition converging_world : World :=
  testWorld [testClusterDeployment] [testCompletedInstallJob]
    (fixup_secret :: testSecrets) [].

Lemma converging_world_secretsNamed : secretsNamed converging_world.
Proof.
  assert (map_Forall (fun k s => SecretName s = k) (secrets converging_world)) as H.
  { apply (bool_decide_unpack
             (map_Forall (fun (k : string) s => SecretName s = k) (secrets converging_world))).
    vm_compute. exact I. }
  exact H.
Qed.

Lemma updateClusterDeploymentStatus_idempotent_witness :
  let job := Some testCompletedInstallJob in
  let r := updateClusterDeploymentStatus testCollaborators testClusterDeployment
             testClusterDeployment job converging_world in
  r.1 = None /\
  exists cdF,
    clusterDeployments r.2 !! testName = Some cdF /\
    sameButStatus testClusterDeployment cdF /\
    updateClusterDeploymentStatus testCollaborators cdF cdF job r.2 = (None, r.2).
Proof.
  intros job r. subst r.
  destruct (updateClusterDeploymentStatus testCollaborators testClusterDeployment
              testClusterDeployment job converging_world) as [e w1] eqn:Hrun.
  assert (e = None) as ->.
  { change e with (e, w1).1. rewrite <- Hrun. vm_compute. reflexivity. }
  split; [reflexivity|].
  apply (updateClusterDeploymentStatus_idempotent testCollaborators testClusterDeployment
           testClusterDeployment job converging_world w1).
  - reflexivity.
  - reflexivity.
  - apply converging_world_secretsNamed.
  - exact Hrun.
Defined.

(** ** Reconciling a converged, installed ClusterDeployment *)

Lemma Reconcile_installed ext name cd w imageSet sshKey job :
  Provisionable ext name cd w imageSet sshKey ->
  Installed (Status cd) = true ->
  installJobIs ext cd w job ->
  (forall j, job = Some j -> PtrTime_IsZero (JobDeletionTimestamp j) = true) ->
  exists requeueAfter n,
    Reconcile ext name w = reconcile_status ext cd cd job requeueAfter (advance n w).
Proof.
  intros Hp Hi [Hf Hj] Hterm.
  destruct (Reconcile_provisionable _ _ _ _ _ _ Hp) as (rq & n & _ & ->).
  exists rq, n. unfold reconcile_job.
  rewrite run_bind, client_Get_run, advance_faults, Hf, advance_jobs, Hj.
  destruct job as [j|]; cbn [fst snd IsNotFound].
  - rewrite (Hterm j eq_refl). cbn [negb]. by rewrite Hi.
  - by rewrite Hi.
Qed.

Lemma expiryStep_sameButStatus ext cd cd' w w' :
  sameButStatus cd cd' -> clock w' = clock w -> ticks w' = ticks w ->
  expiryStep ext cd' w' = expiryStep ext cd w.
Proof. intros -> Hc Ht. unfold expiryStep. cbn. by rewrite Hc, Ht. Qed.

Lemma fixedData_other data fixed k :
  k <> rawAdminKubeconfigKey -> k <> adminKubeconfigKey ->
  fixedData data fixed !! k = data !! k.
Proof. intros. unfold fixedData. by rewrite !lookup_insert_ne by done. Qed.

Lemma sshKeyLoaded_fixed cd cd' w w' sshKey :
  sameButStatus cd cd' -> faults w' = faults w -> secretsFixed w w' ->
  sshKeyLoaded cd w sshKey -> sshKeyLoaded cd' w' sshKey.
Proof.
  intros -> Hf Hsec (k & s & Hk & Hfk & Hs & Hd). unfold sshKeyLoaded. cbn.
  destruct Hsec as [->|(k0 & s0 & data & fixed & Hs0 & Hd0 & ->)].
  - exists k, s. by rewrite Hf.
  - destruct (decide (k0 = k)) as [->|Hne].
    + eexists k, _. rewrite Hf, lookup_insert_eq. split_and!; try done.
      simplify_eq. rewrite Hd0 in Hd. cbn [SecretData from_option] in *.
      by rewrite fixedData_other.
    + exists k, s. rewrite Hf, lookup_insert_ne by done. done.
Qed.

Lemma Provisionable_converged ext name cd cdF w w1 imageSet sshKey :
  Name cd = name ->
  sameButStatus cd cdF ->
  Conditions (Status cdF) = Conditions (Status cd) ->
  StatusInstallerImage (Status cdF) = StatusInstallerImage (Status cd) ->
  sameBut w w1 -> secretsFixed w w1 ->
  clusterDeployments w1 = <[Name cd := cdF]> (clusterDeployments w) ->
  Provisionable ext name cd w imageSet sshKey ->
  Provisionable ext name cdF w1 imageSet sshKey.
Proof.
  intros Hn Hsb Hco Him (Hj & Hcm & Hz & Hr & His & Hns & Hp & Hc & Ht & Hf) Hsec Hcds [].
  split.
  - by rewrite Hf.
  - by rewrite Hcds, Hn, lookup_insert_eq.
  - by rewrite Hsb.
  - by rewrite Hsb.
  - unfold imageSetStep in *. rewrite Hf, His, Hco.
    replace (ImageSet (Spec cdF)) with (ImageSet (Spec cd)) by (by rewrite Hsb). done.
  - intros k. rewrite (expiryStep_sameButStatus ext cd cdF (set_ticks k w)); done.
  - by rewrite Hsb.
  - by eapply sshKeyLoaded_fixed.
  - by rewrite Him.
  - unfold dnsReady in *. rewrite Hf, Hz.
    replace (Spec cdF) with (Spec cd) by (by rewrite Hsb).
    replace (Name cdF) with (Name cd) by (by rewrite Hsb). done.
Qed.

Lemma advance_set_ticks n w : advance n w = set_ticks (ticks (advance n w)) w.
Proof. destruct n; [by destruct w|done]. Qed.

Lemma reconcile_status_ok ext cd origCD job requeueAfter w o w1 :
  reconcile_status ext cd origCD job requeueAfter w = (o, w1) ->
  err o = None ->
  updateClusterDeploymentStatus ext cd origCD job w = (None, w1) /\ exit o = ExEnd.
Proof.
  unfold reconcile_status. rewrite run_bind.
  destruct (updateClusterDeploymentStatus ext cd origCD job w) as [[e|] w'];
    cbn [fst snd].
  - intros [= <- <-]. discriminate.
  - case_bool_decide; intros [= <- <-]; done.
Qed.

Lemma reconcile_status_noop ext cd job requeueAfter w :
  updateClusterDeploymentStatus ext cd cd job w = (None, w) ->
  exists o, reconcile_status ext cd cd job requeueAfter w = (o, w) /\
            err o = None /\ exit o = ExEnd.
Proof.
  intros H. unfold reconcile_status. rewrite run_bind, H. cbn [fst snd].
  case_bool_decide; by eexists.
Qed.

(** Reconciliation is idempotent at a fixed point.  Let the ClusterDeployment
    be stored under its name, pass every step of a pass up to the lookup of
    the install job, and be installed; let the install job be absent or not
    terminating and, if the pass observes it, successful; let every secret be
    stored under its own name, and let the name of the install job not depend
    on the status.  If a pass completes without error, then the next pass
    completes without error at the final return and issues no call: it
    leaves the store as it is, but for the readings of the clock. *)
Theorem Reconcile_idempotent
    (ext : Collaborators) (name : string) (cd : ClusterDeployment) (w w1 : World)
    (imageSet : option ClusterImageSet) (sshKey : string) (job : option Job)
    (o1 : Outcome) :
  Provisionable ext name cd w imageSet sshKey ->
  Name cd = name ->
  Installed (Status cd) = true ->
  secretsNamed w ->
  installJobIs ext cd w job ->
  (forall j, job = Some j -> PtrTime_IsZero (JobDeletionTimestamp j) = true) ->
  default true (observedSuccess ext job) = true ->
  (forall st, GetInstallJobName ext (set_Status st cd) = GetInstallJobName ext cd) ->
  Reconcile ext name w = (o1, w1) ->
  err o1 = None ->
  exists o2 w2,
    Reconcile ext name w1 = (o2, w2) /\
    err o2 = None /\ exit o2 = ExEnd /\
    trace w2 = trace w1 /\ w2 = set_ticks (ticks w2) w1.
Proof.
  intros Hp Hn Hi Hnamed Hjob Hterm Hobs Hjn Hrun Herr.
  destruct (Reconcile_installed _ _ _ _ _ _ _ Hp Hi Hjob Hterm) as (rq & n & Hpass1).
  rewrite Hpass1 in Hrun.
  destruct (reconcile_status_ok _ _ _ _ _ _ _ _ Hrun Herr) as [Hupd _].
  destruct (updateClusterDeploymentStatus_converged ext cd cd job (advance n w) w1)
    as (cdF & Hcds & Hsb & HiF & Hco & Him & Hw & Hsec & _ & Hidem); try done.
  { destruct Hp. by destruct n; cbn; rewrite Hn. }
  { apply sameButStatus_refl. }
  { intros k s. rewrite advance_secrets. apply Hnamed. }
  assert (Installed (Status cdF) = true) as HiF'.
  { rewrite HiF. unfold statusObserved, observedSuccess in *.
    destruct job as [j|]; [|done]. destruct (_ && _); [|done]. cbn in *. done. }
  assert (Provisionable ext name cdF w1 imageSet sshKey) as Hp2.
  { eapply (Provisionable_converged ext name cd cdF (advance n w)); try done.
    eapply Provisionable_sameInputs; [apply sameInputs_advance|done]. }
  assert (installJobIs ext cdF w1 job) as Hjob2.
  { destruct Hw as (Hj & _ & _ & _ & _ & _ & _ & _ & _ & Hf).
    destruct Hjob as [Hfj Hjj]. unfold installJobIs.
    rewrite Hsb, Hjn, Hf, Hj, advance_faults, advance_jobs. done. }
  destruct (Reconcile_installed _ _ _ _ _ _ _ Hp2 HiF' Hjob2 Hterm) as (rq2 & n2 & ->).
  destruct (reconcile_status_noop ext cdF job rq2 (advance n2 w1)) as (o2 & Ho2 & He2 & Hx2).
  { apply Hidem; [apply advance_faults|apply advance_secrets]. }
  exists o2, (advance n2 w1). split_and!; try done.
  - apply advance_trace.
  - apply advance_set_ticks.
Qed.

Definition installed_world : World :=
  testWorld [C4_installed_cd] [testCompletedInstallJob] (fixup_secret :: testSecrets) [].

Lemma installed_world_provisionable :
  Provisionable testCollaborators testName C4_installed_cd installed_world None "fakesshkey".
Proof.
  split.
  - reflexivity.
  - reflexivity.
  - reflexivity.
  - constructor.
  - reflexivity.
  - intros k. exists (0, 0%nat). reflexivity.
  - reflexivity.
  - exists sshKeySecret, (testSecret sshKeySecret adminSSHKeySecretKey "fakesshkey").
    repeat split; reflexivity.
  - by eexists.
  - left. reflexivity.
Qed.

Lemma Reconcile_idempotent_witness :
  let r := Reconcile testCollaborators testName installed_world in
  err r.1 = None /\
  exists o2 w2,
    Reconcile testCollaborators testName r.2 = (o2, w2) /\
    err o2 = None /\ exit o2 = ExEnd /\
    trace w2 = trace r.2 /\ w2 = set_ticks (ticks w2) r.2.
Proof.
  intros r. subst r.
  destruct (Reconcile testCollaborators testName installed_world) as [o1 w1] eqn:Hrun.
  assert (err o1 = None) as Herr.
  { change o1 with (o1, w1).1. rewrite <- Hrun. vm_compute. reflexivity. }
  split; [exact Herr|].
  apply (Reconcile_idempotent testCollaborators testName C4_installed_cd installed_world w1
           None "fakesshkey" (Some testCompletedInstallJob) o1).
  - apply installed_world_provisionable.
  - reflexivity.
  - reflexivity.
  - assert (map_Forall (fun (k : string) s => SecretName s = k) (secrets installed_world)) as H.
    { apply (bool_decide_unpack
               (map_Forall (fun (k : string) s => SecretName s = k) (secrets installed_world))).
      vm_compute. exact I. }
    exact H.
  - split; reflexivity.
  - intros j [= <-]. reflexivity.
  - reflexivity.
  - intros st. reflexivity.
  - exact Hrun.
  - exact Herr.
Defined.

(** ** Replacing an install job that carries no hash *)



Lemma noFaults_sameInputs w w2 : sameInputs w w2 -> noFaults w -> noFaults w2.
Proof. intros (_ & _ & Hf & _) H v k n. by rewrite Hf. Qed.




Definition generated_configMap : ConfigMap :=
  {| CMName := "foo-lqmsh-install-config";
     CMNamespace := testNamespace;
     CMAnnotations := Some ∅;
     CMOwner := Some testName;
     CMData := {[ "install-config.yaml" := "fakesshkey,{}" ]} |}.



(** ** When the deprovision finalizer is removed *)

Ltac emitted_inv H :=
  unfold emitted in H; wp_norm; rewrite <- ?app_assoc in H;
  first [apply app_inv_head in H
        |rewrite <- (app_nil_r (trace _)) in H at 1; apply app_inv_head in H];
  subst.

Ltac elem_of_inv H :=
  apply list_elem_of_In in H; cbn in H;
  repeat match type of H with
         | _ \/ _ => destruct H as [H|H]
         end; try discriminate; try contradiction.

(** Why the deletion workflow may let go of the ClusterDeployment: the
    cluster is installed and to be preserved, or it has no infrastructure
    yet, or its deprovision request has completed, or the request could not
    be created and the namespace is being deleted. *)
Definition deprovisionSettled (cd : ClusterDeployment) (w : World) : Prop :=
  PreserveOnDelete (Spec cd) && Installed (Status cd) = true \/
  InfraID (Status cd) = "" \/
  (exists r, deprovisionRequests w !! Name cd = Some r /\ Completed r = true) \/
  (deprovisionRequests w !! Name cd = None /\
   exists t, namespaces w !! Namespace cd = Some (Some t)).

(** [syncDeletedClusterDeployment] removes the deprovision finalizer only
    when nothing is left to wait for: if the pass issues the update that
    removes the finalizer, then the ClusterDeployment manages no DNS zone or
    its zone is gone from the store, the install job is gone from the store,
    and deprovisioning is settled (the cluster is installed and preserved, or
    has no infrastructure id, or its deprovision request has completed, or
    the request could not be created while the namespace is terminating). *)
Theorem syncDeleted_finalizer_removal
    (ext : Collaborators) (cd : ClusterDeployment) (hiveImage : string) (w : World) :
  wp (syncDeletedClusterDeployment ext cd hiveImage) w
     (fun _ w' =>
        forall evs, emitted w w' evs ->
          UpdateCD (DeleteFinalizer cd FinalizerDeprovision) ∈ evs ->
          (ManageDNS (Spec cd) = false \/
           dnsZones w !! dnsZoneName ext (Name cd) = None) /\
          jobs w !! GetInstallJobName ext cd = None /\
          deprovisionSettled cd w).
Proof.
  unfold syncDeletedClusterDeployment, ensureManagedDNSZoneDeleted.
  wp_steps.
  all: intros evs Hev Hin; emitted_inv Hev; elem_of_inv Hin.
  all: rewrite ?generateDeprovisionRequest_name in *.
  all: split; [first [left; by destruct (ManageDNS (Spec cd))|by right]|].
  all: split; [done|].
  all: unfold deprovisionSettled.
  all: first [by left
             |right; left; by case_bool_decide
             |right; right; left; by eexists
             |right; right; right; split; [done|by eexists]].
Qed.

(** ** The calls of the provisioning steps *)

(** The calls that the steps from the finalizer check on may issue: none of
    them deletes the ClusterDeployment or a DNS zone, or creates a
    deprovision request. *)
Definition provisionCall (c : Call) : bool :=
  match c with
  | DeleteCD _ | DeleteDNSZone _ _ | CreateDeprovisionRequest _ => false
  | _ => true
  end.

Definition provisionCalls (w w' : World) : Prop :=
  exists evs, emitted w w' evs /\ forallb provisionCall evs = true.

Lemma provisionCalls_refl w : provisionCalls w w.
Proof. exists []. split; [apply emitted_nil|done]. Qed.

Lemma provisionCalls_trans w1 w2 w3 :
  provisionCalls w1 w2 -> provisionCalls w2 w3 -> provisionCalls w1 w3.
Proof.
  intros (evs1 & H1 & Hp1) (evs2 & H2 & Hp2). exists (evs1 ++ evs2).
  split; [by eapply emitted_trans|]. by rewrite forallb_app, Hp1, Hp2.
Qed.

Ltac provisionCalls_solve := eexists; split; [emitted_solve|reflexivity].

Lemma reconcile_status_provisionCalls ext cd origCD job requeueAfter w :
  wp (reconcile_status ext cd origCD job requeueAfter) w (fun _ w' => provisionCalls w w').
Proof.
  unfold reconcile_status, updateClusterDeploymentStatus.
  set (cd1 := match job with Some _ => _ | None => _ end). clearbody cd1.
  set (cd2 := if Installed (Status cd1) && _ then _ else _). clearbody cd2.
  wp_steps.
  all: provisionCalls_solve.
Qed.

Lemma reconcile_installJob_provisionCalls ext cd existingJob hiveImage releaseImage sshKey w :
  wp (reconcile_installJob ext cd existingJob hiveImage releaseImage sshKey) w
     (fun _ w' => provisionCalls w w').
Proof. unfold reconcile_installJob. wp_steps. all: provisionCalls_solve. Qed.

Lemma reconcile_job_provisionCalls ext cd origCD hiveImage releaseImage sshKey requeueAfter w :
  wp (reconcile_job ext cd origCD hiveImage releaseImage sshKey requeueAfter) w
     (fun _ w' => provisionCalls w w').
Proof.
  assert (forall existingJob cd w,
    wp (c ← reconcile_installJob ext cd existingJob hiveImage releaseImage sshKey;
        match c with
        | inr o => mret o
        | inl cd => reconcile_status ext cd origCD existingJob requeueAfter
        end) w (fun _ w' => provisionCalls w w')) as Hinstall.
  { intros existingJob cd0 w0. apply wp_bind.
    eapply wp_mono; [apply reconcile_installJob_provisionCalls|].
    intros c w1 H1. cbn beta. destruct c as [cd1|o]; [|by apply wp_ret].
    eapply wp_mono; [apply reconcile_status_provisionCalls|].
    intros o w2 H2. by eapply provisionCalls_trans. }
  unfold reconcile_job. apply wp_bind, wp_client_Get.
  - intros Hf. cbn [IsNotFound]. apply wp_out, provisionCalls_refl.
  - intros job Hf Hj.
    destruct (negb (PtrTime_IsZero (JobDeletionTimestamp job))).
    + apply wp_out, provisionCalls_refl.
    + destruct (Installed (Status cd));
        [apply reconcile_status_provisionCalls|apply Hinstall].
  - intros Hf Hj. cbn [IsNotFound].
    destruct (Installed (Status cd));
      [apply reconcile_status_provisionCalls|apply Hinstall].
Qed.

Lemma reconcile_provision_provisionCalls ext cd origCD imageSet hiveImage releaseImage
    requeueAfter w :
  wp (reconcile_provision ext cd origCD imageSet hiveImage releaseImage requeueAfter) w
     (fun _ w' => provisionCalls w w').
Proof.
  unfold reconcile_provision.
  repeat (first
    [lazymatch goal with
     | |- wp (reconcile_job _ _ _ _ _ _ _) _ _ =>
         eapply wp_mono; [apply reconcile_job_provisionCalls|]; intros ? ? (? & ? & ?)
     end
    |wp_step]).
  all: try provisionCalls_solve.
  all: eexists; split; [eapply emitted_trans; [emitted_solve|eassumption]|].
  all: rewrite ?forallb_app; cbn; done.
Qed.

Definition isDeleteCD (c : Call) : bool :=
  match c with DeleteCD _ => true | _ => false end.

Lemma provisionCall_not_DeleteCD evs :
  forallb provisionCall evs = true -> forall n, DeleteCD n ∉ evs.
Proof.
  intros H n Hin. rewrite forallb_forall in H.
  apply list_elem_of_In in Hin. by specialize (H _ Hin).
Qed.

Lemma migrateWildcardIngress_unchanged cd cd' :
  migrateWildcardIngress cd = (cd', false) -> cd' = cd.
Proof.
  intros H.
  assert (noWildcard cd) as Hn.
  { unfold migrateWildcardIngress in H.
    pose proof (migrateIngressEntries_snd (Ingress (Spec cd)) false) as H2.
    destruct (migrateIngressEntries (Ingress (Spec cd)) false) as [l m].
    simplify_eq. cbn in H2. symmetry in H2.
    unfold noWildcard. apply Forall_forall. intros ing Hin.
    destruct (String.prefix "*." (Domain ing)) eqn:Hp; [|done].
    assert (existsb (fun ing => String.prefix "*." (Domain ing)) (Ingress (Spec cd)) = true)
      as Hex; [|congruence].
    apply existsb_exists. exists ing. split; [|done]. by apply list_elem_of_In. }
  rewrite (migrateWildcardIngress_noWildcard _ Hn) in H. congruence.
Qed.

(** A pass deletes the ClusterDeployment only when its delete-after
    annotation has expired.  If a pass issues a deletion of a
    ClusterDeployment, then the object stored under the reconciled name is
    the one deleted, it is not being deleted yet, it carries a delete-after
    annotation that parses as a duration, it has a creation time stamp, the
    clock read by the pass is past creation plus that duration, and the
    deletion is the only call of the pass. *)
Theorem Reconcile_deletes_only_expired
    (ext : Collaborators) (name : string) (w : World) :
  wp (Reconcile ext name) w
     (fun _ w' =>
        forall evs n, emitted w w' evs -> DeleteCD n ∈ evs ->
          exists cd deleteAfter dur,
            clusterDeployments w !! name = Some cd /\ n = Name cd /\
            DeletionTimestamp cd = None /\
            Annotations cd !! deleteAfterAnnotation = Some deleteAfter /\
            ParseDuration ext deleteAfter = Ok dur /\
            CreationTimestamp cd <> 0 /\
            CreationTimestamp cd + dur < clock w (ticks w) /\
            evs = [DeleteCD (Name cd)]).
Proof.
  unfold Reconcile. apply wp_bind, wp_client_Get; cbn [IsNotFound].
  1, 3: intros; apply wp_out; intros evs n Hev Hin; emitted_inv Hev; elem_of_inv Hin.
  intros cd _ Hcd. unfold reconcile.
  destruct (migrateWildcardIngress cd) as [cd' migrated] eqn:Hm.
  destruct migrated.
  { wp_steps. all: intros evs n Hev Hin; emitted_inv Hev; elem_of_inv Hin. }
  apply migrateWildcardIngress_unchanged in Hm. subst cd'.
  wp_steps_upto_provision reconcile_provision_provisionCalls.
  all: intros evs n Hev Hin.
  all: try (emitted_inv Hev; elem_of_inv Hin; fail).
  all: try match goal with
         | Hp : forallb provisionCall ?evs2 = true, He : emitted _ _ ?evs2 |- _ =>
             exfalso; unfold emitted in *; wp_norm;
             rewrite He in Hev; apply app_inv_head in Hev; subst;
             by eapply provisionCall_not_DeleteCD
         end.
  all: emitted_inv Hev; elem_of_inv Hin; simplify_eq.
  all: exists cd; eexists _, _; split_and!; try done.
  all: unfold Time_IsZero, Time_After, Time_Add in *.
  all: repeat match goal with
         | H : negb (bool_decide _) = true |- _ =>
             apply negb_true_iff, bool_decide_eq_false in H
         | H : bool_decide (_ < _) = true |- _ => apply bool_decide_eq_true in H
         end; done.
Qed.

(** ** A ClusterDeployment that is being deleted *)

(** The calls of a pass over a ClusterDeployment that is being deleted:
    updates of the ClusterDeployment and of its status, and the deletions and
    the deprovision request of the deletion workflow. *)
Definition deletionWorkflowCall (c : Call) : bool :=
  match c with
  | UpdateCD _ | StatusUpdateCD _ | DeleteDNSZone _ _ | DeleteJob _ _
  | CreateDeprovisionRequest _ => true
  | _ => false
  end.

Lemma reconcile_deleted_calls ext cd t w :
  DeletionTimestamp cd = Some t ->
  wp (reconcile ext cd) w
     (fun o w' =>
        (exists evs, emitted w w' evs /\ forallb deletionWorkflowCall evs = true) /\
        earlyExit (exit o) = true).
Proof.
  intros Ht. unfold reconcile.
  destruct (migrateWildcardIngress cd) as [cd' migrated] eqn:Hm.
  destruct migrated.
  { wp_steps. all: split; [eexists; split; [emitted_solve|reflexivity]|done]. }
  apply migrateWildcardIngress_unchanged in Hm. subst cd'.
  wp_explore (rewrite ?Ht in * ).
  all: split; [eexists; split; [emitted_solve|reflexivity]|done].
Qed.

(** A ClusterDeployment that is marked for deletion gets no provisioning
    work.  Whatever the store holds besides and whichever calls fail, a pass
    over it creates no job, no config map, no DNS zone and no service
    account, updates no config map and no secret, and does not delete the
    ClusterDeployment: its calls are updates of the ClusterDeployment or its
    status, deletions of the install job or the DNS zone, and the creation
    of the deprovision request. *)
Theorem Reconcile_deleted_never_provisions
    (ext : Collaborators) (name : string) (cd : ClusterDeployment) (t : Z) (w : World) :
  clusterDeployments w !! name = Some cd ->
  DeletionTimestamp cd = Some t ->
  wp (Reconcile ext name) w
     (fun o w' =>
        (exists evs, emitted w w' evs /\ forallb deletionWorkflowCall evs = true) /\
        (earlyExit (exit o) = true \/ exit o = ExGetError)).
Proof.
  intros Hcd Ht. unfold Reconcile. apply wp_bind, wp_client_Get; cbn [IsNotFound].
  - intros _. apply wp_out. split; [|by right].
    exists []. split; [apply emitted_nil|done].
  - intros cd0 _ Hcd0. simplify_eq.
    eapply wp_mono; [by apply (reconcile_deleted_calls ext cd t)|].
    intros o w' [Hev Hx]. split; [done|by left].
  - congruence.
Qed.

Lemma Reconcile_deleted_never_provisions_witness :
  let w := testWorld [testDeletedClusterDeployment] [testInstallJob] testSecrets [] in
  let r := Reconcile testCollaborators testName w in
  (exists evs, emitted w r.2 evs /\ forallb deletionWorkflowCall evs = true) /\
  (earlyExit (exit r.1) = true \/ exit r.1 = ExGetError).
Proof.
  intros w r.
  apply (Reconcile_deleted_never_provisions testCollaborators testName
           testDeletedClusterDeployment testNow w).
  - reflexivity.
  - reflexivity.
Defined.

(** ** The managed DNS zone *)

(** [ensureManagedDNSZone] reports the zone as available only if the store
    holds the zone of the ClusterDeployment and its [ZoneAvailable] condition
    is true; it then returns no error and leaves the store as it is.  The one
    call it may issue is the creation of the zone, and only when the store
    holds none: the zone is named after the ClusterDeployment, lies in its
    namespace, is for its base domain, is linked to the parent domain and
    carries the AWS credentials and region of the ClusterDeployment, its
    user tags in some order, and no condition; the zone is reported as not
    available in that pass. *)
Theorem ensureManagedDNSZone_available
    (ext : Collaborators) (cd : ClusterDeployment) (w : World) :
  wp (ensureManagedDNSZone ext cd) w
     (fun be w' =>
        (be.1 = true ->
         be.2 = None /\ w' = w /\
         exists zone c,
           dnsZones w !! dnsZoneName ext (Name cd) = Some zone /\
           FindDNSZoneCondition (ZoneConditions zone) ZoneAvailableDNSZoneCondition = Some c /\
           ZoneCondStatus c = ConditionTrue) /\
        (forall evs, emitted w w' evs ->
           evs = [] \/
           exists z aws awsSecrets,
             evs = [CreateDNSZone z] /\ be.1 = false /\
             dnsZones w !! dnsZoneName ext (Name cd) = None /\
             PlatformAWS (Spec cd) = Some aws /\
             PlatformSecretsAWS (Spec cd) = Some awsSecrets /\
             ZoneName z = dnsZoneName ext (Name cd) /\
             ZoneNamespace z = Namespace cd /\
             Zone z = BaseDomain (Spec cd) /\
             LinkToParentDomain z = true /\
             ZoneAccountSecret z = Credentials awsSecrets /\
             ZoneRegion z = Region aws /\
             AdditionalTags z ≡ₚ map_to_list (UserTags aws) /\
             ZoneConditions z = [] /\ ZoneDeletionTimestamp z = None)).
Proof.
  unfold ensureManagedDNSZone, createManagedDNSZone.
  wp_steps.
  all: split; [intros Hb; try discriminate|].
  all: try (split; [done|split; [done|]]; eexists _, _; split_and!; try done;
            by apply bool_decide_eq_true in Hb).
  all: intros evs Hev; emitted_inv Hev; first [by left|right].
  all: eexists _, _, _; split_and!; try done.
Qed.

(** ** Resolving the installer image *)

(** The installer image that is known without running a job: the one named
    in the spec of the ClusterDeployment or else the one of the image set. *)
Definition knownInstallerImage (cd : ClusterDeployment) (imageSet : option ClusterImageSet)
    : option string :=
  if bool_decide (InstallerImage (SpecImages (Spec cd)) <> "")
  then Some (InstallerImage (SpecImages (Spec cd)))
  else match imageSet with
       | Some imageSet => ImageSetInstallerImage imageSet
       | None => None
       end.

(** [resolveInstallerImage] takes the installer image from the spec of the
    ClusterDeployment before that of the image set.  When either names one,
    the pass issues one call, the status update that records the image, and
    touches no job; the result is empty.  When neither does, the status is
    not updated: the calls go to the image set job and the service account
    only, and at most one job is created or deleted. *)
Theorem resolveInstallerImage_known
    (ext : Collaborators) (cd : ClusterDeployment) (imageSet : option ClusterImageSet)
    (releaseImage hiveImage : string) (w : World) :
  wp (resolveInstallerImage ext cd imageSet releaseImage hiveImage) w
     (fun re w' =>
        match knownInstallerImage cd imageSet with
        | Some image =>
            emitted w w'
              [StatusUpdateCD
                 (set_Status (set_StatusInstallerImage (Some image) (Status cd)) cd)] /\
            re.1 = Result_done
        | None =>
            exists evs, emitted w w' evs /\
              forallb (fun c => match c with
                                | CreateJob _ | DeleteJob _ _ | SetupServiceAccount _ => true
                                | _ => false
                                end) evs = true /\
              (jobCalls evs <= 1)%nat
        end).
Proof.
  unfold resolveInstallerImage, knownInstallerImage.
  case_bool_decide as Hspec.
  { wp_steps. all: split; [emitted_solve|done]. }
  destruct imageSet as [[? [image|] ? ?]|]; cbn [ImageSetInstallerImage].
  { wp_steps. all: split; [emitted_solve|done]. }
  all: wp_steps.
  all: eexists; split; [emitted_solve|]; split; [reflexivity|cbn; lia].
Qed.

(** ** A missing image set *)

(** What [getClusterImageSet] does when the ClusterDeployment names an image
    set that the store does not hold: it calls [setImageSetNotFoundCondition]
    with [isNotFound] false, so the [ClusterImageSetNotFound] condition is
    set with status false, the reason [ClusterImageSetFound] and the message
    that the image set is available.  No image set is returned; the status
    is updated, and the pass ends, exactly when that changes the conditions. *)
Theorem getClusterImageSet_missing
    (ext : Collaborators) (cd : ClusterDeployment) (name : string) (w : World) :
  ImageSet (Spec cd) = Some name -> name <> "" ->
  faults w VGet KClusterImageSet name = false ->
  clusterImageSets w !! name = None ->
  let conds :=
    SetClusterDeploymentCondition ext (Conditions (Status cd))
      ClusterImageSetNotFoundCondition ConditionFalse clusterImageSetFoundReason
      ("ClusterImageSet " +:+ name +:+ " is available") UpdateConditionNever in
  let cd' := set_Status (set_Conditions conds (Status cd)) cd in
  wp (getClusterImageSet ext cd) w
     (fun r w' =>
        r.1.1.1 = cd' /\ r.1.1.2 = None /\
        r.1.2 = bool_decide (Conditions (Status cd) <> conds) /\
        emitted w w' (if r.1.2 then [StatusUpdateCD cd'] else []) /\
        (r.1.2 = false -> r.2 = None /\ w' = w)).
Proof.
  intros Hname Hne Hf Hnone conds cd'. unfold getClusterImageSet.
  rewrite Hname, bool_decide_eq_false_2 by done.
  apply wp_bind, wp_client_Get; [congruence|congruence|]. intros _ _.
  cbn [IsNotFound]. unfold setImageSetNotFoundCondition.
  rewrite Hname. cbn [default from_option id]. fold conds. fold cd'.
  change (Conditions (Status cd')) with conds.
  case_bool_decide as Hc.
  - wp_steps. all: split_and!; try done; emitted_solve.
  - wp_steps. split_and!; try done. apply emitted_nil.
Qed.

Definition missingImageSet_cd : ClusterDeployment :=
  set_Spec {| ClusterName := testClusterName; BaseDomain := ""; Ingress := [];
              SpecImages := {| InstallerImage := ""; ReleaseImage := ""; HiveImage := "" |};
              ImageSet := Some "missing"; SSHKey := Some sshKeySecret;
              PullSecret := pullSecretSecret; PlatformAWS := None;
              PlatformSecretsAWS := None; ManageDNS := false;
              PreserveOnDelete := false |} testClusterDeployment.

Lemma getClusterImageSet_missing_witness :
  let w := testWorld [missingImageSet_cd] [] testSecrets [] in
  let ow := getClusterImageSet testCollaborators missingImageSet_cd w in
  ow.1.1.1.2 = None /\ ow.1.1.2 = false /\ ow.1.2 = None /\ ow.2 = w.
Proof.
  intros w ow.
  pose proof (getClusterImageSet_missing testCollaborators missingImageSet_cd "missing" w
                eq_refl) as H.
  destruct H as (Hcd & Hi & Hm & Hev & Hno); [done|reflexivity|reflexivity|].
  fold ow in Hcd, Hi, Hm, Hev, Hno.
  assert (ow.1.1.2 = false) as Hf by (rewrite Hm; reflexivity).
  destruct (Hno Hf) as [He Hw].
  split; [exact Hi|]. split; [exact Hf|]. split; [exact He|exact Hw].
Defined.

(** ** Outdated configurations *)

(** An object is outdated when its generation annotation reads as a number
    below the generation of the ClusterDeployment. *)
Definition outdated (ext : Collaborators) (cdGeneration : Z)
    (annotations : option (gmap string string)) : bool :=
  match from_option (lookup clusterDeploymentGenerationAnnotation) None annotations with
  | Some g => bool_decide (ParseInt ext g < cdGeneration)
  | None => false
  end.


(** ** Migrating more than once *)

Lemma prefix_app_l (s1 s2 d : string) :
  String.prefix (s1 +:+ s2) d = true -> String.prefix s1 d = true.
Proof.
  revert d. induction s1 as [|a s1 IH]; intros d; [by destruct d|].
  destruct d as [|b d]; [done|]. simpl.
  destruct (Ascii.ascii_dec a b); [apply IH|done].
Qed.

Lemma prefix_stripped (d : string) :
  String.prefix "*." (wildcardDomain_ReplaceAllString d) = String.prefix "*.*." d.
Proof.
  destruct (String.prefix "*." d) eqn:E.
  - apply prefix_wildcard in E as [rest ->]. rewrite wildcardDomain_strip.
    change ("*." +:+ rest) with (String "*" (String "." rest)). reflexivity.
  - rewrite (wildcardDomain_keep _ E), E.
    destruct (String.prefix "*.*." d) eqn:E2; [|done].
    apply (prefix_app_l "*." "*.") in E2. congruence.
Qed.

Definition totalDomainLength (cd : ClusterDeployment) : nat :=
  foldr (fun ing n => (String.length (Domain ing) + n)%nat) 0%nat (Ingress (Spec cd)).

Lemma stripWildcard_length ing :
  (String.length (Domain (stripWildcard ing)) <= String.length (Domain ing))%nat /\
  (String.prefix "*." (Domain ing) = true ->
   (String.length (Domain (stripWildcard ing)) + 2 = String.length (Domain ing))%nat).
Proof.
  unfold stripWildcard. cbn [Domain].
  destruct (String.prefix "*." (Domain ing)) eqn:E.
  - apply prefix_wildcard in E as [rest ->]. rewrite wildcardDomain_strip.
    change ("*." +:+ rest) with (String "*" (String "." rest)). simpl. split; [lia|].
    intros _. lia.
  - rewrite (wildcardDomain_keep _ E). split; [lia|done].
Qed.

(** The wildcard migration is not idempotent, but it comes to an end.
    Migrating the migrated object reports another migration exactly when
    some ingress domain of the original began with "*.*.", since one leading
    "*." is removed at a time; and every migration that is reported shortens
    the ingress domains by at least two characters in total, so that
    repeated passes reach an object with nothing left to migrate. *)
Theorem migrateWildcardIngress_again (cd : ClusterDeployment) :
  let cd1 := (migrateWildcardIngress cd).1 in
  (migrateWildcardIngress cd1).2 =
    existsb (fun ing => String.prefix "*.*." (Domain ing)) (Ingress (Spec cd)) /\
  ((migrateWildcardIngress cd).2 = true ->
   (totalDomainLength cd1 + 2 <= totalDomainLength cd)%nat) /\
  ((migrateWildcardIngress cd).2 = false -> cd1 = cd).
Proof.
  intros cd1.
  pose proof (migrateIngressEntries_fst (Ingress (Spec cd)) false) as Hfst.
  pose proof (migrateIngressEntries_snd (Ingress (Spec cd)) false) as Hsnd.
  assert (Ingress (Spec cd1) = stripWildcard <$> Ingress (Spec cd)) as Hing.
  { subst cd1. unfold migrateWildcardIngress.
    destruct (migrateIngressEntries (Ingress (Spec cd)) false). cbn in *. done. }
  assert ((migrateWildcardIngress cd).2 =
          existsb (fun ing => String.prefix "*." (Domain ing)) (Ingress (Spec cd))) as Hmig.
  { unfold migrateWildcardIngress.
    destruct (migrateIngressEntries (Ingress (Spec cd)) false). cbn in *. done. }
  split; [|split].
  - pose proof (migrateIngressEntries_snd (Ingress (Spec cd1)) false) as Hsnd1.
    unfold migrateWildcardIngress at 1.
    destruct (migrateIngressEntries (Ingress (Spec cd1)) false) as [l m].
    cbn in *. subst m. rewrite Hing. clear.
    induction (Ingress (Spec cd)) as [|ing l IH]; [done|].
    cbn. rewrite IH. f_equal. apply prefix_stripped.
  - rewrite Hmig. unfold totalDomainLength. rewrite Hing. clear.
    induction (Ingress (Spec cd)) as [|ing l IH]; [done|].
    cbn [existsb fmap list_fmap foldr].
    destruct (stripWildcard_length ing) as [Hle Hlt].
    assert (foldr (fun ing n => (String.length (Domain ing) + n)%nat) 0%nat
              (stripWildcard <$> l) <=
            foldr (fun ing n => (String.length (Domain ing) + n)%nat) 0%nat l)%nat as Hall.
    { clear. induction l as [|i l IH]; [done|]. cbn.
      destruct (stripWildcard_length i) as [Hle _]. cbn in Hle. lia. }
    destruct (String.prefix "*." (Domain ing)) eqn:E; cbn [orb].
    + intros _. specialize (Hlt eq_refl). change (list_fmap _ _ stripWildcard l) with (stripWildcard <$> l). lia.
    + intros H. specialize (IH H). change (list_fmap _ _ stripWildcard l) with (stripWildcard <$> l) in *. lia.
  - intros H. subst cd1. clear Hmig Hfst Hsnd Hing.
    destruct (migrateWildcardIngress cd) as [c m] eqn:Hm. cbn in *. subst m.
    by apply migrateWildcardIngress_unchanged in Hm.
Qed.

(** ** Writes to the ClusterDeployment in one pass *)

Definition isCDWrite (c : Call) : bool :=
  match c with
  | UpdateCD _ | StatusUpdateCD _ | DeleteCD _ => true
  | _ => false
  end.

(** A write to the ClusterDeployment, if any, is the last call. *)
Fixpoint cdWriteLast (evs : list Call) : bool :=
  match evs with
  | [] => true
  | c :: rest =>
      if isCDWrite c then match rest with [] => true | _ => false end
      else cdWriteLast rest
  end.

Definition noCDWrite (evs : list Call) : bool := forallb (fun c => negb (isCDWrite c)) evs.

Lemma cdWriteLast_app evs1 evs2 :
  noCDWrite evs1 = true -> cdWriteLast (evs1 ++ evs2) = cdWriteLast evs2.
Proof.
  induction evs1 as [|c evs1 IH]; [done|]. cbn.
  intros [Hc H]%andb_true_iff. apply negb_true_iff in Hc. rewrite Hc. by apply IH.
Qed.

Lemma cdWriteLast_count evs :
  cdWriteLast evs = true -> (length (List.filter isCDWrite evs) <= 1)%nat.
Proof.
  induction evs as [|c evs IH]; [cbn; lia|]. cbn.
  destruct (isCDWrite c); [|done].
  destruct evs; [cbn; lia|discriminate].
Qed.

Lemma reconcile_status_cdWrite ext cd origCD job requeueAfter w :
  wp (reconcile_status ext cd origCD job requeueAfter) w
     (fun _ w' => exists evs, emitted w w' evs /\ cdWriteLast evs = true).
Proof.
  unfold reconcile_status, updateClusterDeploymentStatus.
  set (cd1 := match job with Some _ => _ | None => _ end). clearbody cd1.
  set (cd2 := if Installed (Status cd1) && _ then _ else _). clearbody cd2.
  wp_steps.
  all: eexists; split; [emitted_solve|reflexivity].
Qed.

Lemma reconcile_installJob_cdWrite ext cd existingJob hiveImage releaseImage sshKey w :
  wp (reconcile_installJob ext cd existingJob hiveImage releaseImage sshKey) w
     (fun _ w' => exists evs, emitted w w' evs /\ noCDWrite evs = true).
Proof.
  unfold reconcile_installJob. wp_steps.
  all: eexists; split; [emitted_solve|reflexivity].
Qed.

Lemma reconcile_job_cdWrite ext cd origCD hiveImage releaseImage sshKey requeueAfter w :
  wp (reconcile_job ext cd origCD hiveImage releaseImage sshKey requeueAfter) w
     (fun _ w' => exists evs, emitted w w' evs /\ cdWriteLast evs = true).
Proof.
  assert (forall existingJob cd w,
    wp (c ← reconcile_installJob ext cd existingJob hiveImage releaseImage sshKey;
        match c with
        | inr o => mret o
        | inl cd => reconcile_status ext cd origCD existingJob requeueAfter
        end) w (fun _ w' => exists evs, emitted w w' evs /\ cdWriteLast evs = true))
    as Hinstall.
  { intros existingJob cd0 w0. apply wp_bind.
    eapply wp_mono; [apply reconcile_installJob_cdWrite|].
    intros c w1 (evs1 & Hev1 & Hn1). cbn beta. destruct c as [cd1|o].
    - eapply wp_mono; [apply reconcile_status_cdWrite|].
      intros o w2 (evs2 & Hev2 & Hl2). exists (evs1 ++ evs2).
      split; [by eapply emitted_trans|]. by rewrite cdWriteLast_app.
    - apply wp_ret. exists evs1. split; [done|].
      rewrite <- (app_nil_r evs1). by rewrite cdWriteLast_app. }
  unfold reconcile_job. apply wp_bind, wp_client_Get.
  - intros Hf. cbn [IsNotFound]. apply wp_out. exists []. split; [apply emitted_nil|done].
  - intros job Hf Hj.
    destruct (negb (PtrTime_IsZero (JobDeletionTimestamp job))).
    + apply wp_out. exists []. split; [apply emitted_nil|done].
    + destruct (Installed (Status cd)); [apply reconcile_status_cdWrite|apply Hinstall].
  - intros Hf Hj. cbn [IsNotFound].
    destruct (Installed (Status cd)); [apply reconcile_status_cdWrite|apply Hinstall].
Qed.

Lemma reconcile_provision_cdWrite ext cd origCD imageSet hiveImage releaseImage
    requeueAfter w :
  wp (reconcile_provision ext cd origCD imageSet hiveImage releaseImage requeueAfter) w
     (fun _ w' => exists evs, emitted w w' evs /\ cdWriteLast evs = true).
Proof.
  unfold reconcile_provision.
  repeat (first
    [lazymatch goal with
     | |- wp (reconcile_job _ _ _ _ _ _ _) _ _ =>
         eapply wp_mono; [apply reconcile_job_cdWrite|]; intros ? ? (? & ? & ?)
     end
    |wp_step]).
  all: try (eexists; split; [emitted_solve|reflexivity]).
  all: eexists; split; [eapply emitted_trans; [emitted_solve|eassumption]|].
  all: cbn; done.
Qed.

(** Every pass writes the ClusterDeployment at most once, as its last call.
    Whatever the store holds and whichever calls fail, at most one of the
    calls of a pass is an update of the ClusterDeployment, an update of its
    status or its deletion, and no call follows it. *)
Theorem Reconcile_writes_cd_last (ext : Collaborators) (name : string) (w : World) :
  wp (Reconcile ext name) w
     (fun _ w' =>
        exists evs, emitted w w' evs /\
          (length (List.filter isCDWrite evs) <= 1)%nat /\
          (forall pre c post, evs = pre ++ c :: post -> isCDWrite c = true -> post = [])).
Proof.
  assert (wp (Reconcile ext name) w
            (fun _ w' => exists evs, emitted w w' evs /\ cdWriteLast evs = true)) as H.
  { unfold Reconcile. apply wp_bind, wp_client_Get; cbn [IsNotFound].
    1, 3: intros; apply wp_out; exists []; split; [apply emitted_nil|done].
    intros cd _ _. unfold reconcile.
    destruct (migrateWildcardIngress cd) as [cd' migrated].
    wp_steps_upto_provision reconcile_provision_cdWrite.
    all: try (eexists; split; [emitted_solve|reflexivity]).
    all: eexists; split; [eapply emitted_trans; [emitted_solve|eassumption]|].
    all: cbn; done. }
  eapply wp_mono; [exact H|]. intros _ w' (evs & Hev & Hl). cbn beta.
  exists evs. split; [done|]. split; [by apply cdWriteLast_count|].
  clear Hev. intros pre c post -> Hc. revert Hl.
  induction pre as [|p pre IH]; cbn.
  - rewrite Hc. by destruct post.
  - destruct (isCDWrite p); [by destruct pre|done].
Qed.

(** ** Delayed requeues *)

(** A result is empty, or asks for a requeue after the default delay and
    comes without error. *)
Definition emptyOrWaiting (r : Result) (e : option error) : Prop :=
  r = Result_done \/ (r = {| RequeueAfter := defaultRequeueTime |} /\ e = None).

Lemma resolveInstallerImage_result ext cd imageSet releaseImage hiveImage w :
  wp (resolveInstallerImage ext cd imageSet releaseImage hiveImage) w
     (fun re _ => emptyOrWaiting re.1 re.2).
Proof.
  unfold resolveInstallerImage. wp_steps.
  all: first [by left|right; by split].
Qed.

Lemma syncDeleted_result ext cd hiveImage w :
  wp (syncDeletedClusterDeployment ext cd hiveImage) w
     (fun re _ => emptyOrWaiting re.1 re.2).
Proof.
  unfold syncDeletedClusterDeployment, ensureManagedDNSZoneDeleted. wp_steps.
  all: first [by left|right; by split].
Qed.

Ltac wp_skim_results :=
  repeat (first
    [lazymatch goal with
     | |- wp (resolveInstallerImage _ _ _ _ _) _ _ =>
         eapply wp_mono; [apply resolveInstallerImage_result|]; intros [? ?] ? ?
     | |- wp (syncDeletedClusterDeployment _ _ _) _ _ =>
         eapply wp_mono; [apply syncDeleted_result|]; intros [? ?] ? ?
     end
    |wp_skim_step]).

(** A pass never asks for a delayed requeue together with an error.  When
    the result of a pass is not empty, the pass returns no error, and either
    it waits the default delay of ten seconds for a terminating job or DNS
    zone (in the deletion workflow, in the resolution of the installer image
    or at the lookup of the install job), or it has reached the final return
    and asks to be run again when the delete-after annotation expires. *)
Theorem Reconcile_requeue_without_error (ext : Collaborators) (name : string) (w : World) :
  wp (Reconcile ext name) w
     (fun o _ =>
        result o <> Result_done ->
        err o = None /\
        (exit o = ExEnd \/
         result o = {| RequeueAfter := defaultRequeueTime |} /\
         (exit o = ExDeleted \/ exit o = ExResolveInstallerImage \/
          exit o = ExJobTerminating))).
Proof.
  unfold Reconcile, reconcile.
  wp_skim_results.
  all: cbn [fst snd] in *.
  all: intros Hr; try done.
  all: try match goal with
         | H : emptyOrWaiting _ _ |- _ => destruct H as [->|[-> ->]]; [done|]
         end.
  all: split; [done|].
  all: first [by left|right; split; [done|]; by auto].
Qed.

(** ** Waiting for the managed DNS zone *)

(** The store does not hold the zone of the ClusterDeployment with a true
    [ZoneAvailable] condition. *)
Definition zoneNotAvailable (ext : Collaborators) (cd : ClusterDeployment) (w : World) : Prop :=
  forall zone c,
    dnsZones w !! dnsZoneName ext (Name cd) = Some zone ->
    FindDNSZoneCondition (ZoneConditions zone) ZoneAvailableDNSZoneCondition = Some c ->
    ZoneCondStatus c <> ConditionTrue.

Definition installCall (c : Call) : bool :=
  match c with
  | CreateConfigMap _ | UpdateConfigMap _ | UpdateSecret _ => true
  | _ => false
  end.

(** Installation waits for the managed DNS zone.  For a ClusterDeployment
    with [manageDNS] set whose zone the store does not hold as available, a
    pass never gets beyond the DNS gate: it returns before the gate, or at
    the gate with an error, or at the gate with an empty result and no error
    because the zone is not ready; in particular it creates or updates no
    install config map and updates no secret. *)
Theorem reconcile_waits_for_zone (ext : Collaborators) (cd : ClusterDeployment) (w : World) :
  ManageDNS (Spec cd) = true ->
  zoneNotAvailable ext cd w ->
  wp (reconcile ext cd) w
     (fun o w' =>
        (beforeDNSGate (exit o) = true \/ exit o = ExDNSError \/
         exit o = ExDNSNotReady /\ err o = None /\ result o = Result_done) /\
        exists evs, emitted w w' evs /\ existsb installCall evs = false).
Proof.
  intros Hm Hna. unfold reconcile.
  destruct (migrateWildcardIngress cd) as [cd' migrated] eqn:Hmig.
  destruct migrated.
  { wp_steps. all: split; [by left|eexists; split; [emitted_solve|reflexivity]]. }
  apply migrateWildcardIngress_unchanged in Hmig. subst cd'.
  wp_explore (rewrite ?Hm in *;
              try match goal with
                | H : negb (bool_decide (ZoneCondStatus ?c = ConditionTrue)) = false,
                  Hz : dnsZones w !! _ = Some ?z,
                  Hc : FindDNSZoneCondition _ _ = Some ?c |- _ =>
                    exfalso; apply (Hna z c Hz Hc);
                    apply negb_false_iff, bool_decide_eq_true in H; exact H
                end).
  all: split; [|eexists; split; [emitted_solve|reflexivity]].
  all: first [by left|right; by left|right; right; by simplify_eq].
Qed.

Definition managedDNS_cd : ClusterDeployment :=
  set_Spec (set_ManageDNS true (Spec testClusterDeployment)) testClusterDeployment.

Lemma reconcile_waits_for_zone_witness :
  let w := testWorld [managedDNS_cd] [] testSecrets [] in
  let r := reconcile testCollaborators managedDNS_cd w in
  (beforeDNSGate (exit r.1) = true \/ exit r.1 = ExDNSError \/
   exit r.1 = ExDNSNotReady /\ err r.1 = None /\ result r.1 = Result_done) /\
  exists evs, emitted w r.2 evs /\ existsb installCall evs = false.
Proof.
  intros w r.
  apply (reconcile_waits_for_zone testCollaborators managedDNS_cd w).
  - reflexivity.
  - intros zone c Hz. discriminate Hz.
Defined.

(** ** An install job that is up to date *)

Lemma reconcile_installJob_keeps ext cd job hiveImage releaseImage sshKey w
    gjob cfgMap jobHash :
  noFaults w ->
  installInputs ext cd w hiveImage releaseImage sshKey gjob cfgMap jobHash ->
  hashOf job = Some jobHash ->
  outdated ext (Generation cd) (JobAnnotations job) = false ->
  outdated ext (Generation cd) (CMAnnotations cfgMap) = false ->
  wp (reconcile_installJob ext cd (Some job) hiveImage releaseImage sshKey) w
     (fun c w' =>
        (exists cd', c = inl cd') /\
        (exists evs, emitted w w' evs /\ jobCalls evs = 0%nat /\
           existsb (fun c => match c with UpdateConfigMap _ => true | _ => false end) evs
           = false) /\
        jobs w' = jobs w).
Proof.
  intros Hnf Hin Hhash Hjo Hco.
  pose proof (installInputs_hash _ _ _ _ _ _ _ _ _ Hin) as Hghash.
  destruct Hin
    as (s & ps & job0 & cfgMap0 & o1 & o2 & _ & Hs & Hps & Hgen & Hh & Ho1 & Ho2 & Hg & Hc).
  unfold reconcile_installJob.
  eapply wp_bind, wp_known; [eapply LoadSecretData_run; [apply Hnf|exact Hs|exact Hps]|].
  cbn beta iota. rewrite Hgen. cbn beta iota zeta. rewrite Hh. cbn beta iota zeta.
  rewrite Ho1. cbn beta iota zeta. rewrite Ho2. cbn beta iota zeta.
  rewrite <- Hg, <- Hc.
  unfold hashOf in Hhash, Hghash. unfold outdated in Hjo, Hco.
  destruct (from_option (lookup clusterDeploymentGenerationAnnotation) None
              (JobAnnotations job)) as [gj|] eqn:Ej;
    destruct (from_option (lookup clusterDeploymentGenerationAnnotation) None
                (CMAnnotations cfgMap)) as [gc|] eqn:Ec.
  all: wp_explore (rewrite ?Hnf, ?Ej, ?Ec, ?Hjo, ?Hco, ?Hhash, ?Hghash in *;
                   rewrite ?(bool_decide_eq_false_2
                               (default "" (Some jobHash) <> default "" (Some jobHash))),
                     ?(bool_decide_eq_false_2 (Some jobHash = None)) in *
                     by (first [done|intros X; by apply X])).
  all: split; [by eexists|].
  all: split; [eexists; split; [emitted_solve|split; reflexivity]|reflexivity].
Qed.

Lemma reconcile_status_end ext cd origCD job requeueAfter w :
  wp (reconcile_status ext cd origCD job requeueAfter) w
     (fun o w' =>
        (exists evs, emitted w w' evs /\ jobCalls evs = 0%nat) /\
        jobs w' = jobs w /\ (exit o = ExEnd \/ exit o = ExStatus)).
Proof.
  unfold reconcile_status, updateClusterDeploymentStatus.
  set (cd1 := match job with Some _ => _ | None => _ end). clearbody cd1.
  set (cd2 := if Installed (Status cd1) && _ then _ else _). clearbody cd2.
  wp_steps.
  all: split; [eexists; split; [emitted_solve|done]|].
  all: split; [done|]; first [by left|by right].
Qed.

(** An install job that is up to date is left alone.  Let the
    ClusterDeployment pass every step of a pass up to the lookup of the
    install job and not be installed, and let no call fail.  If the install
    job exists, is not terminating, carries the hash of the job that the pass
    generates, and neither it nor the generated config map is outdated, then
    the pass creates and deletes no job and leaves the jobs of the store as
    they are; it goes on to status convergence and returns there. *)
Theorem Reconcile_keeps_matching_job
    (ext : Collaborators) (name : string) (cd : ClusterDeployment) (w w1 : World)
    (imageSet : option ClusterImageSet) (sshKey : string)
    (job gjob : Job) (cfgMap : ConfigMap) (jobHash : string) (o : Outcome) :
  Provisionable ext name cd w imageSet sshKey ->
  noFaults w ->
  Installed (Status cd) = false ->
  jobs w !! GetInstallJobName ext cd = Some job ->
  PtrTime_IsZero (JobDeletionTimestamp job) = true ->
  installInputs ext cd w (getHiveImage ext cd imageSet) (getReleaseImage cd imageSet)
    sshKey gjob cfgMap jobHash ->
  hashOf job = Some jobHash ->
  outdated ext (Generation cd) (JobAnnotations job) = false ->
  outdated ext (Generation cd) (CMAnnotations cfgMap) = false ->
  Reconcile ext name w = (o, w1) ->
  (exists evs, emitted w w1 evs /\ jobCalls evs = 0%nat) /\
  jobs w1 = jobs w /\
  (exit o = ExEnd \/ exit o = ExStatus).
Proof.
  intros Hp Hnf Hi Hj Hterm Hin Hhash Hjo Hco Hrun.
  destruct (Reconcile_provisionable _ _ _ _ _ _ Hp) as (rq & n & _ & Hpass).
  rewrite Hpass in Hrun.
  assert (wp (reconcile_job ext cd cd (getHiveImage ext cd imageSet)
                (getReleaseImage cd imageSet) sshKey rq) (advance n w)
            (fun o w' =>
               (exists evs, emitted (advance n w) w' evs /\ jobCalls evs = 0%nat) /\
               jobs w' = jobs (advance n w) /\
               (exit o = ExEnd \/ exit o = ExStatus))) as H.
  { unfold reconcile_job. apply wp_bind, wp_client_Get.
    - rewrite advance_faults, Hnf. discriminate.
    - intros job' _. rewrite advance_jobs, Hj. intros [= <-].
      rewrite Hterm, Hi. cbn [negb]. apply wp_bind.
      eapply wp_mono.
      { apply (reconcile_installJob_keeps _ _ _ _ _ _ _ gjob cfgMap jobHash); try done.
        - eapply noFaults_sameInputs; [apply sameInputs_advance|done].
        - eapply installInputs_sameInputs; [apply sameInputs_advance|done]. }
      intros c w2 ([cd' ->] & (evs1 & Hev1 & Hn1 & _) & Hjobs1). cbn beta iota.
      eapply wp_mono; [apply reconcile_status_end|].
      intros o' w3 ((evs2 & Hev2 & Hn2) & Hjobs2 & Hexit). cbn beta.
      split; [|split; [by rewrite Hjobs2, Hjobs1, advance_jobs|done]].
      exists (evs1 ++ evs2). split; [by eapply emitted_trans|].
      rewrite jobCalls_app. lia.
    - rewrite advance_jobs, Hj. discriminate. }
  unfold wp in H. rewrite Hrun in H. cbn [fst snd] in H.
  destruct H as ((evs & Hev & Hn) & Hjobs & Hexit).
  split; [|split; [by rewrite Hjobs, advance_jobs|done]].
  exists evs. split; [|done]. unfold emitted in *. by rewrite Hev, advance_trace.
Qed.

Definition matching_world : World :=
  testWorld [testClusterDeployment] [testInstallJob] testSecrets [].

Lemma matching_world_provisionable :
  Provisionable testCollaborators testName testClusterDeployment matching_world None
    "fakesshkey".
Proof.
  split.
  - reflexivity.
  - reflexivity.
  - reflexivity.
  - constructor.
  - reflexivity.
  - intros k. exists (0, 0%nat). reflexivity.
  - reflexivity.
  - exists sshKeySecret, (testSecret sshKeySecret adminSSHKeySecretKey "fakesshkey").
    repeat split; reflexivity.
  - by eexists.
  - left. reflexivity.
Qed.

Lemma Reconcile_keeps_matching_job_witness :
  let r := Reconcile testCollaborators testName matching_world in
  (exists evs, emitted matching_world r.2 evs /\ jobCalls evs = 0%nat) /\
  jobs r.2 = jobs matching_world /\
  (exit r.1 = ExEnd \/ exit r.1 = ExStatus).
Proof.
  intros r. subst r.
  destruct (Reconcile testCollaborators testName matching_world) as [o w1] eqn:Hrun.
  apply (Reconcile_keeps_matching_job testCollaborators testName testClusterDeployment
           matching_world w1 None "fakesshkey" testInstallJob testInstallJob
           generated_configMap
           "md5:registry.svc.ci.openshift.org/openshift/hive-v4.0:hive,,cluster-installer"
           o).
  - apply matching_world_provisionable.
  - intros v k n. reflexivity.
  - reflexivity.
  - reflexivity.
  - reflexivity.
  - exists (testSecret pullSecretSecret DockerConfigJsonKey "{}"), "{}".
    eexists _, _, _, _. repeat split; reflexivity.
  - reflexivity.
  - reflexivity.
  - reflexivity.
  - exact Hrun.
Defined.

(** ** When a deprovision request is created *)

(** [syncDeletedClusterDeployment] creates a deprovision request only when
    there is something to deprovision and nothing left to wait for: if a
    pass issues the creation of a deprovision request, then the request is
    the one generated for the ClusterDeployment (its name, namespace, infra
    id, cluster id, region and credentials) with its owner set, the
    ClusterDeployment has an infra id and is not both installed and to be
    preserved, its DNS zone (if it manages one) and its install job are gone
    from the store, and the store holds no deprovision request for it yet. *)
Theorem syncDeleted_deprovision_request
    (ext : Collaborators) (cd : ClusterDeployment) (hiveImage : string) (w : World) :
  wp (syncDeletedClusterDeployment ext cd hiveImage) w
     (fun _ w' =>
        forall evs r, emitted w w' evs -> CreateDeprovisionRequest r ∈ evs ->
          (exists o, SetControllerReference ext cd None = Ok o /\
                     r = set_ReqOwner o (generateDeprovisionRequest cd)) /\
          InfraID (Status cd) <> "" /\
          PreserveOnDelete (Spec cd) && Installed (Status cd) = false /\
          (ManageDNS (Spec cd) = false \/
           dnsZones w !! dnsZoneName ext (Name cd) = None) /\
          jobs w !! GetInstallJobName ext cd = None /\
          deprovisionRequests w !! Name cd = None).
Proof.
  unfold syncDeletedClusterDeployment, ensureManagedDNSZoneDeleted.
  wp_steps.
  all: intros evs r Hev Hin; emitted_inv Hev; elem_of_inv Hin.
  all: simplify_eq.
  all: rewrite ?generateDeprovisionRequest_owner in *.
  all: split; [by eexists|].
  all: split; [by case_bool_decide|].
  all: split; [done|].
  all: split; [first [left; by destruct (ManageDNS (Spec cd))|by right]|done].
Qed.

(** ** After the delete-after annotation has expired *)


Definition expired_world : World :=
  testWorld [testExpiredClusterDeployment] [] testSecrets [].


(** ** Passes in which the deletion workflow lets go *)

(** The installed, preserved ClusterDeployment of the test "Test
    PreserveOnDelete": its finalizer is removed at once. *)
Definition preserved_cd : ClusterDeployment :=
  set_Status (set_Installed true (Status testDeletedClusterDeployment))
    (set_Spec (set_PreserveOnDelete true (Spec testDeletedClusterDeployment))
       testDeletedClusterDeployment).

Definition preserved_world : World := testWorld [preserved_cd] [] testSecrets [].

Lemma syncDeleted_finalizer_removal_witness :
  let ow := syncDeletedClusterDeployment testCollaborators preserved_cd "" preserved_world in
  trace ow.2 = [UpdateCD (DeleteFinalizer preserved_cd FinalizerDeprovision)] /\
  (ManageDNS (Spec preserved_cd) = false \/
   dnsZones preserved_world !! dnsZoneName testCollaborators (Name preserved_cd) = None) /\
  jobs preserved_world !! GetInstallJobName testCollaborators preserved_cd = None /\
  deprovisionSettled preserved_cd preserved_world.
Proof.
  intros ow.
  assert (trace ow.2 = [UpdateCD (DeleteFinalizer preserved_cd FinalizerDeprovision)]) as Ht.
  { vm_compute. reflexivity. }
  split; [exact Ht|].
  apply (syncDeleted_finalizer_removal testCollaborators preserved_cd "" preserved_world
           [UpdateCD (DeleteFinalizer preserved_cd FinalizerDeprovision)]).
  - exact Ht.
  - apply list_elem_of_In. left. reflexivity.
Defined.

Definition deleted_world : World := testWorld [testDeletedClusterDeployment] [] testSecrets [].

Definition deleted_request : ClusterDeprovisionRequest :=
  set_ReqOwner (Some testName) (generateDeprovisionRequest testDeletedClusterDeployment).

Lemma syncDeleted_deprovision_request_witness :
  let ow := syncDeletedClusterDeployment testCollaborators testDeletedClusterDeployment ""
              deleted_world in
  trace ow.2 = [CreateDeprovisionRequest deleted_request] /\
  InfraID (Status testDeletedClusterDeployment) <> "" /\
  jobs deleted_world !! GetInstallJobName testCollaborators testDeletedClusterDeployment = None /\
  deprovisionRequests deleted_world !! testName = None.
Proof.
  intros ow.
  assert (trace ow.2 = [CreateDeprovisionRequest deleted_request]) as Ht.
  { vm_compute. reflexivity. }
  split; [exact Ht|].
  destruct (syncDeleted_deprovision_request testCollaborators testDeletedClusterDeployment ""
              deleted_world [CreateDeprovisionRequest deleted_request] deleted_request)
    as (_ & Hinfra & _ & _ & Hjob & Hreq).
  - exact Ht.
  - apply list_elem_of_In. left. reflexivity.
  - split; [exact Hinfra|]. split; [exact Hjob|exact Hreq].
Defined.

Lemma Reconcile_deletes_only_expired_witness :
  let ow := Reconcile testCollaborators testName expired_world in
  trace ow.2 = [DeleteCD testName] /\
  exists cd deleteAfter dur,
    clusterDeployments expired_world !! testName = Some cd /\
    testName = Name cd /\ DeletionTimestamp cd = None /\
    Annotations cd !! deleteAfterAnnotation = Some deleteAfter /\
    ParseDuration testCollaborators deleteAfter = Ok dur /\
    CreationTimestamp cd <> 0 /\
    CreationTimestamp cd + dur < clock expired_world (ticks expired_world) /\
    [DeleteCD testName] = [DeleteCD (Name cd)].
Proof.
  intros ow.
  assert (trace ow.2 = [DeleteCD testName]) as Ht.
  { vm_compute. reflexivity. }
  split; [exact Ht|].
  apply (Reconcile_deletes_only_expired testCollaborators testName expired_world
           [DeleteCD testName] testName).
  - exact Ht.
  - apply list_elem_of_In. left. reflexivity.
Defined.
